(** * Client tracker: a shallow embedding and its verified properties

    The development embeds the client-side event tracker of the repository
    (the two versions of [client_tracker.js]: the one configured by
    [data-org] and the later one configured by [data-tracking-key], which
    adds field-name normalisation) and proves the properties its
    specification states about it.

    Modelling conventions.
    - A JavaScript string is a [string]: a sequence of 8-bit characters
      standing for the code units below U+0100.
    - A JavaScript object used as a record or dictionary is a
      [gmap string JsValue] of its own enumerable properties.  Property
      reads in the tracker use fixed names, none of which is defined on the
      built-in prototypes, so a missing own property reads as [undefined].
    - Numbers are integers ([Z]); the tracker computes with no other number
      that the properties below depend on.
    - The browser supplies what the script cannot compute: the cookie
      string, the parsed query string, the random token, the clock.
    - A run of the script ends in a [Completion]: normally, by a thrown
      error, or [Unmodelled] on the inputs listed at [JSON.PR]. *)

From Stdlib Require Import ZArith NArith Ascii String Bool Lia.
From stdpp Require Import gmap strings list fin_maps pretty sorting.

#[local] Set Warnings "-register-all,-clear-no-such-hyp".
#[local] Open Scope N_scope.

(* ===================================================================== *)
(** * Strings *)
(* ===================================================================== *)

Module Str.

Definition code (c : ascii) : N := N_of_ascii c.

Definition dquote : ascii := "034"%char.
Definition backslash : ascii := "092"%char.

(** [String.prototype.toLowerCase] on code units below U+0100: the
    letters A-Z and the Latin-1 capitals U+00C0-U+00DE (U+00D7, the
    multiplication sign, apart) move up by 32. *)
Definition is_upper (c : ascii) : bool :=
  let n := code c in
  ((65 <=? n) && (n <=? 90)) || ((192 <=? n) && (n <=? 222) && negb (n =? 215)).

Definition lower_char (c : ascii) : ascii :=
  if is_upper c then ascii_of_N (code c + 32) else c.

Fixpoint toLowerCase (s : string) : string :=
  match s with
  | EmptyString => EmptyString
  | String c s' => String (lower_char c) (toLowerCase s')
  end.

(** [strip_prefix p s] is [Some r] when [s = p ++ r]. *)
Fixpoint strip_prefix (p s : string) : option string :=
  match p, s with
  | EmptyString, _ => Some s
  | String a p', String b s' => if Ascii.eqb a b then strip_prefix p' s' else None
  | String _ _, EmptyString => None
  end.

Definition startsWith (s p : string) : bool :=
  match strip_prefix p s with Some _ => true | None => false end.

(** [s.includes(p)] *)
Fixpoint includes (s p : string) : bool :=
  match s with
  | EmptyString => startsWith EmptyString p
  | String _ s' => startsWith s p || includes s' p
  end.

(** [s.split(sep)] for a one-character separator. *)
Fixpoint split (sep : ascii) (s : string) : list string :=
  match s with
  | EmptyString => [EmptyString]
  | String c s' =>
      if Ascii.eqb c sep then EmptyString :: split sep s'
      else match split sep s' with
           | [] => [String c EmptyString]
           | w :: ws => String c w :: ws
           end
  end.

Fixpoint chars (s : string) : list string :=
  match s with
  | EmptyString => []
  | String c s' => String c EmptyString :: chars s'
  end.

Definition nonempty (s : string) : bool :=
  match s with EmptyString => false | String _ _ => true end.

(** White space and line terminators below U+0100, as [trim] sees
    them. *)
Definition is_space (c : ascii) : bool :=
  let n := code c in ((9 <=? n) && (n <=? 13)) || (n =? 32) || (n =? 160).

Fixpoint trimStart (s : string) : string :=
  match s with
  | EmptyString => EmptyString
  | String c s' => if is_space c then trimStart s' else s
  end.

Fixpoint trimEnd (s : string) : string :=
  match s with
  | EmptyString => EmptyString
  | String c s' =>
      match trimEnd s' with
      | EmptyString => if is_space c then EmptyString else String c EmptyString
      | r => String c r
      end
  end.

Definition trim (s : string) : string := trimEnd (trimStart s).

(** [s.slice(0, n)] *)
Fixpoint take (n : nat) (s : string) : string :=
  match n, s with
  | S n', String c s' => String c (take n' s')
  | _, _ => EmptyString
  end.

End Str.

(* ===================================================================== *)
(** * JavaScript values *)
(* ===================================================================== *)

(** [VHost] stands for a host object the tracker never looks into (a
    [File] of a form, a DOM node): truthy, without own enumerable
    properties. *)
Inductive JsValue : Type :=
  | VUndefined
  | VNull
  | VBool (b : bool)
  | VNum (n : Z)
  | VStr (s : string)
  | VArr (elems : list JsValue)
  | VObj (props : gmap string JsValue)
  | VHost (class : string).

Inductive JsError : Type := SyntaxError | TypeError.

(** The outcome of running a piece of the script.  [Unmodelled] marks an
    input on which the embedding takes no position (see [JSON.parse]). *)
Inductive Completion (A : Type) : Type :=
  | Normal (a : A)
  | Throw (e : JsError)
  | Unmodelled.
Arguments Normal {A} a.
Arguments Throw {A} e.
Arguments Unmodelled {A}.

Definition truthy (v : JsValue) : bool :=
  match v with
  | VUndefined | VNull => false
  | VBool b => b
  | VNum n => negb (n =? 0)%Z
  | VStr s => Str.nonempty s
  | VArr _ | VObj _ | VHost _ => true
  end.

(** [a || b] *)
Definition js_or (a b : JsValue) : JsValue := if truthy a then a else b.
Infix "|||" := js_or (at level 50, left associativity).

Fixpoint index_props (i : N) (l : list JsValue) : gmap string JsValue :=
  match l with
  | [] => ∅
  | v :: l' => <[pretty i := v]> (index_props (N.succ i) l')
  end.

(** The own enumerable properties of a value, as object spread and
    [Object.values] see them. *)
Definition own_props (v : JsValue) : gmap string JsValue :=
  match v with
  | VObj m => m
  | VArr l => index_props 0 l
  | VStr s => index_props 0 (VStr <$> Str.chars s)
  | _ => ∅
  end.

(** [o.k] on an object given by its own properties. *)
Definition get (o : gmap string JsValue) (k : string) : JsValue :=
  default VUndefined (o !! k).

(** [v.k] on any value, for a name [k] that no built-in prototype
    defines: reading a property of [null] or [undefined] throws a
    TypeError. *)
Definition get_prop (v : JsValue) (k : string) : Completion JsValue :=
  match v with
  | VUndefined | VNull => Throw TypeError
  | _ => Normal (get (own_props v) k)
  end.

(** An object literal: the properties in source order, a later one
    replacing an earlier one of the same name. *)
Definition obj (l : list (string * JsValue)) : gmap string JsValue :=
  foldl (λ m kv, <[kv.1 := kv.2]> m) ∅ l.

(** [{ ...target, ...src }]: the properties of [src] win. *)
Definition spread (target : gmap string JsValue) (src : JsValue) : gmap string JsValue :=
  own_props src ∪ target.

(** [o[k] = v] on a plain object whose key comes from outside: the key
    [__proto__] reaches the prototype setter and adds no own property. *)
Definition assign (o : gmap string JsValue) (k : string) (v : JsValue) : gmap string JsValue :=
  if decide (k = "__proto__") then o else <[k := v]> o.

(* ===================================================================== *)
(** * JSON *)
(* ===================================================================== *)

Module JSON.

(** Result of a parsing function: a value and the rest of the text
    ([POk]), a syntax error ([PErr]), or no answer ([PUnm]) on a text
    that holds what [JsValue] has no value for: a fraction or exponent,
    an integer beyond 2^53, a code unit above U+00FF. *)
Inductive PR (A : Type) : Type :=
  | POk (a : A) (rest : string)
  | PErr
  | PUnm.
Arguments POk {A} a rest.
Arguments PErr {A}.
Arguments PUnm {A}.

Definition pr_map {A B} (f : A → B) (r : PR A) : PR B :=
  match r with
  | POk a rest => POk (f a) rest
  | PErr => PErr
  | PUnm => PUnm
  end.

Definition is_ws (c : ascii) : bool :=
  let n := Str.code c in (n =? 32) || (n =? 9) || (n =? 10) || (n =? 13).

Fixpoint skip_ws (s : string) : string :=
  match s with
  | EmptyString => EmptyString
  | String c s' => if is_ws c then skip_ws s' else s
  end.

Definition digit (c : ascii) : option N :=
  let n := Str.code c in
  if (48 <=? n) && (n <=? 57) then Some (n - 48) else None.

Definition hex_digit (c : ascii) : option N :=
  let n := Str.code c in
  if (48 <=? n) && (n <=? 57) then Some (n - 48)
  else if (97 <=? n) && (n <=? 102) then Some (n - 87)
  else if (65 <=? n) && (n <=? 70) then Some (n - 55)
  else None.

Definition hex4 (a b c d : ascii) : option N :=
  match hex_digit a, hex_digit b, hex_digit c, hex_digit d with
  | Some x, Some y, Some z, Some w => Some (4096 * x + 256 * y + 16 * z + w)
  | _, _, _, _ => None
  end.

(** The simple escapes: the character after the backslash and the code
    unit it denotes. *)
Definition simple_escape (e : ascii) : option ascii :=
  let n := Str.code e in
  if n =? 34 then Some Str.dquote
  else if n =? 92 then Some Str.backslash
  else if n =? 47 then Some "/"%char
  else if n =? 98 then Some "008"%char
  else if n =? 102 then Some "012"%char
  else if n =? 110 then Some "010"%char
  else if n =? 114 then Some "013"%char
  else if n =? 116 then Some "009"%char
  else None.

(** The characters of a string literal after its opening quote, up to
    the closing quote. *)
Fixpoint parse_string_body (s : string) : PR string :=
  match s with
  | EmptyString => PErr
  | String c s' =>
      if Str.code c =? 34 then POk EmptyString s'
      else if Str.code c =? 92 then
        match s' with
        | EmptyString => PErr
        | String e s'' =>
            if Str.code e =? 117 then
              match s'' with
              | String h1 (String h2 (String h3 (String h4 r))) =>
                  match hex4 h1 h2 h3 h4 with
                  | None => PErr
                  | Some n =>
                      if n <? 256
                      then pr_map (String (ascii_of_N n)) (parse_string_body r)
                      else PUnm
                  end
              | _ => PErr
              end
            else
              match simple_escape e with
              | Some x => pr_map (String x) (parse_string_body s'')
              | None => PErr
              end
        end
      else if Str.code c <? 32 then PErr
      else pr_map (String c) (parse_string_body s')
  end.

Fixpoint take_digits (acc : N) (s : string) : N * string :=
  match s with
  | EmptyString => (acc, EmptyString)
  | String c s' =>
      match digit c with
      | Some d => take_digits (acc * 10 + d) s'
      | None => (acc, s)
      end
  end.

Definition continues_number (s : string) : bool :=
  match s with
  | EmptyString => false
  | String c _ => let n := Str.code c in (n =? 46) || (n =? 101) || (n =? 69)
  end.

Definition parse_number (s : string) : PR JsValue :=
  let '(neg, s1) :=
    match s with
    | String c r => if Str.code c =? 45 then (true, r) else (false, s)
    | EmptyString => (false, s)
    end in
  match s1 with
  | EmptyString => PErr
  | String c r =>
      match digit c with
      | None => PErr
      | Some d =>
          let '(n, r') := if d =? 0 then (0, r) else take_digits d r in
          if continues_number r' then PUnm
          else if n <=? 2 ^ 53
               then POk (VNum (if neg then - Z.of_N n else Z.of_N n)) r'
               else PUnm
      end
  end.

Definition parse_literal (word : string) (v : JsValue) (s : string) : PR JsValue :=
  match Str.strip_prefix word s with
  | Some r => POk v r
  | None => PErr
  end.

(** After an element or a member: a comma, and the text after it, or
    the closing bracket [close]. *)
Definition after_item (close : N) (s : string) : option (bool * string) :=
  match skip_ws s with
  | EmptyString => None
  | String c r =>
      if Str.code c =? 44 then Some (true, skip_ws r)
      else if Str.code c =? close then Some (false, r)
      else None
  end.

(** The key of a member and its colon. *)
Definition parse_key (s : string) : PR string :=
  match s with
  | EmptyString => PErr
  | String q r =>
      if negb (Str.code q =? 34) then PErr
      else
        match parse_string_body r with
        | POk k r1 =>
            match skip_ws r1 with
            | EmptyString => PErr
            | String c r2 => if Str.code c =? 58 then POk k (skip_ws r2) else PErr
            end
        | PErr => PErr
        | PUnm => PUnm
        end
  end.

Fixpoint parse_value (fuel : nat) (s : string) {struct fuel} : PR JsValue :=
  match fuel with
  | O => PUnm
  | S fuel' =>
      match s with
      | EmptyString => PErr
      | String c r =>
          let n := Str.code c in
          if n =? 123 then
            match skip_ws r with
            | EmptyString => PErr
            | String c' r' =>
                if Str.code c' =? 125 then POk (VObj ∅) r'
                else parse_members fuel' ∅ (skip_ws r)
            end
          else if n =? 91 then
            match skip_ws r with
            | EmptyString => PErr
            | String c' r' =>
                if Str.code c' =? 93 then POk (VArr []) r'
                else parse_elements fuel' [] (skip_ws r)
            end
          else if n =? 34 then pr_map VStr (parse_string_body r)
          else if n =? 116 then parse_literal "true" (VBool true) s
          else if n =? 102 then parse_literal "false" (VBool false) s
          else if n =? 110 then parse_literal "null" VNull s
          else parse_number s
      end
  end
with parse_elements (fuel : nat) (acc : list JsValue) (s : string) {struct fuel}
    : PR JsValue :=
  match fuel with
  | O => PUnm
  | S fuel' =>
      match parse_value fuel' s with
      | POk v r =>
          match after_item 93 r with
          | Some (true, r') => parse_elements fuel' (acc ++ [v]) r'
          | Some (false, r') => POk (VArr (acc ++ [v])) r'
          | None => PErr
          end
      | PErr => PErr
      | PUnm => PUnm
      end
  end
with parse_members (fuel : nat) (m : gmap string JsValue) (s : string) {struct fuel}
    : PR JsValue :=
  match fuel with
  | O => PUnm
  | S fuel' =>
      match parse_key s with
      | POk k r =>
          match parse_value fuel' r with
          | POk v r' =>
              match after_item 125 r' with
              | Some (true, r'') => parse_members fuel' (<[k := v]> m) r''
              | Some (false, r'') => POk (VObj (<[k := v]> m)) r''
              | None => PErr
              end
          | PErr => PErr
          | PUnm => PUnm
          end
      | PErr => PErr
      | PUnm => PUnm
      end
  end.

(** [JSON.parse(text)]: a duplicated key keeps its last value; anything
    after the value but white space is a syntax error. *)
Definition parse (text : string) : Completion JsValue :=
  match parse_value (S (String.length text)) (skip_ws text) with
  | POk v r =>
      match skip_ws r with
      | EmptyString => Normal v
      | String _ _ => Throw SyntaxError
      end
  | PErr => Throw SyntaxError
  | PUnm => Unmodelled
  end.

Definition hex_char (n : N) : ascii :=
  if n <? 10 then ascii_of_N (48 + n) else ascii_of_N (87 + n).

(** [QuoteJSONString] on one code unit. *)
Definition quote_char (c : ascii) : string :=
  let n := Str.code c in
  let esc (e : string) := String Str.backslash e in
  if n =? 34 then esc (String Str.dquote EmptyString)
  else if n =? 92 then esc (String Str.backslash EmptyString)
  else if n =? 8 then esc "b"
  else if n =? 9 then esc "t"
  else if n =? 10 then esc "n"
  else if n =? 12 then esc "f"
  else if n =? 13 then esc "r"
  else if n <? 32 then
    esc (String "u" (String "0" (String "0"
           (String (hex_char (n / 16)) (String (hex_char (n mod 16)) EmptyString)))))
  else String c EmptyString.

Fixpoint quote_body (s : string) : string :=
  match s with
  | EmptyString => EmptyString
  | String c s' => quote_char c +:+ quote_body s'
  end.

Definition quote (s : string) : string :=
  String Str.dquote (quote_body s +:+ String Str.dquote EmptyString).

Definition member (kv : string * string) : string :=
  quote kv.1 +:+ ":" +:+ quote kv.2.

Fixpoint members (kvs : list (string * string)) : string :=
  match kvs with
  | [] => EmptyString
  | [kv] => member kv
  | kv :: kvs' => member kv +:+ "," +:+ members kvs'
  end.

(** [JSON.stringify(o)] for an object whose properties, in insertion
    order, are the string-valued [kvs]. *)
Definition stringify (kvs : list (string * string)) : string :=
  "{" +:+ members kvs +:+ "}".

End JSON.

(* ===================================================================== *)
(** * Completions as a monad *)
(* ===================================================================== *)

#[export] Instance Completion_ret : MRet Completion := λ A a, Normal a.
#[export] Instance Completion_bind : MBind Completion := λ A B f c,
  match c with
  | Normal a => f a
  | Throw e => Throw e
  | Unmodelled => Unmodelled
  end.

(* ===================================================================== *)
(** * The page and the browser state around the script *)
(* ===================================================================== *)

(** The two versions of the tracker in the repository. *)
Inductive Variant : Type :=
  | OrgTracker   (* configured by data-org; five sensitive substrings *)
  | KeyTracker.  (* configured by data-tracking-key; eight substrings, normalisation *)

(** What one run of a callback reads from the page and the platform. *)
Record Env : Type := {
  script_data : option (gmap string string); (* data-* attributes of the script tag *)
  cookie : string;                           (* document.cookie *)
  query : list (string * string);            (* entries of URLSearchParams(location.search) *)
  href : string;                             (* location.href *)
  title : string;                            (* document.title *)
  referrer : string;                         (* document.referrer *)
  random_token : string;                     (* Math.random().toString(36).slice(2) *)
  now_ms : N;                                (* Date.now() *)
  navigation_start : N;                      (* performance.timing.navigationStart *)
  now_iso : string                           (* new Date().toISOString() *)
}.

(** The state the script shares with the rest of the browser. *)
Record World : Type := {
  sessionStorage : gmap string string;
  localStorage : gmap string string;
  client_tracker_flag : bool;                (* window.__CLIENT_TRACKER__ *)
  dataLayer : list (gmap string JsValue)     (* window.dataLayer *)
}.

Definition set_sessionStorage (f : gmap string string → gmap string string) (w : World) : World :=
  {| sessionStorage := f (sessionStorage w); localStorage := localStorage w;
     client_tracker_flag := client_tracker_flag w; dataLayer := dataLayer w |}.

Definition set_localStorage (f : gmap string string → gmap string string) (w : World) : World :=
  {| sessionStorage := sessionStorage w; localStorage := f (localStorage w);
     client_tracker_flag := client_tracker_flag w; dataLayer := dataLayer w |}.

Definition set_flag (b : bool) (w : World) : World :=
  {| sessionStorage := sessionStorage w; localStorage := localStorage w;
     client_tracker_flag := b; dataLayer := dataLayer w |}.

Definition set_dataLayer (f : list (gmap string JsValue) → list (gmap string JsValue))
    (w : World) : World :=
  {| sessionStorage := sessionStorage w; localStorage := localStorage w;
     client_tracker_flag := client_tracker_flag w; dataLayer := f (dataLayer w) |}.

(** [storage.getItem(k)] as a condition: [null] and the empty string are
    falsy. *)
Definition getItem_truthy (st : gmap string string) (k : string) : option string :=
  match st !! k with
  | Some s => if Str.nonempty s then Some s else None
  | None => None
  end.

(* ===================================================================== *)
(** * Client identity *)
(* ===================================================================== *)

Module Cookie.

(** [.] of a regular expression without the [s] flag: any code unit
    but a line terminator. *)
Definition is_dot (c : ascii) : bool :=
  negb ((Str.code c =? 10) || (Str.code c =? 13)).

(** [.*?;] at the head of [s]: the characters before the first
    semicolon, none of them a line terminator. *)
Fixpoint lazy_to_semicolon (s : string) : option string :=
  match s with
  | EmptyString => None
  | String c s' =>
      if Str.code c =? 59 then Some EmptyString
      else if is_dot c then String c <$> lazy_to_semicolon s'
      else None
  end.

(** [(.+?);] at the head of [s]: one character, which may itself be a
    semicolon, then as few more as reach a semicolon. *)
Definition group_then_semicolon (s : string) : option string :=
  match s with
  | EmptyString => None
  | String c s' => if is_dot c then String c <$> lazy_to_semicolon s' else None
  end.

Definition match_here (s : string) : option string :=
  match Str.strip_prefix "_ga=" s with
  | Some rest => group_then_semicolon rest
  | None => None
  end.

(** [s.match(/_ga=(.+?);/)]: group 1 of the leftmost match. *)
Fixpoint ga_match (s : string) : option string :=
  match match_here s with
  | Some v => Some v
  | None =>
      match s with
      | EmptyString => None
      | String _ s' => ga_match s'
      end
  end.

End Cookie.

(** The cookie branch of [getGAClientId]: fields 3 and 4 of the [_ga]
    value. *)
Definition ga_cookie_id (cookie : string) : option string :=
  match Cookie.ga_match cookie with
  | Some m1 =>
      match Str.split "."%char m1 with
      | _ :: _ :: p2 :: p3 :: _ => Some (p2 +:+ "." +:+ p3)
      | _ => None
      end
  | None => None
  end.

(** [getGAClientId()], threading [localStorage].  [random] is
    [Math.random().toString(36).slice(2)] and [now] is [Date.now()]. *)
Definition getGAClientId (cookie : string) (random : string) (now : N)
    (ls : gmap string string) : string * gmap string string :=
  match ga_cookie_id cookie with
  | Some id => (id, ls)
  | None =>
      match getItem_truthy ls "ga_client_id" with
      | Some cid => (cid, ls)
      | None =>
          let cid := "cid_" +:+ random +:+ pretty now in
          (cid, <["ga_client_id" := cid]> ls)
      end
  end.

(* ===================================================================== *)
(** * Attribution *)
(* ===================================================================== *)

Record Tracking : Type := {
  utm_source : string;
  utm_medium : string;
  utm_campaign : string;
  utm_term : string;
  utm_content : string;
  utm_campaign_id : string;
  fbclid : string;
  gclid : string;
  msclkid : string;
  li_fat_id : string
}.

(** [p.get(k) || ''] *)
Definition param (q : list (string * string)) (k : string) : string :=
  match list_find (λ kv, kv.1 = k) q with
  | Some (_, (_, v)) => v
  | None => EmptyString
  end.

Definition readParams (q : list (string * string)) : Tracking :=
  {| utm_source := param q "utm_source";
     utm_medium := param q "utm_medium";
     utm_campaign := param q "utm_campaign";
     utm_term := param q "utm_term";
     utm_content := param q "utm_content";
     utm_campaign_id := param q "utm_id";
     fbclid := param q "fbclid";
     gclid := param q "gclid";
     msclkid := param q "msclkid";
     li_fat_id := param q "li_fat_id" |}.

(** The properties of the object [readParams] returns, in insertion
    order. *)
Definition tracking_entries (t : Tracking) : list (string * string) :=
  [ ("utm_source", utm_source t); ("utm_medium", utm_medium t);
    ("utm_campaign", utm_campaign t); ("utm_term", utm_term t);
    ("utm_content", utm_content t); ("utm_campaign_id", utm_campaign_id t);
    ("fbclid", fbclid t); ("gclid", gclid t);
    ("msclkid", msclkid t); ("li_fat_id", li_fat_id t) ].

Definition tracking_object (t : Tracking) : JsValue :=
  VObj (obj (prod_map id VStr <$> tracking_entries t)).

Definition empty_tracking : Tracking :=
  {| utm_source := ""; utm_medium := ""; utm_campaign := ""; utm_term := "";
     utm_content := ""; utm_campaign_id := ""; fbclid := ""; gclid := "";
     msclkid := ""; li_fat_id := "" |}.

(** The query parameters [readParams] reads. *)
Definition recognised_parameters : list string :=
  [ "utm_source"; "utm_medium"; "utm_campaign"; "utm_term"; "utm_content"; "utm_id";
    "fbclid"; "gclid"; "msclkid"; "li_fat_id" ].

(** The field of the record that holds the parameter [k]: the name of
    the parameter, but [utm_campaign_id] for [utm_id]. *)
Definition record_field (k : string) : string :=
  if String.eqb k "utm_id" then "utm_campaign_id" else k.

(** [Object.values(tracking).some(Boolean)] *)
Definition hasAny (t : Tracking) : bool :=
  existsb (λ kv, Str.nonempty kv.2) (tracking_entries t).

(** The top-level block that settles [tracking]: a non-empty reading of
    the query is stored and used; otherwise the stored snapshot, when
    there is one, is parsed and used. *)
Definition resolveTracking (q : list (string * string)) (ss : gmap string string)
    : gmap string string * Completion JsValue :=
  let tracking := readParams q in
  if hasAny tracking
  then (<["tracking_params" := JSON.stringify (tracking_entries tracking)]> ss,
        Normal (tracking_object tracking))
  else
    match getItem_truthy ss "tracking_params" with
    | Some stored => (ss, JSON.parse stored)
    | None => (ss, Normal (tracking_object tracking))
    end.

Record AdInfo : Type := {
  ad_platform : string;
  ad_click_id_type : string;
  ad_click_id_value : JsValue
}.

Definition adInfo_object (a : AdInfo) : JsValue :=
  VObj (<["ad_click_id_value" := ad_click_id_value a]>
       (<["ad_click_id_type" := VStr (ad_click_id_type a)]>
       (<["ad_platform" := VStr (ad_platform a)]> ∅))).

Definition no_ad : AdInfo :=
  {| ad_platform := ""; ad_click_id_type := ""; ad_click_id_value := VStr "" |}.

Definition detectAds (data : JsValue) : Completion AdInfo :=
  fb ← get_prop data "fbclid";
  if truthy fb
  then Normal {| ad_platform := "Facebook/Instagram"; ad_click_id_type := "fbclid";
                 ad_click_id_value := fb |}
  else
  g ← get_prop data "gclid";
  if truthy g
  then Normal {| ad_platform := "Google Ads"; ad_click_id_type := "gclid";
                 ad_click_id_value := g |}
  else
  ms ← get_prop data "msclkid";
  if truthy ms
  then Normal {| ad_platform := "Microsoft Ads"; ad_click_id_type := "msclkid";
                 ad_click_id_value := ms |}
  else
  li ← get_prop data "li_fat_id";
  if truthy li
  then Normal {| ad_platform := "LinkedIn Ads"; ad_click_id_type := "li_fat_id";
                 ad_click_id_value := li |}
  else Normal no_ad.

(** The classification as the specification words it: a table of click
    identifiers in priority order, of which the first non-empty one
    decides. *)
Definition click_id_platforms : list (string * string) :=
  [ ("fbclid", "Facebook/Instagram"); ("gclid", "Google Ads");
    ("msclkid", "Microsoft Ads"); ("li_fat_id", "LinkedIn Ads") ].

Definition classifyAdPlatform (record : gmap string JsValue) : AdInfo :=
  match list_find (λ kp, truthy (get record kp.1) = true) click_id_platforms with
  | Some (_, (k, platform)) =>
      {| ad_platform := platform; ad_click_id_type := k; ad_click_id_value := get record k |}
  | None => no_ad
  end.

(* ===================================================================== *)
(** * The tracker *)
(* ===================================================================== *)

Record Config : Type := {
  cfg_id : string;      (* CONFIG.org or CONFIG.tracking_key *)
  cfg_env : string;
  cfg_debug : bool
}.

(** The variables the callbacks of one page close over.  The debug
    output of [log] goes to the console and is not part of the state. *)
Record Tracker : Type := {
  variant : Variant;
  CONFIG : Config;
  GA_CLIENT_ID : string;
  tracking : JsValue;
  adInfo : AdInfo;
  seenScroll : gset Z;
  scrollTimeout : bool;   (* a debounce timer is pending *)
  formStarted : bool;
  exitTracked : bool
}.

Definition id_attribute (v : Variant) : string :=
  match v with OrgTracker => "org" | KeyTracker => "tracking-key" end.

Definition id_property (v : Variant) : string :=
  match v with OrgTracker => "organization" | KeyTracker => "tracking_key" end.

(** [a || d] for an attribute read that may be absent or empty. *)
Definition or_default (o : option string) (d : string) : string :=
  match o with
  | Some s => if Str.nonempty s then s else d
  | None => d
  end.

Definition data_attribute (env : Env) (k : string) : option string :=
  script_data env ≫= (λ attrs, attrs !! k).

Definition read_config (v : Variant) (env : Env) : Config :=
  {| cfg_id := or_default (data_attribute env (id_attribute v)) "unknown";
     cfg_env := or_default (data_attribute env "env") "prod";
     cfg_debug := bool_decide (data_attribute env "debug" = Some "true") |}.

Definition metadata (t : Tracker) (env : Env) (eventName : JsValue) : gmap string JsValue :=
  obj [ ("event", eventName);
        ("activity_type", eventName);
        (id_property (variant t), VStr (cfg_id (CONFIG t)));
        ("environment", VStr (cfg_env (CONFIG t)));
        ("ga_client_id", VStr (GA_CLIENT_ID t));
        ("client_id", VStr (GA_CLIENT_ID t));
        ("page_url", VStr (href env));
        ("page_title", VStr (title env));
        ("page_referrer", VStr (or_default (Some (referrer env)) "direct"));
        ("timestamp", VStr (now_iso env)) ].

(** The envelope [pushToDataLayer] builds. *)
Definition envelope (t : Tracker) (env : Env) (eventName eventData : JsValue)
    : gmap string JsValue :=
  let eventData := match eventData with VUndefined => VObj ∅ | _ => eventData end in
  spread (spread (spread (metadata t env eventName) (tracking t))
                 (adInfo_object (adInfo t)))
         eventData.

Definition pushToDataLayer (t : Tracker) (env : Env) (eventName eventData : JsValue)
    (w : World) : World :=
  set_dataLayer (λ log, log ++ [envelope t env eventName eventData]) w.

(** The body of the script up to the registration of the listeners.
    [Normal None] is the early return of a second inclusion in the same
    window. *)
Definition script (v : Variant) (env : Env) (w : World) : World * Completion (option Tracker) :=
  if client_tracker_flag w then (w, Normal None)
  else
    let w := set_flag true w in
    let cfg := read_config v env in
    let '(cid, ls) :=
      getGAClientId (cookie env) (random_token env) (now_ms env) (localStorage w) in
    let w := set_localStorage (λ _, ls) w in
    let '(ss, parsed) := resolveTracking (query env) (sessionStorage w) in
    let w := set_sessionStorage (λ _, ss) w in
    match parsed ≫= (λ tr, ad ← detectAds tr; mret (tr, ad)) with
    | Throw e => (w, Throw e)
    | Unmodelled => (w, Unmodelled)
    | Normal (tr, ad) =>
        let t := {| variant := v; CONFIG := cfg; GA_CLIENT_ID := cid;
                    tracking := tr; adInfo := ad; seenScroll := ∅;
                    scrollTimeout := false; formStarted := false;
                    exitTracked := false |} in
        let w :=
          match getItem_truthy (sessionStorage w) "session_started" with
          | Some _ => w
          | None =>
              pushToDataLayer t env (VStr "session_start") VUndefined
                (set_sessionStorage (<["session_started" := "1"]>) w)
          end in
        let w := pushToDataLayer t env (VStr "page_view") VUndefined w in
        (w, Normal (Some t))
    end.

(** The public API: [window.ClientTracker.push]. *)
Definition ClientTracker_push (t : Tracker) (env : Env) (eventName eventData : JsValue)
    (w : World) : World :=
  pushToDataLayer t env eventName eventData w.

(* --------------------------------------------------------------------- *)
(** ** Scroll depth *)

(** The value of [Math.round(scrollY / (scrollHeight - innerHeight) * 100)]
    when the debounce timer fires. *)
Inductive Percent : Type := Finite (p : Z) | PlusInfinity | MinusInfinity | NaN.

Definition reaches (percent : Percent) (mark : Z) : bool :=
  match percent with
  | Finite p => (mark <=? p)%Z
  | PlusInfinity => true
  | MinusInfinity | NaN => false
  end.

Definition scrollMarks : list Z := [25; 50; 75; 90]%Z.

Definition with_seenScroll (s : gset Z) (t : Tracker) : Tracker :=
  {| variant := variant t; CONFIG := CONFIG t; GA_CLIENT_ID := GA_CLIENT_ID t;
     tracking := tracking t; adInfo := adInfo t; seenScroll := s;
     scrollTimeout := scrollTimeout t; formStarted := formStarted t;
     exitTracked := exitTracked t |}.

Definition with_scrollTimeout (b : bool) (t : Tracker) : Tracker :=
  {| variant := variant t; CONFIG := CONFIG t; GA_CLIENT_ID := GA_CLIENT_ID t;
     tracking := tracking t; adInfo := adInfo t; seenScroll := seenScroll t;
     scrollTimeout := b; formStarted := formStarted t;
     exitTracked := exitTracked t |}.

Definition with_formStarted (b : bool) (t : Tracker) : Tracker :=
  {| variant := variant t; CONFIG := CONFIG t; GA_CLIENT_ID := GA_CLIENT_ID t;
     tracking := tracking t; adInfo := adInfo t; seenScroll := seenScroll t;
     scrollTimeout := scrollTimeout t; formStarted := b;
     exitTracked := exitTracked t |}.

Definition with_exitTracked (b : bool) (t : Tracker) : Tracker :=
  {| variant := variant t; CONFIG := CONFIG t; GA_CLIENT_ID := GA_CLIENT_ID t;
     tracking := tracking t; adInfo := adInfo t; seenScroll := seenScroll t;
     scrollTimeout := scrollTimeout t; formStarted := formStarted t;
     exitTracked := b |}.

(** The scroll listener: cancel the pending timer and start a new one. *)
Definition on_scroll (t : Tracker) : Tracker := with_scrollTimeout true t.

(** One turn of [scrollMarks.forEach]. *)
Definition scroll_mark (env : Env) (percent : Percent) (st : Tracker * World) (mark : Z)
    : Tracker * World :=
  let '(t, w) := st in
  if reaches percent mark && negb (bool_decide (mark ∈ seenScroll t))
  then (with_seenScroll ({[mark]} ∪ seenScroll t) t,
        pushToDataLayer t env (VStr "scroll_depth") (VObj (obj [("percent_scrolled", VNum mark)])) w)
  else (t, w).

(** The timer callback; it runs only when a timer is pending. *)
Definition on_scroll_timer (env : Env) (percent : Percent) (t : Tracker) (w : World)
    : Tracker * World :=
  if scrollTimeout t
  then foldl (scroll_mark env percent) (with_scrollTimeout false t, w) scrollMarks
  else (t, w).

(** A scroll event followed by the firing of its timer, at which the
    page stands at [percent]. *)
Definition scroll_to (env : Env) (st : Tracker * World) (percent : Percent) : Tracker * World :=
  on_scroll_timer env percent (on_scroll st.1) st.2.

(** The thresholds a run of scroll positions fires, in order, from the
    set [seen] of those fired before. *)
Fixpoint fired (seen : gset Z) (percents : list Percent) : list Z :=
  match percents with
  | [] => []
  | p :: ps =>
      let new := filter (λ mark, reaches p mark = true ∧ mark ∉ seen) scrollMarks in
      new ++ fired (list_to_set new ∪ seen) ps
  end.

Definition scroll_depth_envelope (t : Tracker) (env : Env) (mark : Z) : gmap string JsValue :=
  envelope t env (VStr "scroll_depth") (VObj (obj [("percent_scrolled", VNum mark)])).

(* --------------------------------------------------------------------- *)
(** ** Clicks *)

Record Element : Type := {
  tagName : string;
  attributes : gmap string string;
  innerText : string;      (* el.innerText || el.textContent || '' *)
  className : string
}.

Definition getAttribute (el : Element) (k : string) : option string := attributes el !! k.

Definition hasAttribute (el : Element) (k : string) : bool :=
  bool_decide (is_Some (attributes el !! k)).

(** [el.getAttribute(k)] as a value: [null] when the attribute is absent. *)
Definition attribute_value (el : Element) (k : string) : JsValue :=
  match getAttribute el k with Some s => VStr s | None => VNull end.

(** The click listener; [closest] is the result of [e.target.closest] on
    the selector of tracked elements. *)
Definition on_click (env : Env) (closest : option Element) (t : Tracker) (w : World) : World :=
  match closest with
  | None => w
  | Some el =>
      let eventData :=
        obj [ ("element_type", VStr (Str.toLowerCase (tagName el)));
              ("element_text", VStr (Str.take 100 (Str.trim (innerText el))));
              ("element_href", VStr (or_default (getAttribute el "href") ""));
              ("element_id", VStr (or_default (getAttribute el "id") ""));
              ("element_class", VStr (className el)) ] in
      let '(eventName, eventData) :=
        if hasAttribute el "data-nav-item" then
          ("nav_click", <["nav_item" := attribute_value el "data-nav-item"]> eventData)
        else if hasAttribute el "data-cta-name" then
          ("cta_click",
           <["cta_location" := VStr (or_default (getAttribute el "data-cta-location") "")]>
             (<["cta_name" := attribute_value el "data-cta-name"]> eventData))
        else if hasAttribute el "data-footer-link" then
          ("footer_click", <["link_name" := attribute_value el "data-footer-link"]> eventData)
        else if hasAttribute el "data-tab" then
          ("tab_click", <["tab_name" := attribute_value el "data-tab"]> eventData)
        else ("click", eventData) in
      pushToDataLayer t env (VStr eventName) (VObj eventData) w
  end.

(* --------------------------------------------------------------------- *)
(** ** Forms *)

(** A form as the listeners read it.  A field value is a string or a
    [File], the latter a [VHost]. *)
Record Form : Type := {
  form_tagName : string;
  form_attributes : gmap string string;
  form_action : string;
  form_entries : list (string * JsValue)     (* new FormData(form).entries() *)
}.

(** [form.getAttribute('name') || form.getAttribute('id') || 'unknown_form'] *)
Definition form_name (form : Form) : string :=
  or_default (form_attributes form !! "name")
    (or_default (form_attributes form !! "id") "unknown_form").

Definition form_id (form : Form) : string :=
  or_default (form_attributes form !! "id") "".

(** The focusin listener.  [field_form] is [None] when the target is not
    inside an input, select or textarea, and [Some None] when that field
    is in no form. *)
Definition on_focusin (env : Env) (field_form : option (option Form)) (t : Tracker) (w : World)
    : Tracker * World :=
  match field_form with
  | None => (t, w)
  | Some None => (t, w)
  | Some (Some form) =>
      if formStarted t then (t, w)
      else
        (with_formStarted true t,
         pushToDataLayer t env (VStr "form_start")
           (VObj (obj [ ("form_name", VStr (form_name form));
                        ("form_id", VStr (form_id form));
                        ("form_action", VStr (form_action form)) ])) w)
  end.

(** The substrings that mark a field as sensitive. *)
Definition denylist (v : Variant) : list string :=
  match v with
  | OrgTracker => ["password"; "pass"; "pwd"; "credit"; "card"]
  | KeyTracker => ["password"; "pass"; "pwd"; "credit"; "card"; "cvv"; "ssn"; "social"]
  end.

Definition is_sensitive (v : Variant) (key : string) : bool :=
  let lowerKey := Str.toLowerCase key in
  existsb (Str.includes lowerKey) (denylist v).

(** One turn of the loop over [formData.entries()]. *)
Definition collect_field (v : Variant) (data : gmap string JsValue) (kv : string * JsValue)
    : gmap string JsValue :=
  if is_sensitive v kv.1 then data else assign data kv.1 kv.2.

(** [if (c) { body }] as a statement on the state [s]. *)
Definition js_if {S : Type} (c : JsValue) (body : S → S) (s : S) : S :=
  if truthy c then body s else s.

(** FIELD NAME MAPPING of the tracking-key version. *)
Definition normalizeFieldNames (data : gmap string JsValue) : gmap string JsValue :=
  let d := get data in
  let normalized := data in
  let normalized :=
    let v := d "firstName" ||| d "first_name" ||| d "firstname" in
    js_if v (λ n, <["first_name" := v]> (<["firstName" := v]> n)) normalized in
  let normalized :=
    let v := d "lastName" ||| d "last_name" ||| d "lastname" in
    js_if v (λ n, <["last_name" := v]> (<["lastName" := v]> n)) normalized in
  let normalized :=
    let emailValue := d "email" ||| d "lead_email" ||| d "email_address" ||| d "user_email" in
    js_if emailValue
      (λ n, <["lead_email" := emailValue]> (<["email" := emailValue]> n)) normalized in
  let normalized :=
    let mobileValue := d "mobile" ||| d "mobileNo" ||| d "mobile_no" ||| d "phone"
                       ||| d "phone_number" ||| d "phoneNumber" in
    js_if mobileValue
      (λ n, <["phone" := mobileValue]>
              (<["mobileNo" := mobileValue]> (<["mobile_no" := mobileValue]> n)))
      normalized in
  let normalized :=
    let companyValue := d "company" ||| d "company_name" ||| d "companyName"
                        ||| d "organization" in
    js_if companyValue
      (λ n, <["company_name" := companyValue]> (<["company" := companyValue]> n))
      normalized in
  let normalized :=
    let v := d "country" ||| d "country_code" ||| d "countryCode" in
    js_if v (λ n, <["country" := v]> n) normalized in
  let normalized :=
    let messageValue := d "message" ||| d "comments" ||| d "description" ||| d "notes" in
    js_if messageValue
      (λ n, <["comments" := messageValue]> (<["message" := messageValue]> n)) normalized in
  let normalized :=
    let titleValue := d "jobTitle" ||| d "job_title" ||| d "title" ||| d "position" in
    js_if titleValue
      (λ n, <["jobTitle" := titleValue]> (<["job_title" := titleValue]> n)) normalized in
  let normalized :=
    let industryValue := d "industry" ||| d "business_type" ||| d "businessType" in
    js_if industryValue
      (λ n, <["business_type" := industryValue]> (<["industry" := industryValue]> n))
      normalized in
  let normalized :=
    let websiteValue := d "website" ||| d "website_url" ||| d "websiteUrl" ||| d "url" in
    js_if websiteValue
      (λ n, <["website_url" := websiteValue]> (<["website" := websiteValue]> n))
      normalized in
  let normalized :=
    let stateValue := d "state" ||| d "region" ||| d "province" in
    js_if stateValue
      (λ n, <["region" := stateValue]> (<["state" := stateValue]> n)) normalized in
  let normalized :=
    let v := d "city" ||| d "town" in
    js_if v (λ n, <["city" := v]> n) normalized in
  let normalized :=
    let zipValue := d "zip" ||| d "zipcode" ||| d "zip_code" ||| d "postal_code"
                    ||| d "postalCode" in
    js_if zipValue
      (λ n, <["postal_code" := zipValue]> (<["zip_code" := zipValue]> n)) normalized in
  let normalized :=
    let v := d "gender" ||| d "sex" in
    js_if v (λ n, <["gender" := v]> n) normalized in
  let normalized :=
    js_if (d "age" ||| d "date_of_birth" ||| d "dob" ||| d "birthdate")
      (λ n, <["date_of_birth" := d "date_of_birth" ||| d "dob" ||| d "birthdate"]>
              (<["age" := d "age"]> n))
      normalized in
  normalized.

(** The data the submit listener hands to [pushToDataLayer]; [None] when
    the listener returns early. *)
Definition submit_data (v : Variant) (target : option Form) : option (gmap string JsValue) :=
  match target with
  | None => None
  | Some form =>
      if negb (String.eqb (form_tagName form) "FORM") then None
      else
        let data :=
          obj ([ ("form_name", VStr (form_name form));
                 ("form_id", VStr (form_id form));
                 ("form_action", VStr (form_action form)) ]
               ++ match v with
                  | OrgTracker => []
                  | KeyTracker => [("form_type", VStr "html")]
                  end) in
        let data := foldl (collect_field v) data (form_entries form) in
        Some match v with
             | OrgTracker => data
             | KeyTracker => normalizeFieldNames data
             end
  end.

Definition on_submit (env : Env) (target : option Form) (t : Tracker) (w : World) : World :=
  match submit_data (variant t) target with
  | Some data => pushToDataLayer t env (VStr "form_submit") (VObj data) w
  | None => w
  end.

(** The data the message listener hands to [pushToDataLayer] for the
    message payload [e.data]; [None] when the message is ignored. *)
Definition message_data (v : Variant) (e_data : JsValue) : option (gmap string JsValue) :=
  if negb (truthy e_data) then None
  else if negb (truthy (get (own_props e_data) "event")) then None
  else
    match get (own_props e_data) "event" with
    | VStr "form_submit" =>
        let data :=
          spread (obj [ ("form_name", get (own_props e_data) "form_name" ||| VStr "frappe_form");
                        ("form_type", VStr "iframe");
                        ("source", VStr "frappe_webform") ])
                 e_data in
        Some match v with
             | OrgTracker => data
             | KeyTracker => normalizeFieldNames data
             end
    | _ => None
    end.

Definition on_message (env : Env) (e_data : JsValue) (t : Tracker) (w : World) : World :=
  match message_data (variant t) e_data with
  | Some data => pushToDataLayer t env (VStr "form_submit") (VObj data) w
  | None => w
  end.

(* --------------------------------------------------------------------- *)
(** ** Exit intent and visibility *)

(** [Math.round((Date.now() - navigationStart) / 1000)] *)
Definition time_on_page (env : Env) : Z :=
  ((Z.of_N (now_ms env) - Z.of_N (navigation_start env) + 500) / 1000)%Z.

Definition on_mouseleave (env : Env) (clientY : Z) (t : Tracker) (w : World) : Tracker * World :=
  if (clientY <=? 0)%Z && negb (exitTracked t)
  then (with_exitTracked true t,
        pushToDataLayer t env (VStr "exit_intent")
          (VObj (obj [("time_on_page", VNum (time_on_page env))])) w)
  else (t, w).

Definition on_visibilitychange (env : Env) (hidden : bool) (t : Tracker) (w : World) : World :=
  pushToDataLayer t env (VStr (if hidden then "page_hide" else "page_show")) VUndefined w.

(* --------------------------------------------------------------------- *)
(** ** What the specification asks of an envelope *)

Definition defined_at (e : gmap string JsValue) (k : string) : Prop :=
  ∃ v, e !! k = Some v ∧ v ≠ VUndefined.

(** [e] carries [o]: every property of [o] is in [e] with its value. *)
Definition carries (e : gmap string JsValue) (o : JsValue) : Prop :=
  own_props o ⊆ e.

Definition complete_envelope (t : Tracker) (e : gmap string JsValue) : Prop :=
  defined_at e "event" ∧ defined_at e "client_id" ∧ defined_at e "timestamp"
  ∧ carries e (tracking t) ∧ carries e (adInfo_object (adInfo t)).

Definition identity_keys : gset string := {["event"; "client_id"; "timestamp"]}.

(** [m1] and [m2] give the same value to every name that both define. *)
Definition agree (m1 m2 : gmap string JsValue) : Prop :=
  ∀ k v1 v2, m1 !! k = Some v1 → m2 !! k = Some v2 → v1 = v2.

(* --------------------------------------------------------------------- *)
(** ** A page for the examples *)

Definition example_page (q : list (string * string)) : Env :=
  {| script_data := Some {["tracking-key" := "acme"; "org" := "acme"]};
     cookie := "_ga=GA1.2.123456789.987654321; theme=dark";
     query := q;
     href := "https://example.test/landing";
     title := "Landing";
     referrer := "";
     random_token := "k3j9x";
     now_ms := 1700000000000;
     navigation_start := 1699999990000;
     now_iso := "2023-11-14T22:13:20.000Z" |}.

Definition example_env : Env :=
  example_page [("utm_source", "newsletter"); ("gclid", "g-42")].

Definition example_tracker (v : Variant) : Tracker :=
  {| variant := v;
     CONFIG := {| cfg_id := "acme"; cfg_env := "prod"; cfg_debug := false |};
     GA_CLIENT_ID := "123456789.987654321";
     tracking := tracking_object (readParams (query example_env));
     adInfo := {| ad_platform := "Google Ads"; ad_click_id_type := "gclid";
                  ad_click_id_value := VStr "g-42" |};
     seenScroll := ∅; scrollTimeout := false; formStarted := false;
     exitTracked := false |}.

Definition empty_world : World :=
  {| sessionStorage := ∅; localStorage := ∅; client_tracker_flag := false; dataLayer := [] |}.

(** A new window over a session storage that holds [snapshot] under
    [tracking_params]. *)
Definition world_with_snapshot (snapshot : string) : World :=
  set_sessionStorage (<["tracking_params" := snapshot]>) empty_world.

(** The names the normaliser can add. *)
Definition canonical_names : list string :=
  [ "firstName"; "first_name"; "lastName"; "last_name"; "email"; "lead_email";
    "mobile_no"; "mobileNo"; "phone"; "company"; "company_name"; "country";
    "message"; "comments"; "job_title"; "jobTitle"; "industry"; "business_type";
    "website"; "website_url"; "state"; "region"; "city"; "zip_code"; "postal_code";
    "gender"; "age"; "date_of_birth" ].

(* --------------------------------------------------------------------- *)
(** ** What the specification asks of the normaliser *)

(** The alias table as the specification words it: for each semantic
    group, the aliases in priority order and the canonical names that
    are populated. *)
Definition alias_groups : list (list string * list string) :=
  [ (["firstName"; "first_name"; "firstname"], ["firstName"; "first_name"]);
    (["lastName"; "last_name"; "lastname"], ["lastName"; "last_name"]);
    (["email"; "lead_email"; "email_address"; "user_email"], ["email"; "lead_email"]);
    (["mobile"; "mobileNo"; "mobile_no"; "phone"; "phone_number"; "phoneNumber"],
     ["mobile_no"; "mobileNo"; "phone"]);
    (["company"; "company_name"; "companyName"; "organization"], ["company"; "company_name"]);
    (["country"; "country_code"; "countryCode"], ["country"]);
    (["message"; "comments"; "description"; "notes"], ["message"; "comments"]);
    (["jobTitle"; "job_title"; "title"; "position"], ["job_title"; "jobTitle"]);
    (["industry"; "business_type"; "businessType"], ["industry"; "business_type"]);
    (["website"; "website_url"; "websiteUrl"; "url"], ["website"; "website_url"]);
    (["state"; "region"; "province"], ["state"; "region"]);
    (["city"; "town"], ["city"]);
    (["zip"; "zipcode"; "zip_code"; "postal_code"; "postalCode"], ["zip_code"; "postal_code"]);
    (["gender"; "sex"], ["gender"]) ].

(** The group the normaliser guards with
    [data.age || data.date_of_birth || data.dob || data.birthdate]. *)
Definition birth_group : list string * list string :=
  (["age"; "date_of_birth"; "dob"; "birthdate"], ["age"; "date_of_birth"]).

(** The value of the first alias that is present and not empty. *)
Fixpoint first_non_empty (data : gmap string JsValue) (aliases : list string) : option JsValue :=
  match aliases with
  | [] => None
  | a :: rest => if truthy (get data a) then Some (get data a) else first_non_empty data rest
  end.

(** What the specification asks of a group: with an alias present, every
    canonical name holds the first matching value; with none, the
    canonical names are as the input has them. *)
Definition group_law (data : gmap string JsValue) (g : list string * list string) : Prop :=
  match first_non_empty data g.1 with
  | Some v => ∀ c, c ∈ g.2 → normalizeFieldNames data !! c = Some v
  | None => ∀ c, c ∈ g.2 → normalizeFieldNames data !! c = data !! c
  end.

(* ===================================================================== *)
(** * A browser session: page loads and emit calls *)
(* ===================================================================== *)

(** [PageLoad] is a navigation inside the session: a new window, whose
    [dataLayer] may already hold entries of other scripts, in which the
    tracker script runs.  [Emit] is a call of [pushToDataLayer] on the
    current page, by one of the listeners or through the public API. *)
Inductive Action : Type :=
  | PageLoad (v : Variant) (env : Env) (existing : list (gmap string JsValue))
  | Emit (env : Env) (eventName eventData : JsValue).

Record Session : Type := {
  world : World;
  page : option Tracker;                     (* the tracker of the current page *)
  archive : list (gmap string JsValue)       (* the logs of the pages left behind *)
}.

Definition new_session (ls : gmap string string) : Session :=
  {| world := {| sessionStorage := ∅; localStorage := ls;
                 client_tracker_flag := false; dataLayer := [] |};
     page := None;
     archive := [] |}.

Definition step (s : Session) (a : Action) : Session :=
  match a with
  | PageLoad v env existing =>
      let w0 := {| sessionStorage := sessionStorage (world s);
                   localStorage := localStorage (world s);
                   client_tracker_flag := false;
                   dataLayer := existing |} in
      let '(w, c) := script v env w0 in
      {| world := w;
         page := match c with Normal (Some t) => Some t | _ => None end;
         archive := archive s ++ dataLayer (world s) |}
  | Emit env eventName eventData =>
      match page s with
      | Some t =>
          {| world := ClientTracker_push t env eventName eventData (world s);
             page := page s; archive := archive s |}
      | None => s
      end
  end.

Definition run (s : Session) (actions : list Action) : Session := foldl step s actions.

(** Everything appended to the event log in the session so far. *)
Definition session_log (s : Session) : list (gmap string JsValue) :=
  archive s ++ dataLayer (world s).

Definition is_event (name : string) (e : gmap string JsValue) : bool :=
  match e !! "event" with
  | Some (VStr s) => String.eqb s name
  | _ => false
  end.

Definition count_events (name : string) (log : list (gmap string JsValue)) : nat :=
  length (filter (λ e, is_event name e = true) log).

(** An emit call that itself produces an event named [session_start]:
    by its name, or by an [event] property of its data, which wins over
    the name. *)
Definition forges_session_start (eventName eventData : JsValue) : bool :=
  is_event "session_start" (spread {["event" := eventName]} eventData).

(** The actions around which the session-start guard is judged: other
    scripts have put no [session_start] in a page's log, and no emit
    call produces one. *)
Definition well_behaved (a : Action) : bool :=
  match a with
  | PageLoad _ _ existing => forallb (λ e, negb (is_event "session_start" e)) existing
  | Emit _ eventName eventData => negb (forges_session_start eventName eventData)
  end.

(** The snapshot in session storage is absent or one the tracker wrote. *)
Definition stored_ok (ss : gmap string string) : Prop :=
  ss !! "tracking_params" = None
  ∨ ∃ r, ss !! "tracking_params" = Some (JSON.stringify (tracking_entries r)).

(** What holds of a session once a page has loaded: the marker is set,
    the tracker of the page works on a record of its own making, and the
    log holds one [session_start]. *)
Definition session_started (s : Session) : Prop :=
  stored_ok (sessionStorage (world s))
  ∧ is_Some (getItem_truthy (sessionStorage (world s)) "session_started")
  ∧ (∀ t, page s = Some t → ∃ r, tracking t = tracking_object r)
  ∧ count_events "session_start" (session_log s) = 1%nat.

(* ===================================================================== *)
(** * Further definitions: the listeners over runs of events *)
(* ===================================================================== *)

(** ** Form start and exit intent *)

(** A focusin event with the page as it stands then. *)
Definition focus_step (st : Tracker * World) (ev : Env * option (option Form))
    : Tracker * World :=
  on_focusin ev.1 ev.2 st.1 st.2.

(** The first focus of a run that lands in a field of a form. *)
Fixpoint first_form (events : list (Env * option (option Form))) : option (Env * Form) :=
  match events with
  | [] => None
  | (env, Some (Some form)) :: _ => Some (env, form)
  | _ :: rest => first_form rest
  end.

Definition form_start_envelope (t : Tracker) (env : Env) (form : Form)
    : gmap string JsValue :=
  envelope t env (VStr "form_start")
    (VObj (obj [ ("form_name", VStr (form_name form));
                 ("form_id", VStr (form_id form));
                 ("form_action", VStr (form_action form)) ])).

(** A mouseleave event with the page as it stands then. *)
Definition leave_step (st : Tracker * World) (ev : Env * Z) : Tracker * World :=
  on_mouseleave ev.1 ev.2 st.1 st.2.

(** The first leave of a run through the top edge of the viewport. *)
Fixpoint first_exit (events : list (Env * Z)) : option Env :=
  match events with
  | [] => None
  | (env, clientY) :: rest => if (clientY <=? 0)%Z then Some env else first_exit rest
  end.

Definition exit_intent_envelope (t : Tracker) (env : Env) : gmap string JsValue :=
  envelope t env (VStr "exit_intent") (VObj (obj [("time_on_page", VNum (time_on_page env))])).

(** ** The effect of a listener on the window *)

(** [w'] is [w] with at most [n] entries appended to the log and nothing
    else changed. *)
Definition grows_by (n : nat) (w w' : World) : Prop :=
  sessionStorage w' = sessionStorage w
  ∧ localStorage w' = localStorage w
  ∧ client_tracker_flag w' = client_tracker_flag w
  ∧ ∃ new, dataLayer w' = dataLayer w ++ new ∧ (length new ≤ n)%nat.

(** ** Clicks *)

(** The click categories in the order the listener tests them: the
    attribute that marks the category, the event name, and the property
    that carries the attribute's value. *)
Definition click_categories : list (string * string * string) :=
  [ ("data-nav-item", "nav_click", "nav_item");
    ("data-cta-name", "cta_click", "cta_name");
    ("data-footer-link", "footer_click", "link_name");
    ("data-tab", "tab_click", "tab_name") ].

Definition click_category (el : Element) : option (string * string * string) :=
  List.find (λ c, hasAttribute el c.1.1) click_categories.

(** The text of a click event: at most 100 characters, not starting
    with white space. *)
Definition bounded_text (data : gmap string JsValue) : Prop :=
  ∃ txt, data !! "element_text" = Some (VStr txt)
         ∧ (String.length txt ≤ 100)%nat
         ∧ match txt with
           | EmptyString => True
           | String c _ => Str.is_space c = false
           end.

(** ** Scroll depth *)

(** The thresholds not in [seen] that some position of the run reaches,
    in the order of [scrollMarks]. *)
Definition reached_marks (seen : gset Z) (percents : list Percent) : list Z :=
  filter (λ mark, (mark ∉ seen) ∧ Exists (λ p, reaches p mark = true) percents) scrollMarks.

(** ** The names of an envelope *)

(** The names every envelope has before the event data is spread into
    it, for a tracker whose attribution is a record of [readParams]: the
    metadata, the attribution record and the ad classification. *)
Definition envelope_names (v : Variant) : list string :=
  [ "event"; "activity_type"; id_property v; "environment"; "ga_client_id"; "client_id";
    "page_url"; "page_title"; "page_referrer"; "timestamp";
    "utm_source"; "utm_medium"; "utm_campaign"; "utm_term"; "utm_content"; "utm_campaign_id";
    "fbclid"; "gclid"; "msclkid"; "li_fat_id";
    "ad_platform"; "ad_click_id_type"; "ad_click_id_value" ].

(** ** The normaliser as a table *)

(** [data.a1 || data.a2 || ...] *)
Definition chain (data : gmap string JsValue) (names : list string) : JsValue :=
  match names with
  | [] => VUndefined
  | a :: rest => foldl js_or (get data a) (get data <$> rest)
  end.

(** The assignments of [normalizeFieldNames], one row for each name it
    assigns: the names its guard reads and the names its value reads,
    both in the order of the [||] chain. *)
Definition assignments : list (string * (list string * list string)) :=
  let block names assigned := (λ c : string, (c, (names, names))) <$> assigned in
  let birth := ["age"; "date_of_birth"; "dob"; "birthdate"] in
  block ["firstName"; "first_name"; "firstname"] ["firstName"; "first_name"]
  ++ block ["lastName"; "last_name"; "lastname"] ["lastName"; "last_name"]
  ++ block ["email"; "lead_email"; "email_address"; "user_email"] ["email"; "lead_email"]
  ++ block ["mobile"; "mobileNo"; "mobile_no"; "phone"; "phone_number"; "phoneNumber"]
           ["mobile_no"; "mobileNo"; "phone"]
  ++ block ["company"; "company_name"; "companyName"; "organization"]
           ["company"; "company_name"]
  ++ block ["country"; "country_code"; "countryCode"] ["country"]
  ++ block ["message"; "comments"; "description"; "notes"] ["message"; "comments"]
  ++ block ["jobTitle"; "job_title"; "title"; "position"] ["job_title"; "jobTitle"]
  ++ block ["industry"; "business_type"; "businessType"] ["industry"; "business_type"]
  ++ block ["website"; "website_url"; "websiteUrl"; "url"] ["website"; "website_url"]
  ++ block ["state"; "region"; "province"] ["state"; "region"]
  ++ block ["city"; "town"] ["city"]
  ++ block ["zip"; "zipcode"; "zip_code"; "postal_code"; "postalCode"]
           ["zip_code"; "postal_code"]
  ++ block ["gender"; "sex"] ["gender"]
  ++ [ ("age", (birth, ["age"]));
       ("date_of_birth", (birth, ["date_of_birth"; "dob"; "birthdate"])) ].

Definition assignment (c : string) : option (list string * list string) :=
  snd <$> List.find (λ row, String.eqb c row.1) assignments.

(** What the assignments make of the name [k] of [data]. *)
Definition assigned (data : gmap string JsValue) (k : string) : option JsValue :=
  match assignment k with
  | Some (guard, value) =>
      if truthy (chain data guard) then Some (chain data value) else data !! k
  | None => data !! k
  end.

(* ===================================================================== *)
(** * Page loads *)
(* ===================================================================== *)

(** The tracker of a page loaded over the local storage [ls], when the
    attribution resolves to the record [r]. *)
Definition page_tracker (v : Variant) (env : Env) (ls : gmap string string) (r : Tracking)
    : Tracker :=
  {| variant := v;
     CONFIG := read_config v env;
     GA_CLIENT_ID := (getGAClientId (cookie env) (random_token env) (now_ms env) ls).1;
     tracking := tracking_object r;
     adInfo := classifyAdPlatform (own_props (tracking_object r));
     seenScroll := ∅; scrollTimeout := false; formStarted := false; exitTracked := false |}.

(** A page load whose URL has no recognised parameter with a value. *)
Definition without_parameters (a : Action) : bool :=
  match a with
  | PageLoad _ env _ => negb (hasAny (readParams (query env)))
  | Emit _ _ _ => true
  end.

Definition is_page_load (a : Action) : bool :=
  match a with PageLoad _ _ _ => true | Emit _ _ _ => false end.

(** An action that brings no event named [name] into the log by other
    means than the script's own: no entry of that name in the log a page
    load finds, no emit call that produces one. *)
Definition brings_no (name : string) (a : Action) : bool :=
  match a with
  | PageLoad _ _ existing => forallb (λ e, negb (is_event name e)) existing
  | Emit _ eventName eventData =>
      negb (is_event name (spread {["event" := eventName]} eventData))
  end.

(** A session in which the tracker alone has written the snapshot, and
    whose page, when there is one, works on a record of [readParams]. *)
Definition tracker_only (s : Session) : Prop :=
  stored_ok (sessionStorage (world s))
  ∧ ∀ t, page s = Some t → ∃ r, tracking t = tracking_object r.

(** The page of the examples for a browser without a GA cookie. *)
Definition example_page_no_ga (q : list (string * string)) : Env :=
  {| script_data := script_data (example_page q);
     cookie := "theme=dark";
     query := q;
     href := href (example_page q);
     title := title (example_page q);
     referrer := referrer (example_page q);
     random_token := random_token (example_page q);
     now_ms := now_ms (example_page q);
     navigation_start := navigation_start (example_page q);
     now_iso := now_iso (example_page q) |}.

(* ===================================================================== *)
(** * Cookie values *)
(* ===================================================================== *)

Fixpoint all_chars (P : ascii → bool) (s : string) : bool :=
  match s with
  | EmptyString => true
  | String c s' => P c && all_chars P s'
  end.

(** A character of a cookie value: no semicolon, no line terminator. *)
Definition value_char (c : ascii) : bool :=
  negb (Str.code c =? 59) && Cookie.is_dot c.

(** A character of one field of the GA cookie value: a value character
    other than the full stop. *)
Definition field_char (c : ascii) : bool :=
  negb (Ascii.eqb c ".") && value_char c.

(* ===================================================================== *)
(** * The CRM menu item *)
(* ===================================================================== *)

(** The script that follows the tracker in [client_tracker.js] adds a
    button to the sidebar of the CRM.  Of a button the script reads the
    class name; of the one it creates, the class name, the label and the
    address its click handler goes to are kept. *)
Record MenuButton : Type := {
  menu_className : string;
  menu_label : string;
  menu_href : option string
}.

(** What the script reads and writes: the window property
    [customCRMMenuInjected] ([VUndefined] when it is not defined), the
    path of the location, the buttons inside [nav.flex.flex-col] in
    document order ([None] when no element matches the selector), and
    whether the interval [checkSidebar] is running.  [appended] records
    the calls of [appendChild]. *)
Record CrmWindow : Type := {
  customCRMMenuInjected : JsValue;
  pathname : string;
  sidebar : option (list MenuButton);
  checkSidebar : bool;
  appended : list MenuButton
}.

Definition customReportsBtn (lastMenuItem : MenuButton) : MenuButton :=
  {| menu_className := menu_className lastMenuItem;
     menu_label := "GA4 Analytics Report";
     menu_href := Some "https://campaignmanagement.m.frappe.cloud/analytics" |}.

(** The first statement of the script: the flag is defined if it was
    not. *)
Definition define_flag (w : CrmWindow) : CrmWindow :=
  {| customCRMMenuInjected :=
       match customCRMMenuInjected w with
       | VUndefined => VBool false
       | v => v
       end;
     pathname := pathname w;
     sidebar := sidebar w;
     checkSidebar := checkSidebar w;
     appended := appended w |}.

(** [addCustomMenuItems] up to the callbacks it registers: on a path
    under [/crm] the interval is started. *)
Definition addCustomMenuItems (w : CrmWindow) : CrmWindow :=
  if negb (Str.startsWith (pathname w) "/crm") then w
  else
    {| customCRMMenuInjected := customCRMMenuInjected w;
       pathname := pathname w;
       sidebar := sidebar w;
       checkSidebar := true;
       appended := appended w |}.

(** The script, run when the document has been loaded (at once, or at
    [DOMContentLoaded]). *)
Definition menu_script (w : CrmWindow) : CrmWindow :=
  addCustomMenuItems (define_flag w).

(** One firing of the interval.  The button is appended to the parent
    of the last button found, which lies inside the sidebar: it then is
    the last button of the sidebar. *)
Definition checkSidebar_tick (w : CrmWindow) : CrmWindow :=
  if negb (checkSidebar w) then w
  else
    match sidebar w with
    | Some menuItems =>
        if negb (truthy (customCRMMenuInjected w)) then
          match last menuItems with
          | Some lastMenuItem =>
              {| customCRMMenuInjected := VBool true;
                 pathname := pathname w;
                 sidebar := Some (menuItems ++ [customReportsBtn lastMenuItem]);
                 checkSidebar := false;
                 appended := appended w ++ [customReportsBtn lastMenuItem] |}
          | None => w
          end
        else w
    | None => w
    end.

(** What happens to the window after the script has run: the interval
    fires, the timeout of 30 seconds clears it, or the application
    renders the sidebar anew. *)
Inductive MenuEvent : Type :=
  | Tick
  | ClearTimeout
  | Render (buttons : option (list MenuButton)).

Definition menu_step (w : CrmWindow) (ev : MenuEvent) : CrmWindow :=
  match ev with
  | Tick => checkSidebar_tick w
  | ClearTimeout =>
      {| customCRMMenuInjected := customCRMMenuInjected w; pathname := pathname w;
         sidebar := sidebar w; checkSidebar := false; appended := appended w |}
  | Render buttons =>
      {| customCRMMenuInjected := customCRMMenuInjected w; pathname := pathname w;
         sidebar := buttons; checkSidebar := checkSidebar w; appended := appended w |}
  end.

(** The first firing of the interval, in a run of events, that finds a
    sidebar with a button in it before the timeout clears the interval:
    the last button it finds. *)
Fixpoint first_sidebar (current : option (list MenuButton)) (events : list MenuEvent)
    : option MenuButton :=
  match events with
  | [] => None
  | Tick :: rest =>
      match current ≫= last with
      | Some lastMenuItem => Some lastMenuItem
      | None => first_sidebar current rest
      end
  | ClearTimeout :: _ => None
  | Render buttons :: rest => first_sidebar buttons rest
  end.

(* ===================================================================== *)
(** * Properties *)
(* ===================================================================== *)

(** ** Strings *)

#[local] Arguments String.append !_ _ : simpl nomatch.

Lemma append_assoc (a b c : string) : (a +:+ b) +:+ c = a +:+ (b +:+ c).
Proof. induction a as [|x a IH]; cbn; [done | by f_equal]. Qed.

Lemma length_append (a b : string) :
  String.length (a +:+ b) = (String.length a + String.length b)%nat.
Proof. induction a as [|x a IH]; cbn; [done | by f_equal]. Qed.

(** ** JSON: what [stringify] writes, [parse] reads back *)

Lemma parse_string_body_quote (s rest : string) :
  JSON.parse_string_body (JSON.quote_body s +:+ String Str.dquote rest) = JSON.POk s rest.
Proof.
  unfold Str.dquote.
  induction s as [|c s IH]; [done|].
  cbn [JSON.quote_body]. rewrite append_assoc.
  destruct c as [[] [] [] [] [] [] [] []];
    match goal with
    | |- context [JSON.quote_char ?c] =>
        let q := eval vm_compute in (JSON.quote_char c) in
        change (JSON.quote_char c) with q
    end;
    cbn -[JSON.quote_body]; rewrite IH; reflexivity.
Qed.

Lemma parse_value_quote (fuel : nat) (v rest : string) :
  JSON.parse_value (S fuel) (JSON.quote v +:+ rest) = JSON.POk (VStr v) rest.
Proof.
  unfold JSON.quote. cbn [String.append]. rewrite append_assoc. cbn [String.append].
  change (JSON.parse_value (S fuel) (String Str.dquote ?x))
    with (JSON.pr_map VStr (JSON.parse_string_body x)).
  by rewrite parse_string_body_quote.
Qed.

Lemma parse_key_quote (k rest : string) :
  JSON.parse_key (JSON.quote k +:+ String ":" rest) = JSON.POk k (JSON.skip_ws rest).
Proof.
  unfold JSON.quote. cbn [String.append]. rewrite append_assoc. cbn [String.append].
  unfold JSON.parse_key.
  change (negb (Str.code Str.dquote =? 34)) with false. cbv iota.
  by rewrite parse_string_body_quote.
Qed.

(** One member, then whatever follows it. *)
Lemma parse_members_step (fuel : nat) (m : gmap string JsValue) (k v rest : string) :
  JSON.parse_members (S (S fuel)) m (JSON.member (k, v) +:+ rest)
  = match JSON.after_item 125 rest with
    | Some (true, r) => JSON.parse_members (S fuel) (<[k := VStr v]> m) r
    | Some (false, r) => JSON.POk (VObj (<[k := VStr v]> m)) r
    | None => JSON.PErr
    end.
Proof.
  unfold JSON.member. cbn [fst snd]. rewrite !append_assoc. cbn [String.append].
  change (JSON.parse_members (S (S fuel)) m ?s)
    with (match JSON.parse_key s with
          | JSON.POk k r =>
              match JSON.parse_value (S fuel) r with
              | JSON.POk v r' =>
                  match JSON.after_item 125 r' with
                  | Some (true, r'') => JSON.parse_members (S fuel) (<[k := v]> m) r''
                  | Some (false, r'') => JSON.POk (VObj (<[k := v]> m)) r''
                  | None => JSON.PErr
                  end
              | JSON.PErr => JSON.PErr
              | JSON.PUnm => JSON.PUnm
              end
          | JSON.PErr => JSON.PErr
          | JSON.PUnm => JSON.PUnm
          end).
  rewrite parse_key_quote.
  assert (Hq : ∀ x, JSON.skip_ws (JSON.quote v +:+ x) = JSON.quote v +:+ x) by done.
  rewrite Hq, parse_value_quote. done.
Qed.

Lemma members_quote (kvs : list (string * string)) :
  kvs ≠ [] → ∃ s, JSON.members kvs = String Str.dquote s.
Proof.
  destruct kvs as [|kv [|kv' l]]; [done | | ]; intros _; cbn [JSON.members];
    unfold JSON.member, JSON.quote; cbn [String.append]; eauto.
Qed.

Lemma parse_members_members (kvs : list (string * string)) :
  ∀ (fuel : nat) (m : gmap string JsValue) (rest : string),
    kvs ≠ [] → (length kvs < fuel)%nat →
    JSON.parse_members fuel m (JSON.members kvs +:+ String "}" rest)
    = JSON.POk (VObj (foldl (λ m kv, <[kv.1 := kv.2]> m) m (prod_map id VStr <$> kvs))) rest.
Proof.
  induction kvs as [|[k v] [|kv' l] IH]; intros fuel m rest Hne Hfuel; [done | |].
  - destruct fuel as [|[|fuel]]; [simpl in Hfuel; lia ..|].
    cbn [JSON.members]. by rewrite parse_members_step.
  - destruct fuel as [|[|fuel]]; [simpl in Hfuel; lia ..|].
    change (JSON.members ((k, v) :: kv' :: l))
      with (JSON.member (k, v) +:+ "," +:+ JSON.members (kv' :: l)).
    rewrite !append_assoc, parse_members_step.
    destruct (members_quote (kv' :: l)) as [s Hs]; [done|].
    assert (Hitem : JSON.after_item 125 (("," +:+ JSON.members (kv' :: l)) +:+ String "}" rest)
                    = Some (true, JSON.members (kv' :: l) +:+ String "}" rest))
      by (rewrite Hs; reflexivity).
    rewrite <- append_assoc, Hitem.
    rewrite IH; [done | done | simpl in *; lia].
Qed.

Lemma length_stringify (kvs : list (string * string)) :
  (length kvs < String.length (JSON.stringify kvs))%nat.
Proof.
  unfold JSON.stringify. rewrite !length_append. cbn [String.length].
  induction kvs as [|kv [|kv' l] IH]; [simpl; lia | |].
  - cbn [JSON.members length]. lia.
  - change (JSON.members (kv :: kv' :: l))
      with (JSON.member kv +:+ "," +:+ JSON.members (kv' :: l)).
    rewrite !length_append. cbn [String.length length] in *. lia.
Qed.

(** A non-empty object of strings survives the round trip through its
    JSON text. *)
Lemma parse_stringify (kvs : list (string * string)) :
  kvs ≠ [] → JSON.parse (JSON.stringify kvs) = Normal (VObj (obj (prod_map id VStr <$> kvs))).
Proof.
  intros Hne. unfold JSON.parse.
  pose proof (length_stringify kvs) as Hlen.
  destruct (members_quote kvs Hne) as [s Hs].
  unfold JSON.stringify in *. cbn [String.append] in *.
  cbn [JSON.skip_ws]. change (JSON.is_ws "{") with false. cbv iota.
  change (JSON.parse_value (S ?n) (String "{" ?r))
    with (match JSON.skip_ws r with
          | EmptyString => JSON.PErr
          | String c' r' =>
              if Str.code c' =? 125 then JSON.POk (VObj ∅) r'
              else JSON.parse_members n ∅ (JSON.skip_ws r)
          end).
  assert (Hskip : JSON.skip_ws (JSON.members kvs +:+ "}") = JSON.members kvs +:+ "}")
    by (rewrite Hs; reflexivity).
  rewrite Hskip. rewrite Hs at 1. cbn [String.append].
  change (Str.code Str.dquote =? 125) with false. cbv iota.
  rewrite parse_members_members; [done | done | lia].
Qed.

Lemma parse_stringify_tracking (t : Tracking) :
  JSON.parse (JSON.stringify (tracking_entries t)) = Normal (tracking_object t).
Proof. by rewrite parse_stringify. Qed.

Lemma stringify_nonempty (kvs : list (string * string)) :
  Str.nonempty (JSON.stringify kvs) = true.
Proof. reflexivity. Qed.

(** ** Client identity *)

Lemma strip_prefix_Some (p s r : string) : Str.strip_prefix p s = Some r → s = p +:+ r.
Proof.
  revert s; induction p as [|a p IH]; intros [|b s]; cbn; try congruence.
  destruct (Ascii.eqb_spec a b) as [->|]; [|done].
  intros H. by rewrite (IH _ H).
Qed.

Lemma code_eqb (c : ascii) (n : N) :
  n < 256 → (Str.code c =? n) = Ascii.eqb (ascii_of_N n) c.
Proof.
  intros Hn. unfold Str.code.
  destruct (Ascii.eqb_spec (ascii_of_N n) c) as [<-|Hne].
  - rewrite N_ascii_embedding by done. apply N.eqb_refl.
  - apply N.eqb_neq. intros <-. by rewrite ascii_N_embedding in Hne.
Qed.

Lemma includes_cons (c : ascii) (s p : string) :
  Str.includes (String c s) p = false → Str.includes s p = false.
Proof. cbn. by intros [_ ?]%orb_false_elim. Qed.

Lemma includes_semicolon_head (c : ascii) (s : string) :
  Str.includes (String c s) ";" = false → (Str.code c =? 59) = false.
Proof.
  cbn. intros [H _]%orb_false_elim. rewrite code_eqb by done.
  unfold Str.startsWith in H. cbn [Str.strip_prefix] in H.
  change (ascii_of_N 59) with ";"%char. by destruct (Ascii.eqb ";" c).
Qed.

Lemma lazy_to_semicolon_None (s : string) :
  Str.includes s ";" = false → Cookie.lazy_to_semicolon s = None.
Proof.
  induction s as [|c s IH]; [done|]. intros H. cbn [Cookie.lazy_to_semicolon].
  rewrite (includes_semicolon_head _ _ H), (IH (includes_cons _ _ _ H)).
  by destruct (Cookie.is_dot c).
Qed.

Lemma group_then_semicolon_None (s : string) :
  Str.includes s ";" = false → Cookie.group_then_semicolon s = None.
Proof.
  destruct s as [|c s]; [done|]. intros H. cbn.
  rewrite (lazy_to_semicolon_None _ (includes_cons _ _ _ H)).
  by destruct (Cookie.is_dot c).
Qed.

Lemma includes_strip_prefix (p s r q : string) :
  Str.strip_prefix p s = Some r → Str.includes s q = false → Str.includes r q = false.
Proof.
  revert s; induction p as [|a p IH]; intros [|b s]; cbn [Str.strip_prefix]; try congruence.
  destruct (Ascii.eqb a b); [|done]. intros H1 H2. eauto using includes_cons.
Qed.

Lemma match_here_None (s : string) :
  Str.includes s ";" = false → Cookie.match_here s = None.
Proof.
  intros H. unfold Cookie.match_here.
  destruct (Str.strip_prefix "_ga=" s) as [r|] eqn:Hr; [|done].
  eauto using group_then_semicolon_None, includes_strip_prefix.
Qed.

(** Without a semicolon anywhere, the expression matches nowhere. *)
Lemma ga_match_no_semicolon (s : string) :
  Str.includes s ";" = false → Cookie.ga_match s = None.
Proof.
  induction s as [|c s IH]; intros H; cbn [Cookie.ga_match].
  - done.
  - rewrite (match_here_None _ H). eauto using includes_cons.
Qed.

(** An occurrence of [_ga=] cannot begin in [pre] and end in a following
    [_ga=]. *)
Lemma strip_prefix_no_straddle (pre w : string) :
  Str.startsWith pre "_ga=" = false →
  pre ≠ "" →
  Str.strip_prefix "_ga=" (pre +:+ "_ga=" +:+ w) = None.
Proof.
  unfold Str.startsWith.
  destruct pre as [|c0 [|c1 [|c2 [|c3 pre]]]]; [done | ..]; intros H _;
    cbn [Str.strip_prefix String.append] in *;
    repeat (match goal with
            | |- context [Ascii.eqb ?a ?b] => destruct (Ascii.eqb a b)
            end; try done).
Qed.

Lemma ga_match_last_entry (pre v : string) :
  Str.includes pre "_ga=" = false →
  Str.includes v ";" = false →
  Cookie.ga_match (pre +:+ "_ga=" +:+ v) = None.
Proof.
  intros Hpre Hv. induction pre as [|c pre IH].
  - apply ga_match_no_semicolon. exact Hv.
  - cbn in Hpre. apply orb_false_elim in Hpre as [Hhead Hpre].
    change (Cookie.ga_match (String c pre +:+ "_ga=" +:+ v))
      with (match Cookie.match_here (String c pre +:+ "_ga=" +:+ v) with
            | Some m => Some m
            | None => Cookie.ga_match (pre +:+ "_ga=" +:+ v)
            end).
    unfold Cookie.match_here. rewrite strip_prefix_no_straddle by done. auto.
Qed.

Lemma lazy_to_semicolon_Some (s v : string) :
  Cookie.lazy_to_semicolon s = Some v → ∃ post, s = v +:+ ";" +:+ post.
Proof.
  revert v; induction s as [|c s IH]; intros v; cbn [Cookie.lazy_to_semicolon]; [done|].
  rewrite code_eqb by done. change (ascii_of_N 59) with ";"%char.
  destruct (Ascii.eqb_spec ";" c) as [<-|_].
  - intros [= <-]. by exists s.
  - destruct (Cookie.is_dot c); [|done].
    destruct (Cookie.lazy_to_semicolon s) as [v'|]; [|done].
    intros [= <-]. destruct (IH _ eq_refl) as [post ->]. by exists post.
Qed.

Lemma ga_match_Some (cookie v : string) :
  Cookie.ga_match cookie = Some v →
  ∃ pre post, cookie = pre +:+ "_ga=" +:+ v +:+ ";" +:+ post ∧ v ≠ "".
Proof.
  induction cookie as [|c s IH]; cbn [Cookie.ga_match].
  - done.
  - destruct (Cookie.match_here (String c s)) as [v'|] eqn:Hhere.
    + intros [= ->]. unfold Cookie.match_here in Hhere.
      destruct (Str.strip_prefix "_ga=" (String c s)) as [r|] eqn:Hr; [|done].
      apply strip_prefix_Some in Hr. destruct r as [|x r]; [done|]. cbn in Hhere.
      destruct (Cookie.is_dot x); [|done].
      destruct (Cookie.lazy_to_semicolon r) as [v'|] eqn:Hlazy; [|done].
      injection Hhere as <-. apply lazy_to_semicolon_Some in Hlazy as [post ->].
      exists "", post. by rewrite Hr.
    + intros H. destruct (IH H) as (pre & post & -> & Hv).
      by exists (String c pre), post.
Qed.

(** C10, as amended — the analytics cookie is used only when the cookie
    string holds [_ga=] followed by a value that a semicolon ends; a
    [_ga] entry that is the last or only one, with no semicolon after
    it, is not matched, and, when no other [_ga=] stands before it in
    the cookie string, resolution falls through to the stored or freshly
    generated identifier although a well-formed cookie exists. *)
Theorem ga_cookie_needs_semicolon :
  (∀ (cookie id : string),
      ga_cookie_id cookie = Some id →
      ∃ pre v post, cookie = pre +:+ "_ga=" +:+ v +:+ ";" +:+ post ∧ v ≠ "")
  ∧ (∀ (pre v random : string) (now : N) (ls : gmap string string),
      Str.includes pre "_ga=" = false →
      Str.includes v ";" = false →
      getGAClientId (pre +:+ "_ga=" +:+ v) random now ls
      = match getItem_truthy ls "ga_client_id" with
        | Some cid => (cid, ls)
        | None =>
            let cid := "cid_" +:+ random +:+ pretty now in
            (cid, <["ga_client_id" := cid]> ls)
        end)
  ∧ ga_cookie_id "_ga=GA1.2.123456789.987654321" = None
  ∧ ga_cookie_id "_ga=GA1.2.123456789.987654321;" = Some "123456789.987654321".
Proof.
  split; [|split; [|split]].
  - intros cookie id. unfold ga_cookie_id.
    destruct (Cookie.ga_match cookie) as [v|] eqn:Hm; [|done].
    intros _. destruct (ga_match_Some _ _ Hm) as (pre & post & ? & ?). eauto.
  - intros pre v random now ls Hpre Hv. unfold getGAClientId, ga_cookie_id.
    by rewrite ga_match_last_entry.
  - reflexivity.
  - reflexivity.
Qed.

Lemma ga_cookie_needs_semicolon_witness :
  getGAClientId "theme=dark; _ga=GA1.2.123456789.987654321" "k3j9x" 1700000000000 ∅
  = ("cid_k3j9x1700000000000", {["ga_client_id" := "cid_k3j9x1700000000000"]}).
Proof.
  destruct ga_cookie_needs_semicolon as (_ & H & _).
  rewrite (H "theme=dark; " "GA1.2.123456789.987654321"); reflexivity.
Defined.

(** C10, counterexample — with another [_ga=] before it (here the end
    of the name of the cookie [my_ga]), a well-formed last [_ga] entry
    without a semicolon is not matched, yet resolution does not fall
    through: the value of the earlier cookie gives the identifier. *)
Lemma ga_cookie_earlier_entry_wins :
  getGAClientId "my_ga=GA1.2.123456789.987654321; _ga=GA1.1.5.6" "k3j9x" 1700000000000 ∅
  ≠ ("cid_k3j9x1700000000000", {["ga_client_id" := "cid_k3j9x1700000000000"]}).
Proof.
  assert (Hid : getGAClientId "my_ga=GA1.2.123456789.987654321; _ga=GA1.1.5.6" "k3j9x"
                  1700000000000 ∅
                = ("123456789.987654321", ∅)) by reflexivity.
  rewrite Hid. intros H. inversion H.
Qed.

Lemma getItem_truthy_insert (ls : gmap string string) (k v : string) :
  Str.nonempty v = true → getItem_truthy (<[k := v]> ls) k = Some v.
Proof. intros H. unfold getItem_truthy. by rewrite lookup_insert_eq, H. Qed.

(** C8 — identity resolution is idempotent: a second call against the
    cookie and the storage the first call left returns the same
    identifier and changes nothing, whatever the random source and the
    clock then give; and an identifier found in the cookie or in storage
    is returned without generating a new one. *)
Theorem getGAClientId_idempotent
    (cookie random random' : string) (now now' : N) (ls : gmap string string) :
  let first := getGAClientId cookie random now ls in
  getGAClientId cookie random' now' first.2 = first
  ∧ (∀ id, ga_cookie_id cookie = Some id → first = (id, ls))
  ∧ (∀ id, ga_cookie_id cookie = None → getItem_truthy ls "ga_client_id" = Some id →
           first = (id, ls)).
Proof.
  cbn zeta. unfold getGAClientId.
  destruct (ga_cookie_id cookie) as [id|] eqn:Hc.
  - repeat split; congruence.
  - destruct (getItem_truthy ls "ga_client_id") as [cid|] eqn:Hs; cbn [snd].
    + rewrite Hs. repeat split; congruence.
    + rewrite getItem_truthy_insert by done. repeat split; congruence.
Qed.

Lemma getGAClientId_idempotent_witness :
  getGAClientId "" "zz" 5 {["ga_client_id" := "cid_abc1"]}
  = ("cid_abc1", {["ga_client_id" := "cid_abc1"]}).
Proof.
  destruct (getGAClientId_idempotent "" "zz" "yy" 5 6 {["ga_client_id" := "cid_abc1"]})
    as (_ & _ & H).
  apply H; reflexivity.
Defined.

(** ** Attribution *)

Lemma hasAny_false (t : Tracking) : hasAny t = false → t = empty_tracking.
Proof.
  destruct t as [[] [] [] [] [] [] [] [] [] []]; cbn; intros H; try done;
    repeat (rewrite ?orb_true_r in H; cbn in H); done.
Qed.

Lemma param_absent (q : list (string * string)) (k : string) :
  k ∉ q.*1 → param q k = "".
Proof.
  intros H. unfold param.
  destruct (list_find (λ kv, kv.1 = k) q) as [[i [k' v]]|] eqn:Hf; [|done].
  apply list_find_Some in Hf as (Hi & Hk & _). cbn in Hk. subst k'.
  exfalso. apply H. apply list_elem_of_fmap. exists (k, v). split; [done|].
  by eapply list_elem_of_lookup_2.
Qed.

Lemma resolveTracking_fresh (q : list (string * string)) (ss : gmap string string) :
  hasAny (readParams q) = true →
  resolveTracking q ss
  = (<["tracking_params" := JSON.stringify (tracking_entries (readParams q))]> ss,
     Normal (tracking_object (readParams q))).
Proof. unfold resolveTracking. by intros ->. Qed.

Lemma resolveTracking_stored (q : list (string * string)) (ss : gmap string string)
    (r : Tracking) :
  hasAny (readParams q) = false →
  ss !! "tracking_params" = Some (JSON.stringify (tracking_entries r)) →
  resolveTracking q ss = (ss, Normal (tracking_object r)).
Proof.
  unfold resolveTracking, getItem_truthy. intros -> ->.
  by rewrite stringify_nonempty, parse_stringify_tracking.
Qed.

Lemma resolveTracking_absent (q : list (string * string)) (ss : gmap string string) :
  hasAny (readParams q) = false →
  ss !! "tracking_params" = None →
  resolveTracking q ss = (ss, Normal (tracking_object empty_tracking)).
Proof.
  unfold resolveTracking, getItem_truthy. intros Hany ->.
  by rewrite Hany, (hasAny_false _ Hany).
Qed.

Lemma hasAny_readParams (q : list (string * string)) :
  hasAny (readParams q) = true
  ↔ ∃ k, k ∈ recognised_parameters ∧ param q k ≠ "".
Proof.
  change (hasAny (readParams q))
    with (existsb (λ k, Str.nonempty (param q k)) recognised_parameters).
  rewrite existsb_exists. split.
  - intros (k & Hk%list_elem_of_In & Hne). exists k. split; [done|].
    by destruct (param q k).
  - intros (k & Hk%list_elem_of_In & Hne). exists k. split; [done|].
    by destruct (param q k).
Qed.

Lemma param_first (before after : list (string * string)) (k v : string) :
  k ∉ before.*1 → param (before ++ (k, v) :: after) k = v.
Proof.
  unfold param. induction before as [|[k' v'] before IH]; intros Hk.
  - cbn [app list_find fst]. by rewrite decide_True.
  - rewrite fmap_cons, not_elem_of_cons in Hk. destruct Hk as [Hne Hk].
    cbn [app list_find fst]. rewrite decide_False by done.
    specialize (IH Hk). by destruct (list_find _ (before ++ _)) as [[i [k1 v1]]|].
Qed.

Lemma readParams_fields (q : list (string * string)) (k : string) :
  k ∈ recognised_parameters →
  own_props (tracking_object (readParams q)) !! record_field k = Some (VStr (param q k)).
Proof.
  unfold recognised_parameters. intros Hk.
  repeat (apply elem_of_cons in Hk as [->|Hk]; [reflexivity|]).
  by apply elem_of_nil in Hk.
Qed.

(** C2 — attribution resolution: the record read from the query holds,
    for each recognised parameter, the value of its first occurrence in
    the query, and the empty string for a parameter absent from it.  A
    reading with at least one non-empty recognised parameter is stored
    in session storage and used as a whole, nothing of the old record
    kept; otherwise the record stored earlier is used when there is one,
    and the all-empty record when there is none. *)
Theorem resolveTracking_spec (q : list (string * string)) (ss : gmap string string) :
  (∀ k, k ∈ recognised_parameters →
        own_props (tracking_object (readParams q)) !! record_field k = Some (VStr (param q k)))
  ∧ (∀ k v before after,
        q = before ++ (k, v) :: after → k ∉ before.*1 → param q k = v)
  ∧ (∀ k, k ∉ q.*1 → param q k = "")
  ∧ (hasAny (readParams q) = true ↔ ∃ k, k ∈ recognised_parameters ∧ param q k ≠ "")
  ∧ (hasAny (readParams q) = true →
     resolveTracking q ss
     = (<["tracking_params" := JSON.stringify (tracking_entries (readParams q))]> ss,
        Normal (tracking_object (readParams q)))
     ∧ (∀ old, resolveTracking q (<["tracking_params" := old]> ss) = resolveTracking q ss))
  ∧ (hasAny (readParams q) = false →
     (∀ r, ss !! "tracking_params" = Some (JSON.stringify (tracking_entries r)) →
           resolveTracking q ss = (ss, Normal (tracking_object r)))
     ∧ (ss !! "tracking_params" = None →
           resolveTracking q ss = (ss, Normal (tracking_object empty_tracking)))).
Proof.
  split; [apply readParams_fields|].
  split; [intros k v before after -> Hk; by apply param_first|].
  split; [apply param_absent|].
  split; [apply hasAny_readParams|]. split; intros Hany.
  - split; [by apply resolveTracking_fresh|].
    intros old. rewrite !resolveTracking_fresh by done. by rewrite insert_insert_eq.
  - split; [intros r; by apply resolveTracking_stored | by apply resolveTracking_absent].
Qed.

Lemma resolveTracking_spec_witness :
  resolveTracking [("utm_source", "x"); ("page", "2"); ("gclid", "y"); ("gclid", "z")]
    {["tracking_params" := "stale"]}
  = (<["tracking_params" :=
         JSON.stringify
           [ ("utm_source", "x"); ("utm_medium", ""); ("utm_campaign", ""); ("utm_term", "");
             ("utm_content", ""); ("utm_campaign_id", ""); ("fbclid", ""); ("gclid", "y");
             ("msclkid", ""); ("li_fat_id", "") ]]> {["tracking_params" := "stale"]},
     Normal
       (tracking_object
          {| utm_source := "x"; utm_medium := ""; utm_campaign := ""; utm_term := "";
             utm_content := ""; utm_campaign_id := ""; fbclid := ""; gclid := "y";
             msclkid := ""; li_fat_id := "" |}))
  ∧ resolveTracking [("page", "2")]
      {["tracking_params" :=
          JSON.stringify (tracking_entries (readParams [("utm_source", "x"); ("gclid", "y")]))]}
    = ({["tracking_params" :=
          JSON.stringify (tracking_entries (readParams [("utm_source", "x"); ("gclid", "y")]))]},
       Normal (tracking_object (readParams [("utm_source", "x"); ("gclid", "y")]))).
Proof.
  split.
  - destruct (resolveTracking_spec
                [("utm_source", "x"); ("page", "2"); ("gclid", "y"); ("gclid", "z")]
                {["tracking_params" := "stale"]}) as (_ & _ & _ & _ & H & _).
    destruct (H eq_refl) as [H' _]. exact H'.
  - destruct (resolveTracking_spec [("page", "2")]
      {["tracking_params" :=
          JSON.stringify (tracking_entries (readParams [("utm_source", "x"); ("gclid", "y")]))]})
      as (_ & _ & _ & _ & _ & H).
    destruct (H eq_refl) as [H' _]. apply H'. reflexivity.
Defined.

(** Attribution persists over the pages of a session: after a page
    whose query has a recognised parameter, a page without one resolves
    to the record of the first. *)
Lemma attribution_persists (q1 q2 : list (string * string)) (ss : gmap string string) :
  hasAny (readParams q1) = true →
  hasAny (readParams q2) = false →
  resolveTracking q2 (resolveTracking q1 ss).1
  = ((resolveTracking q1 ss).1, Normal (tracking_object (readParams q1))).
Proof.
  intros H1 H2. rewrite (resolveTracking_fresh q1 ss H1). cbn [fst].
  apply resolveTracking_stored; [done | apply lookup_insert_eq].
Qed.

(** The classification as the specification words it: the first click
    identifier, in the order Facebook, Google, Microsoft, LinkedIn, that
    is not empty. *)
Lemma detectAds_object (m : gmap string JsValue) :
  detectAds (VObj m) = Normal (classifyAdPlatform m).
Proof.
  unfold detectAds, classifyAdPlatform, click_id_platforms, get_prop. cbn.
  repeat (match goal with |- context [truthy ?v] => destruct (truthy v) eqn:? end; cbn; try done).
Qed.

Lemma get_tracking_object (t : Tracking) :
  get (own_props (tracking_object t)) "fbclid" = VStr (fbclid t)
  ∧ get (own_props (tracking_object t)) "gclid" = VStr (gclid t)
  ∧ get (own_props (tracking_object t)) "msclkid" = VStr (msclkid t)
  ∧ get (own_props (tracking_object t)) "li_fat_id" = VStr (li_fat_id t).
Proof. by repeat split. Qed.

(** C3 — ad platform classification is the priority-ordered lookup over
    the click identifiers of the attribution record, Facebook before
    Google before Microsoft before LinkedIn: the first non-empty one
    gives the platform name, the identifier type and its value; with
    none present every field is empty; no record makes it fail; a query
    with both fbclid and gclid classifies as Facebook/Instagram. *)
Theorem detectAds_priority :
  (∀ record : gmap string JsValue, detectAds (VObj record) = Normal (classifyAdPlatform record))
  ∧ (∀ t : Tracking,
       detectAds (tracking_object t)
       = Normal
           (if Str.nonempty (fbclid t) then
              {| ad_platform := "Facebook/Instagram"; ad_click_id_type := "fbclid";
                 ad_click_id_value := VStr (fbclid t) |}
            else if Str.nonempty (gclid t) then
              {| ad_platform := "Google Ads"; ad_click_id_type := "gclid";
                 ad_click_id_value := VStr (gclid t) |}
            else if Str.nonempty (msclkid t) then
              {| ad_platform := "Microsoft Ads"; ad_click_id_type := "msclkid";
                 ad_click_id_value := VStr (msclkid t) |}
            else if Str.nonempty (li_fat_id t) then
              {| ad_platform := "LinkedIn Ads"; ad_click_id_type := "li_fat_id";
                 ad_click_id_value := VStr (li_fat_id t) |}
            else {| ad_platform := ""; ad_click_id_type := "";
                    ad_click_id_value := VStr "" |}))
  ∧ detectAds (tracking_object (readParams [("fbclid", "1"); ("gclid", "2")]))
    = Normal {| ad_platform := "Facebook/Instagram"; ad_click_id_type := "fbclid";
                ad_click_id_value := VStr "1" |}.
Proof.
  split; [exact detectAds_object | split; [|reflexivity]].
  intros t. destruct (get_tracking_object t) as (Hfb & Hg & Hms & Hli).
  unfold detectAds, get_prop, tracking_object in *. cbn [own_props] in *.
  rewrite Hfb, Hg, Hms, Hli. cbn.
  repeat (match goal with |- context [Str.nonempty ?s] => destruct (Str.nonempty s) end;
          cbn; try done).
Qed.

(** ** The envelope *)

Lemma metadata_identity (t : Tracker) (env : Env) (eventName : JsValue) :
  metadata t env eventName !! "event" = Some eventName
  ∧ metadata t env eventName !! "client_id" = Some (VStr (GA_CLIENT_ID t))
  ∧ metadata t env eventName !! "timestamp" = Some (VStr (now_iso env)).
Proof. destruct t as [[] ? ? ? ? ? ? ? ?]; by repeat split. Qed.

Lemma own_props_default (eventData : JsValue) :
  own_props (match eventData with VUndefined => VObj ∅ | _ => eventData end)
  = own_props eventData.
Proof. by destruct eventData. Qed.

Lemma envelope_unfold (t : Tracker) (env : Env) (eventName eventData : JsValue) :
  envelope t env eventName eventData
  = own_props eventData ∪ (own_props (adInfo_object (adInfo t))
      ∪ (own_props (tracking t) ∪ metadata t env eventName)).
Proof. unfold envelope, spread. by rewrite own_props_default. Qed.

Lemma identity_keys_elem (k : string) :
  k ∈ identity_keys ↔ k = "event" ∨ k = "client_id" ∨ k = "timestamp".
Proof. unfold identity_keys. set_solver. Qed.

Lemma adInfo_object_identity (a : AdInfo) (k : string) :
  k ∈ identity_keys → own_props (adInfo_object a) !! k = None.
Proof. intros [->|[->| ->]]%identity_keys_elem; reflexivity. Qed.

Lemma subseteq_union_agree (X Y Z : gmap string JsValue) :
  Y ⊆ X ∪ (Y ∪ Z) ↔ agree X Y.
Proof.
  rewrite map_subseteq_spec. split.
  - intros H k v1 v2 H1 H2. specialize (H k v2 H2).
    rewrite (lookup_union_Some_l _ _ _ _ H1) in H. congruence.
  - intros H k v Hk. destruct (X !! k) as [x|] eqn:HX.
    + rewrite (lookup_union_Some_l _ _ _ _ HX). f_equal. by eapply H.
    + rewrite lookup_union_r by done. by apply lookup_union_Some_l.
Qed.

Lemma agree_commute (m1 m2 : gmap string JsValue) : m1 ∪ m2 = m2 ∪ m1 → agree m1 m2.
Proof.
  intros H k v1 v2 H1 H2.
  pose proof (lookup_union_Some_l m1 m2 _ _ H1) as H1'.
  pose proof (lookup_union_Some_l m2 m1 _ _ H2) as H2'.
  rewrite H in H1'. congruence.
Qed.

(** The envelope is complete exactly when the first of event data,
    attribution record and metadata that defines an identity field gives
    it a value other than undefined, and event data and ad
    classification agree with the attribution record, and the event data
    with the ad classification, wherever both define a name. *)
Lemma complete_envelope_iff (t : Tracker) (env : Env) (eventName eventData : JsValue) :
  complete_envelope t (envelope t env eventName eventData)
  ↔ (∀ k, k ∈ identity_keys →
          defined_at (own_props eventData ∪ (own_props (tracking t) ∪ metadata t env eventName)) k)
    ∧ agree (own_props eventData ∪ own_props (adInfo_object (adInfo t))) (own_props (tracking t))
    ∧ agree (own_props eventData) (own_props (adInfo_object (adInfo t))).
Proof.
  rewrite envelope_unfold. unfold complete_envelope, carries.
  set (D := own_props eventData). set (A := own_props (adInfo_object (adInfo t))).
  set (T := own_props (tracking t)). set (M := metadata t env eventName).
  assert (Hid : ∀ k, k ∈ identity_keys → (D ∪ (A ∪ (T ∪ M))) !! k = (D ∪ (T ∪ M)) !! k).
  { intros k Hk. destruct (D !! k) as [x|] eqn:HD.
    - by rewrite !(lookup_union_Some_l _ _ _ _ HD).
    - rewrite !(lookup_union_r D) by done.
      apply lookup_union_r. by apply adInfo_object_identity. }
  rewrite <- (subseteq_union_agree D A (T ∪ M)).
  rewrite <- (subseteq_union_agree (D ∪ A) T M).
  rewrite <- (assoc_L (∪) D A (T ∪ M)).
  unfold defined_at. split.
  - intros (Hev & Hcid & Hts & HT & HA). split; [|done].
    intros k [ -> | [ -> | -> ] ]%identity_keys_elem; rewrite <- Hid by (by apply identity_keys_elem; auto);
      done.
  - intros (Hidentity & HT & HA).
    repeat split; try done;
      rewrite Hid by (apply identity_keys_elem; auto);
      apply Hidentity, identity_keys_elem; auto.
Qed.

Lemma record_not_classified (r : Tracking) (a : AdInfo) (k : string) :
  is_Some (own_props (tracking_object r) !! k) → own_props (adInfo_object a) !! k = None.
Proof.
  unfold tracking_object, own_props, obj, tracking_entries.
  cbn [fmap list_fmap foldl prod_map fst snd id]. intros H.
  repeat (apply lookup_insert_is_Some in H as [<-|[_ H]]; [reflexivity|]).
  by rewrite lookup_empty in H; destruct H.
Qed.

(** C4, as amended — the envelope of every emitted event is the fixed
    metadata overlaid with the attribution record, then the ad
    classification, then the event data, the event data winning on
    every name it defines.  So the envelope has non-undefined event,
    client_id and timestamp and carries the whole attribution record
    and ad classification of the moment exactly when no identity field
    ends up undefined and the event data gives every name of the
    attribution record and of the ad classification that it defines the
    value that record or classification has.  For a tracker that works
    on a record it read itself: exactly when the event data sets none of
    event, client_id and timestamp to undefined (the event name not
    being undefined when the data leaves event alone) and agrees with
    the record and with the classification on the names it shares with
    them. *)
Theorem envelope_complete (t : Tracker) (env : Env) (eventName eventData : JsValue) :
  (∀ k v, own_props eventData !! k = Some v →
          envelope t env eventName eventData !! k = Some v)
  ∧ (complete_envelope t (envelope t env eventName eventData)
     ↔ (∀ k, k ∈ identity_keys →
             defined_at
               (own_props eventData ∪ (own_props (tracking t) ∪ metadata t env eventName)) k)
       ∧ agree (own_props eventData ∪ own_props (adInfo_object (adInfo t)))
               (own_props (tracking t))
       ∧ agree (own_props eventData) (own_props (adInfo_object (adInfo t))))
  ∧ (∀ r, tracking t = tracking_object r →
       (complete_envelope t (envelope t env eventName eventData)
        ↔ match own_props eventData !! "event" with
          | Some v => v ≠ VUndefined
          | None => eventName ≠ VUndefined
          end
          ∧ own_props eventData !! "client_id" ≠ Some VUndefined
          ∧ own_props eventData !! "timestamp" ≠ Some VUndefined
          ∧ agree (own_props eventData) (own_props (tracking t))
          ∧ agree (own_props eventData) (own_props (adInfo_object (adInfo t))))).
Proof.
  split; [|split; [apply complete_envelope_iff|]].
  - rewrite envelope_unfold. intros k v Hk. by apply lookup_union_Some_l.
  - intros r Hr. rewrite complete_envelope_iff, Hr.
    set (D := own_props eventData). set (A := own_props (adInfo_object (adInfo t))).
    set (T := own_props (tracking_object r)).
    destruct (metadata_identity t env eventName) as (Hev & Hcid & Hts).
    assert (Hfield : ∀ k x, T !! k = None → metadata t env eventName !! k = Some x →
              (defined_at (D ∪ (T ∪ metadata t env eventName)) k
               ↔ match D !! k with Some v => v ≠ VUndefined | None => x ≠ VUndefined end)).
    { intros k x HT HM. unfold defined_at. destruct (D !! k) as [v|] eqn:HD.
      - rewrite (lookup_union_Some_l _ _ _ _ HD). split; [by intros (? & [= <-] & ?) | eauto].
      - rewrite lookup_union_r, lookup_union_r, HM by done.
        split; [by intros (? & [= <-] & ?) | eauto]. }
    assert (Hagree : agree (D ∪ A) T ↔ agree D T).
    { split.
      - intros H k v1 v2 H1 H2. eapply H; [by apply lookup_union_Some_l | done].
      - intros H k v1 v2 H1 H2. destruct (D !! k) as [x|] eqn:HD.
        + rewrite (lookup_union_Some_l _ _ _ _ HD) in H1. injection H1 as <-. by eapply H.
        + rewrite lookup_union_r in H1 by done. unfold A in H1.
          by rewrite (record_not_classified r (adInfo t) k) in H1 by (unfold T in H2; eauto). }
    rewrite Hagree. split.
    + intros (Hidentity & HT & HA).
      assert (Hin : ∀ k, k = "event" ∨ k = "client_id" ∨ k = "timestamp" → k ∈ identity_keys)
        by (intros k; apply identity_keys_elem).
      pose proof (Hidentity "event" (Hin _ ltac:(auto))) as H1.
      pose proof (Hidentity "client_id" (Hin _ ltac:(auto))) as H2.
      pose proof (Hidentity "timestamp" (Hin _ ltac:(auto))) as H3.
      apply (Hfield "event" eventName) in H1; [|reflexivity|exact Hev].
      apply (Hfield "client_id" (VStr (GA_CLIENT_ID t))) in H2; [|reflexivity|exact Hcid].
      apply (Hfield "timestamp" (VStr (now_iso env))) in H3; [|reflexivity|exact Hts].
      repeat split; try done.
      * intros HD. by rewrite HD in H2.
      * intros HD. by rewrite HD in H3.
    + intros (H1 & H2 & H3 & HT & HA). split; [|done].
      intros k [ -> | [ -> | -> ] ]%identity_keys_elem.
      * by apply (Hfield "event" eventName).
      * apply (Hfield "client_id" (VStr (GA_CLIENT_ID t))); [reflexivity|exact Hcid|].
        destruct (D !! "client_id"); [congruence|done].
      * apply (Hfield "timestamp" (VStr (now_iso env))); [reflexivity|exact Hts|].
        destruct (D !! "timestamp"); [congruence|done].
Qed.

(** The tracker of the examples is the one the script builds on the
    example page. *)
Lemma example_tracker_reachable (v : Variant) :
  (script v example_env empty_world).2 = Normal (Some (example_tracker v)).
Proof. destruct v; reflexivity. Qed.

Lemma envelope_complete_witness :
  ∃ data,
    message_data KeyTracker
      (VObj {["event" := VStr "form_submit"; "email" := VStr "a@example.test";
              "utm_source" := VStr "newsletter"]}) = Some data
    ∧ complete_envelope (example_tracker KeyTracker)
        (envelope (example_tracker KeyTracker) example_env (VStr "form_submit") (VObj data)).
Proof.
  eexists. split; [reflexivity|].
  match goal with
  | |- complete_envelope ?t (envelope ?t ?env ?n ?d) =>
      destruct (envelope_complete t env n d) as (_ & _ & H)
  end.
  apply (H (readParams (query example_env)) eq_refl).
  split; [vm_compute; discriminate|].
  split; [vm_compute; discriminate|].
  split; [vm_compute; discriminate|].
  split; apply agree_commute; vm_compute; reflexivity.
Defined.

(** C4, counterexample — a custom event pushed with the event data
    [{client_id: undefined}] yields an envelope whose [client_id] is
    undefined. *)
Lemma envelope_undefined_client_id :
  ¬ complete_envelope (example_tracker KeyTracker)
      (envelope (example_tracker KeyTracker) example_env (VStr "signup")
         (VObj {["client_id" := VUndefined]})).
Proof.
  intros (_ & (v & Hv & Hne) & _). vm_compute in Hv. congruence.
Qed.

(** ** Scroll depth *)

Lemma with_seenScroll_twice (s s' : gset Z) (t : Tracker) :
  with_seenScroll s (with_seenScroll s' t) = with_seenScroll s t.
Proof. reflexivity. Qed.

Lemma with_seenScroll_id (t : Tracker) : with_seenScroll (seenScroll t) t = t.
Proof. by destruct t. Qed.

Lemma set_dataLayer_twice (f g : list (gmap string JsValue) → list (gmap string JsValue))
    (w : World) :
  set_dataLayer f (set_dataLayer g w) = set_dataLayer (f ∘ g) w.
Proof. reflexivity. Qed.

Lemma set_dataLayer_ext (f g : list (gmap string JsValue) → list (gmap string JsValue))
    (w : World) :
  f (dataLayer w) = g (dataLayer w) → set_dataLayer f w = set_dataLayer g w.
Proof. unfold set_dataLayer. by intros ->. Qed.

Lemma filter_ext_elem_of {A} (P1 P2 : A → Prop)
    `{!∀ x, Decision (P1 x), !∀ x, Decision (P2 x)} (l : list A) :
  (∀ x, x ∈ l → P1 x ↔ P2 x) → filter P1 l = filter P2 l.
Proof.
  induction l as [|a l IH]; intros Hiff; [done|].
  rewrite !filter_cons, IH by (intros x Hx; apply Hiff; by right).
  pose proof (Hiff a (list_elem_of_here a l)) as Ha.
  destruct (decide (P1 a)), (decide (P2 a)); tauto || done.
Qed.

Section ScrollDepth.

Variable env : Env.

(** What the loop over the marks does, for any prefix already handled. *)
Lemma scroll_marks_fold (percent : Percent) (marks : list Z) :
  ∀ (t : Tracker) (w : World),
    NoDup marks →
    let new := filter (λ mark, reaches percent mark = true ∧ mark ∉ seenScroll t) marks in
    foldl (scroll_mark env percent) (t, w) marks
    = (with_seenScroll (list_to_set new ∪ seenScroll t) t,
       set_dataLayer (λ log, log ++ (scroll_depth_envelope t env <$> new)) w).
Proof.
  induction marks as [|mark marks IH]; intros t w Hnd; cbn zeta.
  - cbn [foldl filter list_to_set fmap list_fmap]. rewrite filter_nil.
    cbn [list_to_set fmap list_fmap]. rewrite (left_id_L ∅ (∪)), with_seenScroll_id.
    f_equal. destruct w. unfold set_dataLayer. cbn. by rewrite app_nil_r.
  - apply NoDup_cons in Hnd as [Hnotin Hnd].
    cbn [foldl]. unfold scroll_mark at 2. rewrite filter_cons.
    destruct (reaches percent mark) eqn:Hr; cbn [andb].
    + destruct (decide (mark ∈ seenScroll t)) as [Hin|Hout].
      * rewrite bool_decide_true by done. cbn [negb].
        rewrite decide_False by tauto. apply IH, Hnd.
      * rewrite bool_decide_false by done. cbn [negb].
        rewrite decide_True by tauto.
        rewrite IH by done. cbn [seenScroll with_seenScroll].
        assert (Hfilter :
          filter (λ m, reaches percent m = true ∧ m ∉ {[mark]} ∪ seenScroll t) marks
          = filter (λ m, reaches percent m = true ∧ m ∉ seenScroll t) marks).
        { apply filter_ext_elem_of. intros m Hm. set_solver. }
        unfold pushToDataLayer.
        rewrite Hfilter, with_seenScroll_twice, set_dataLayer_twice.
        f_equal.
        -- f_equal. cbn [list_to_set]. set_solver.
        -- apply set_dataLayer_ext. cbn. by rewrite <- app_assoc.
    + rewrite decide_False by (intros [? _]; done). apply IH, Hnd.
Qed.

(** A run of scroll positions appends the envelopes of [fired]. *)
Lemma scroll_to_fired (percents : list Percent) :
  ∀ (t : Tracker) (w : World),
    dataLayer (foldl (scroll_to env) (t, w) percents).2
    = dataLayer w ++ (scroll_depth_envelope t env <$> fired (seenScroll t) percents).
Proof.
  induction percents as [|p ps IH]; intros t w; cbn [foldl fired].
  - cbn. by rewrite app_nil_r.
  - unfold scroll_to at 2, on_scroll_timer, on_scroll. cbn [fst snd scrollTimeout with_scrollTimeout].
    rewrite scroll_marks_fold by (unfold scrollMarks; repeat constructor; set_solver).
    rewrite IH. cbn [seenScroll with_seenScroll with_scrollTimeout dataLayer set_dataLayer].
    rewrite fmap_app, app_assoc. done.
Qed.

End ScrollDepth.

(** Over any run of scroll positions in one page load, no threshold is
    fired twice, and none that was fired before the run. *)
Lemma fired_once (percents : list Percent) :
  ∀ seen : gset Z,
    NoDup (fired seen percents)
    ∧ ∀ mark, mark ∈ fired seen percents → mark ∈ scrollMarks ∧ mark ∉ seen.
Proof.
  induction percents as [|p ps IH]; intros seen; cbn [fired].
  - split; [constructor | set_solver].
  - set (new := filter (λ mark, reaches p mark = true ∧ mark ∉ seen) scrollMarks).
    destruct (IH (list_to_set new ∪ seen)) as [Hnd Hin].
    assert (Hnew : ∀ m, m ∈ new → m ∈ scrollMarks ∧ m ∉ seen).
    { intros m Hm. apply list_elem_of_filter in Hm. tauto. }
    split.
    + apply NoDup_app. split; [|split; [|done]].
      * apply NoDup_filter. unfold scrollMarks. repeat constructor; set_solver.
      * intros m Hm Hm'. apply Hin in Hm' as [_ Hm']. set_solver.
    + intros m [Hm|Hm]%elem_of_app; [auto|].
      apply Hin in Hm as [? ?]. set_solver.
Qed.

(** C5, as amended — the scroll positions 30 %, 60 %, back to 40 %, then
    95 % within one page load emit exactly four scroll_depth events, one
    for each of the thresholds 25, 50, 75 and 90, in ascending order and
    none twice. *)
Theorem scroll_depth_sequence (t : Tracker) (env : Env) (w : World) :
  seenScroll t = ∅ →
  dataLayer (foldl (scroll_to env) (t, w) [Finite 30; Finite 60; Finite 40; Finite 95]).2
  = dataLayer w ++ (scroll_depth_envelope t env <$> [25; 50; 75; 90]%Z).
Proof.
  intros Hseen. rewrite scroll_to_fired, Hseen. f_equal. 
Qed.

Lemma scroll_depth_sequence_witness :
  dataLayer
    (foldl (scroll_to example_env) (example_tracker KeyTracker, empty_world)
       [Finite 30; Finite 60; Finite 40; Finite 95]).2
  = scroll_depth_envelope (example_tracker KeyTracker) example_env <$> [25; 50; 75; 90]%Z.
Proof.
  apply (scroll_depth_sequence (example_tracker KeyTracker) example_env empty_world).
  reflexivity.
Defined.

(** C5, counterexample — the run 30 %, 60 %, 40 %, 95 % does not emit
    two scroll_depth events: it emits four. *)
Lemma scroll_depth_not_two :
  count_events "scroll_depth"
    (dataLayer
       (foldl (scroll_to example_env) (example_tracker KeyTracker, empty_world)
          [Finite 30; Finite 60; Finite 40; Finite 95]).2) ≠ 2%nat.
Proof. vm_compute. discriminate. Qed.

(** Over any run of scroll positions in one page load, the events
    appended are those of [fired]: no threshold twice, each one a mark
    of [scrollMarks]. *)
Lemma scroll_marks_fire_once (t : Tracker) (env : Env) (w : World) (percents : list Percent) :
  seenScroll t = ∅ →
  ∃ marks,
    dataLayer (foldl (scroll_to env) (t, w) percents).2
    = dataLayer w ++ (scroll_depth_envelope t env <$> marks)
    ∧ NoDup marks ∧ ∀ mark, mark ∈ marks → mark ∈ scrollMarks.
Proof.
  intros Hseen. exists (fired ∅ percents). rewrite scroll_to_fired, Hseen.
  destruct (fired_once percents ∅) as [Hnd Hin]. split; [done|]. split; [done|].
  intros mark Hm. by apply Hin.
Qed.

(** ** Field-name normalisation *)

(** A chain [a || b || ...] is truthy exactly when an operand is, and is
    then the first truthy operand. *)
Lemma first_non_empty_chain (data : gmap string JsValue) (a : string) (rest : list string) :
  first_non_empty data (a :: rest)
  = let v := foldl js_or (get data a) (get data <$> rest) in
    if truthy v then Some v else None.
Proof.
  cbn zeta. cbn [first_non_empty].
  generalize (get data a) as v. induction rest as [|b rest IH]; intros v; cbn.
  - done.
  - rewrite <- IH. unfold js_or. by destruct (truthy v) eqn:Hv; rewrite ?Hv.
Qed.

Lemma lookup_set_same (m : gmap string JsValue) (k : string) (v : JsValue) :
  <[k := v]> m !! k = Some v.
Proof. apply lookup_insert_eq. Qed.

Lemma lookup_set_other (m : gmap string JsValue) (k k' : string) (v : JsValue) :
  String.eqb k k' = false → <[k := v]> m !! k' = m !! k'.
Proof. intros H. apply lookup_insert_ne. by apply String.eqb_neq. Qed.

Lemma lookup_js_if_skip (c : JsValue) (body : gmap string JsValue → gmap string JsValue)
    (n : gmap string JsValue) (k : string) :
  body n !! k = n !! k → js_if c body n !! k = n !! k.
Proof. unfold js_if. by destruct (truthy c). Qed.

Lemma lookup_js_if_hit (c v : JsValue) (body : gmap string JsValue → gmap string JsValue)
    (n : gmap string JsValue) (k : string) :
  body n !! k = Some v → js_if c body n !! k = if truthy c then Some v else n !! k.
Proof. unfold js_if. by destruct (truthy c). Qed.

Lemma truthy_js_or (a b : JsValue) : truthy (a ||| b) = truthy a || truthy b.
Proof. unfold js_or. by destruct (truthy a) eqn:Ha; rewrite ?Ha. Qed.

Ltac lookup_sets :=
  cbv beta;
  repeat first [ rewrite lookup_set_same | rewrite lookup_set_other by reflexivity ];
  reflexivity.

(** Name the guard of every block, so that the rewriting below works on
    a small term. *)
Ltac name_conditions :=
  repeat match goal with
         | |- context [js_if ?c _ _] =>
             tryif is_var c then fail else (let x := fresh "cond" in set (x := c))
         end.

(** Reads a canonical name off the normalised object: the blocks that do
    not assign it are skipped, the one that does decides. *)
Ltac normalized_lookup :=
  unfold normalizeFieldNames; cbv zeta; name_conditions;
  repeat first [ rewrite lookup_js_if_skip by lookup_sets
               | erewrite lookup_js_if_hit by lookup_sets ];
  repeat match goal with x := _ : JsValue |- _ => subst x end.

Ltac elem_of_cases H :=
  repeat (apply elem_of_cons in H as [->|H]); [.. | by apply elem_of_nil in H].

Lemma group_law_intro (data : gmap string JsValue) (g : list string * list string) :
  (∀ c, c ∈ g.2 →
     normalizeFieldNames data !! c
     = match first_non_empty data g.1 with Some v => Some v | None => data !! c end) →
  group_law data g.
Proof. unfold group_law. by destruct (first_non_empty data g.1). Qed.

(** C6, as amended — for every input mapping and every alias group but
    the one of age and birth date: when an alias of the group is present
    and non-empty, every canonical name of the group holds the first
    matching alias value in the group's priority order (so first_name
    populates both firstName and first_name); when none is, the group
    adds nothing.  For age and birth date: when one of age,
    date_of_birth, dob and birthdate is present and non-empty,
    date_of_birth holds the first non-empty of date_of_birth, dob and
    birthdate, and age holds the age of the input and nothing else
    (undefined when the input has no age): it is not populated from the
    birth-date aliases; when none is, both are left as they are. *)
Theorem normalizeFieldNames_groups (data : gmap string JsValue) :
  (∀ g, g ∈ alias_groups → group_law data g)
  ∧ (∀ v, first_non_empty data ["date_of_birth"; "dob"; "birthdate"] = Some v →
          normalizeFieldNames data !! "date_of_birth" = Some v)
  ∧ match first_non_empty data ["age"; "date_of_birth"; "dob"; "birthdate"] with
    | Some _ =>
        normalizeFieldNames data !! "age" = Some (get data "age")
        ∧ normalizeFieldNames data !! "date_of_birth"
          = Some (get data "date_of_birth" ||| get data "dob" ||| get data "birthdate")
    | None =>
        normalizeFieldNames data !! "age" = data !! "age"
        ∧ normalizeFieldNames data !! "date_of_birth" = data !! "date_of_birth"
    end
  ∧ normalizeFieldNames {["first_name" := VStr "Jo"]} !! "firstName" = Some (VStr "Jo")
  ∧ normalizeFieldNames {["first_name" := VStr "Jo"]} !! "first_name" = Some (VStr "Jo").
Proof.
  split; [|split; [|split; [|split; reflexivity]]].
  - apply Forall_forall. unfold alias_groups.
    repeat constructor; apply group_law_intro; cbn [fst snd];
      rewrite first_non_empty_chain; cbn zeta; cbn [foldl fmap list_fmap];
      intros c Hc; elem_of_cases Hc; normalized_lookup;
      match goal with |- context [truthy ?v] => by destruct (truthy v) end.
  - intros v. rewrite first_non_empty_chain. cbn zeta. cbn [foldl fmap list_fmap].
    destruct (truthy (get data "date_of_birth" ||| get data "dob" ||| get data "birthdate"))
      eqn:Hv; [|done].
    intros [= <-]. normalized_lookup.
    rewrite !truthy_js_or in *. rewrite <- !orb_assoc in *. by rewrite Hv, orb_true_r.
  - rewrite first_non_empty_chain. cbn zeta. cbn [foldl fmap list_fmap].
    destruct (truthy (get data "age" ||| get data "date_of_birth" ||| get data "dob"
                      ||| get data "birthdate")) eqn:Hguard;
      split; normalized_lookup; by rewrite Hguard.
Qed.

Lemma normalizeFieldNames_groups_witness :
  normalizeFieldNames {["phone_number" := VStr "555-0100"; "town" := VStr "Leeds"]} !! "mobileNo"
  = Some (VStr "555-0100")
  ∧ normalizeFieldNames {["dob" := VStr "1990-05-17"]} !! "date_of_birth"
    = Some (VStr "1990-05-17")
  ∧ normalizeFieldNames {["dob" := VStr "1990-05-17"]} !! "age" = Some VUndefined.
Proof.
  split; [|split].
  - destruct (normalizeFieldNames_groups
                {["phone_number" := VStr "555-0100"; "town" := VStr "Leeds"]}) as [H _].
    apply (H (["mobile"; "mobileNo"; "mobile_no"; "phone"; "phone_number"; "phoneNumber"],
              ["mobile_no"; "mobileNo"; "phone"]) ltac:(unfold alias_groups; do 3 right; left)
             "mobileNo" ltac:(right; left)).
  - destruct (normalizeFieldNames_groups {["dob" := VStr "1990-05-17"]}) as (_ & H & _).
    apply H. reflexivity.
  - destruct (normalizeFieldNames_groups {["dob" := VStr "1990-05-17"]}) as (_ & _ & H & _).
    exact (proj1 H).
Defined.

(** C6, counterexample — with only [dob] present, the group guarded by
    age, date_of_birth, dob and birthdate has a matching alias, yet its
    canonical name [age] does not hold that value: it is set to
    [undefined]. *)
Lemma normalizeFieldNames_age_not_populated :
  ¬ group_law {["dob" := VStr "1990-05-17"]} birth_group.
Proof.
  unfold group_law. cbn. intros H.
  specialize (H "age" ltac:(left)). vm_compute in H. congruence.
Qed.

(** ** The session-start guard *)

Lemma count_events_app (name : string) (l1 l2 : list (gmap string JsValue)) :
  count_events name (l1 ++ l2) = (count_events name l1 + count_events name l2)%nat.
Proof. unfold count_events. by rewrite filter_app, length_app. Qed.

Lemma count_events_none (name : string) (l : list (gmap string JsValue)) :
  forallb (λ e, negb (is_event name e)) l = true → count_events name l = 0%nat.
Proof.
  unfold count_events. induction l as [|e l IH]; [done|]. cbn [forallb].
  intros [He Hl]%andb_true_iff. rewrite filter_cons_False; [auto|].
  by destruct (is_event name e).
Qed.

Lemma count_events_one (name : string) (e : gmap string JsValue) :
  count_events name [e] = if is_event name e then 1%nat else 0%nat.
Proof.
  unfold count_events. rewrite filter_cons, filter_nil.
  destruct (is_event name e); by case_decide.
Qed.

(** With a record of the tracker's own making, the event name of an
    envelope is the emitter's, unless the event data has an [event]
    property. *)
Lemma envelope_event (t : Tracker) (env : Env) (eventName eventData : JsValue) (r : Tracking) :
  tracking t = tracking_object r →
  envelope t env eventName eventData !! "event"
  = spread {["event" := eventName]} eventData !! "event".
Proof.
  intros Ht. rewrite envelope_unfold, Ht. unfold spread.
  destruct (metadata_identity t env eventName) as (Hev & _).
  rewrite !lookup_union. rewrite Hev.
  assert (Had : own_props (adInfo_object (adInfo t)) !! "event" = None) by done.
  assert (Htr : own_props (tracking_object r) !! "event" = None) by done.
  rewrite Had, Htr. rewrite lookup_singleton_eq. done.
Qed.

Lemma is_event_envelope (t : Tracker) (env : Env) (name : string) (r : Tracking) (ev : string) :
  tracking t = tracking_object r →
  is_event ev (envelope t env (VStr name) VUndefined) = String.eqb name ev.
Proof.
  intros Ht. unfold is_event. rewrite (envelope_event _ _ _ _ r Ht). done.
Qed.

Lemma stored_ok_resolve (q : list (string * string)) (ss : gmap string string) :
  stored_ok ss →
  ∃ r ss', resolveTracking q ss = (ss', Normal (tracking_object r))
       ∧ stored_ok ss'
       ∧ ss' !! "session_started" = ss !! "session_started".
Proof.
  intros Hok. destruct (hasAny (readParams q)) eqn:Hany.
  - eexists _, _. split; [by apply resolveTracking_fresh|]. split.
    + right. eexists. apply lookup_insert_eq.
    + by apply lookup_insert_ne.
  - destruct Hok as [Hnone|[r Hr]].
    + eexists _, _. split; [by apply resolveTracking_absent|]. split; [by left | done].
    + eexists _, _. split; [by eapply resolveTracking_stored|]. split; [right; eauto | done].
Qed.

(** A run of the script in a new window, over a session storage the
    tracker alone has written to: it completes, leaves the marker set,
    and appends [session_start] only when the marker was not set. *)
Lemma script_new_window (v : Variant) (env : Env) (w : World) :
  client_tracker_flag w = false →
  stored_ok (sessionStorage w) →
  ∃ t r w',
    script v env w = (w', Normal (Some t))
    ∧ tracking t = tracking_object r
    ∧ stored_ok (sessionStorage w')
    ∧ is_Some (getItem_truthy (sessionStorage w') "session_started")
    ∧ dataLayer w'
      = dataLayer w
        ++ match getItem_truthy (sessionStorage w) "session_started" with
           | Some _ => []
           | None => [envelope t env (VStr "session_start") VUndefined]
           end
        ++ [envelope t env (VStr "page_view") VUndefined].
Proof.
  intros Hflag Hok. unfold script. rewrite Hflag.
  destruct (getGAClientId (cookie env) (random_token env) (now_ms env) (localStorage _))
    as [cid ls].
  cbn [sessionStorage set_localStorage set_flag].
  destruct (stored_ok_resolve (query env) (sessionStorage w) Hok) as (r & ss' & -> & Hok' & Hmark).
  cbn [mbind Completion_bind sessionStorage set_sessionStorage].
  change (detectAds (tracking_object r))
    with (detectAds (VObj (own_props (tracking_object r)))).
  rewrite detectAds_object.
  cbn [mbind Completion_bind mret Completion_ret sessionStorage set_sessionStorage].
  assert (Hmark' : getItem_truthy ss' "session_started"
                   = getItem_truthy (sessionStorage w) "session_started")
    by (unfold getItem_truthy; by rewrite Hmark).
  rewrite Hmark'.
  destruct (getItem_truthy (sessionStorage w) "session_started") as [m|] eqn:Hm.
  - eexists _, r, _. split; [reflexivity|]. cbn. rewrite Hmark'. eauto.
  - eexists _, r, _. split; [reflexivity|]. cbn.
    rewrite getItem_truthy_insert by done. repeat split; eauto.
    + destruct Hok' as [Hnone|[r' Hr']]; [left | right; exists r']; by rewrite lookup_insert_ne.
    + by rewrite <- app_assoc.
Qed.

Lemma step_page_load (s : Session) (v : Variant) (env : Env)
    (existing : list (gmap string JsValue)) :
  stored_ok (sessionStorage (world s)) →
  count_events "session_start" (session_log s)
  = match getItem_truthy (sessionStorage (world s)) "session_started" with
    | Some _ => 1%nat
    | None => 0%nat
    end →
  well_behaved (PageLoad v env existing) = true →
  session_started (step s (PageLoad v env existing)).
Proof.
  intros Hok Hcount Hwb. cbn [well_behaved] in Hwb. cbn [step].
  edestruct (script_new_window v env) as (t & r & w' & -> & Ht & Hok' & Hmark & Hlog);
    [| exact Hok |]; [done|].
  cbn [sessionStorage dataLayer] in Hlog.
  unfold session_started, session_log. cbn [world page archive].
  split; [done|]. split; [done|]. split; [by intros ? [= <-]; eauto|].
  rewrite Hlog, !count_events_app, (count_events_none _ _ Hwb).
  unfold session_log in Hcount. rewrite count_events_app in Hcount. rewrite Hcount.
  destruct (getItem_truthy _ _); rewrite !count_events_one, ?(is_event_envelope _ _ _ r) by done;
    cbn; lia.
Qed.

Lemma step_emit (s : Session) (env : Env) (eventName eventData : JsValue) :
  session_started s →
  well_behaved (Emit env eventName eventData) = true →
  session_started (step s (Emit env eventName eventData)).
Proof.
  intros Hs Hwb. cbn [well_behaved] in Hwb. cbn [step].
  destruct (page s) as [t|] eqn:Hp; [|done].
  destruct Hs as (Hok & Hmark & Hpage & Hcount).
  destruct (Hpage t Hp) as [r Hr].
  unfold session_started, session_log in *. cbn [world page archive].
  unfold ClientTracker_push, pushToDataLayer. destruct (world s) as [ss ls fl log].
  cbn [sessionStorage dataLayer set_dataLayer] in *.
  split; [done|]. split; [done|]. split; [intros ? [= <-]; eauto|].
  rewrite app_assoc, count_events_app, Hcount, count_events_one.
  unfold forges_session_start, is_event in *. rewrite (envelope_event _ _ _ _ r Hr).
  apply negb_true_iff in Hwb. by rewrite Hwb.
Qed.

Lemma run_session_started (actions : list Action) :
  ∀ s, session_started s → forallb well_behaved actions = true →
       session_started (run s actions).
Proof.
  induction actions as [|a actions IH]; intros s Hs Hwb; [done|].
  cbn [forallb] in Hwb. apply andb_true_iff in Hwb as [Ha Hwb].
  cbn [run foldl]. apply IH; [|done].
  destruct a as [v env existing|env n d].
  - destruct Hs as (Hok & [m Hmark] & _ & Hcount).
    apply step_page_load; [done | by rewrite Hmark | done].
  - by apply step_emit.
Qed.

(** C7, as amended — in a browser session that starts with empty
    session storage and with a page load, over any number of further
    page loads and emit calls, exactly one session_start event is in
    the event log, the one the session marker lets through on the first
    page load: provided no emit call itself produces an event named
    session_start, and other scripts put none in the log. *)
Theorem session_start_once (ls : gmap string string) (v : Variant) (env : Env)
    (existing : list (gmap string JsValue)) (rest : list Action) :
  forallb well_behaved (PageLoad v env existing :: rest) = true →
  count_events "session_start"
    (session_log (run (new_session ls) (PageLoad v env existing :: rest))) = 1%nat.
Proof.
  intros Hwb. cbn [forallb] in Hwb. apply andb_true_iff in Hwb as [Hfirst Hrest].
  cbn [run foldl].
  assert (Hs : session_started (step (new_session ls) (PageLoad v env existing))).
  { apply step_page_load; [by left | done | done]. }
  by destruct (run_session_started rest _ Hs Hrest) as (_ & _ & _ & ?).
Qed.

Lemma session_start_once_witness :
  count_events "session_start"
    (session_log
       (run (new_session ∅)
          [ PageLoad KeyTracker example_env [];
            Emit example_env (VStr "cta_click") (VObj {["cta_name" := VStr "signup"]});
            PageLoad KeyTracker (example_page []) [];
            Emit (example_page []) (VStr "page_hide") VUndefined ])) = 1%nat.
Proof.
  apply (session_start_once ∅ KeyTracker example_env []
           [ Emit example_env (VStr "cta_click") (VObj {["cta_name" := VStr "signup"]});
             PageLoad KeyTracker (example_page []) [];
             Emit (example_page []) (VStr "page_hide") VUndefined ]).
  reflexivity.
Defined.

(** C7, counterexample — one page load, then a custom event pushed
    through the public API under the name [session_start]: the log
    holds two such events. *)
Lemma session_start_twice :
  count_events "session_start"
    (session_log
       (run (new_session ∅)
          [ PageLoad KeyTracker example_env [];
            Emit example_env (VStr "session_start") VUndefined ])) ≠ 1%nat.
Proof. vm_compute. discriminate. Qed.

(** ** The sensitive-field filter on the native path *)

Lemma set_is_Some (m : gmap string JsValue) (k k' : string) (v : JsValue) :
  is_Some (<[k := v]> m !! k') → k' = k ∨ is_Some (m !! k').
Proof. rewrite lookup_insert_is_Some. naive_solver. Qed.

Lemma collect_fields_keys (v : Variant) (entries : list (string * JsValue)) :
  ∀ (data : gmap string JsValue) (k : string),
    is_Some (foldl (collect_field v) data entries !! k) →
    is_Some (data !! k) ∨ is_sensitive v k = false.
Proof.
  induction entries as [|[k' x] entries IH]; intros data k; cbn [foldl]; [by left|].
  intros [H|H]%IH; [|by right].
  unfold collect_field, assign in H. cbn [fst snd] in H.
  destruct (is_sensitive v k') eqn:Hk'; [by left|].
  case_decide; [by left|].
  apply set_is_Some in H as [->|H]; [by right | by left].
Qed.

Lemma js_if_keys (c : JsValue) (body : gmap string JsValue → gmap string JsValue)
    (n : gmap string JsValue) (k : string) (P : Prop) :
  (is_Some (body n !! k) → P ∨ is_Some (n !! k)) →
  is_Some (js_if c body n !! k) → P ∨ is_Some (n !! k).
Proof. unfold js_if. destruct (truthy c); tauto. Qed.

Ltac canonical :=
  left; subst; apply (bool_decide_unpack _); vm_compute; reflexivity.

Ltac block_keys H k :=
  let H' := fresh in
  apply (js_if_keys _ _ _ k (k ∈ canonical_names)) in H;
  [ | cbv beta; clear H; intros H';
      repeat (apply set_is_Some in H' as [H'|H']; [canonical|]); by right ].

Lemma normalizeFieldNames_keys (data : gmap string JsValue) (k : string) :
  is_Some (normalizeFieldNames data !! k) → k ∈ canonical_names ∨ is_Some (data !! k).
Proof.
  unfold normalizeFieldNames. cbv zeta. name_conditions. intros H.
  repeat (block_keys H k; destruct H as [H|H]; [by left|]).
  by right.
Qed.

Lemma canonical_names_not_sensitive (k : string) :
  k ∈ canonical_names → is_sensitive KeyTracker k = false.
Proof. unfold canonical_names. intros H. elem_of_cases H; reflexivity. Qed.

(** On the native path, each version keeps every field that its own
    list marks as sensitive out of the data of [form_submit]. *)
Lemma submit_data_not_sensitive (v : Variant) (form : Form) (data : gmap string JsValue)
    (k : string) :
  submit_data v (Some form) = Some data →
  is_Some (data !! k) →
  is_sensitive v k = false.
Proof.
  unfold submit_data. destruct (negb _); [done|]. intros [= <-] H.
  assert (Hfields : ∀ base : gmap string JsValue,
            (∀ k, is_Some (base !! k) → is_sensitive v k = false) →
            is_Some (foldl (collect_field v) base (form_entries form) !! k) →
            is_sensitive v k = false).
  { intros base Hbase [?|?]%collect_fields_keys; auto. }
  destruct v.
  - revert H. apply Hfields. intros k'. unfold obj. cbn [foldl app fst snd].
    intros Hk. repeat (apply set_is_Some in Hk as [->|Hk]; [reflexivity|]).
    by rewrite lookup_empty in Hk; destruct Hk.
  - apply normalizeFieldNames_keys in H as [H|H];
      [by apply canonical_names_not_sensitive|].
    revert H. apply Hfields. intros k'. unfold obj. cbn [foldl app fst snd].
    intros Hk. repeat (apply set_is_Some in Hk as [->|Hk]; [reflexivity|]).
    by rewrite lookup_empty in Hk; destruct Hk.
Qed.

(** A name the normaliser does not assign is left as the input has it. *)
Lemma normalizeFieldNames_other (data : gmap string JsValue) (k : string) :
  k ∉ canonical_names → normalizeFieldNames data !! k = data !! k.
Proof.
  intros Hk.
  assert (Hne : ∀ c, c ∈ canonical_names → c ≠ k) by (intros c Hc ->; done).
  unfold normalizeFieldNames. cbv zeta. name_conditions.
  repeat (rewrite lookup_js_if_skip;
          [| cbv beta;
             repeat (rewrite lookup_insert_ne
                       by (apply Hne, (bool_decide_unpack _); vm_compute; reflexivity));
             reflexivity ]).
  reflexivity.
Qed.

(** The cross-frame path forwards every property of the message that
    the normaliser does not overwrite, whatever its name. *)
Lemma message_data_forwards (v : Variant) (m : gmap string JsValue) (k : string) (x : JsValue) :
  m !! "event" = Some (VStr "form_submit") →
  m !! k = Some x →
  k ∉ canonical_names →
  ∃ data, message_data v (VObj m) = Some data ∧ data !! k = Some x.
Proof.
  intros Hev Hk Hcanon. unfold message_data. cbn [truthy negb own_props].
  unfold get at 1 2. rewrite Hev. cbn [default truthy Str.nonempty negb].
  eexists. split; [reflexivity|].
  assert (Hdata : ∀ base, spread base (VObj m) !! k = Some x)
    by (intros base; by apply lookup_union_Some_l).
  destruct v; [done|]. by rewrite normalizeFieldNames_other.
Qed.

(** C1 — the cross-frame path hands every property of the message to
    the emitter unfiltered, a password included, in both versions; and
    the native path of the data-org version lets a field named [cvv]
    through. *)
Theorem message_path_emits_password (v : Variant) :
  let msg := VObj {["event" := VStr "form_submit"; "email" := VStr "a@example.test";
                    "password" := VStr "hunter2"]} in
  is_sensitive v "password" = true
  ∧ (∃ data, message_data v msg = Some data ∧ data !! "password" = Some (VStr "hunter2"))
  ∧ (∀ w, last (dataLayer (on_message example_env msg (example_tracker v) w))
            ≫= (λ e, e !! "password") = Some (VStr "hunter2"))
  ∧ is_sensitive OrgTracker "cvv" = false
  ∧ (∃ data,
       submit_data OrgTracker
         (Some {| form_tagName := "FORM"; form_attributes := {["id" := "pay"]};
                  form_action := "/pay"; form_entries := [("cvv", VStr "123")] |})
       = Some data
       ∧ data !! "cvv" = Some (VStr "123")).
Proof.
  cbn zeta. split; [by destruct v|]. split; [|split; [|split]].
  - destruct v; eexists; (split; [reflexivity|]); reflexivity.
  - intros w. unfold on_message.
    destruct v; cbn [variant example_tracker];
      match goal with
      | |- context [message_data ?a ?b] =>
          let r := eval vm_compute in (message_data a b) in
          change (message_data a b) with r
      end;
      cbv iota; unfold pushToDataLayer, set_dataLayer; cbn [dataLayer];
      rewrite last_snoc; reflexivity.
  - reflexivity.
  - eexists. split; reflexivity.
Qed.

(** ** Errors at the top level of the script *)

(** Whatever [JSON.parse] throws on the stored snapshot leaves the
    script: nothing catches it. *)
Lemma script_propagates_parse_error (v : Variant) (env : Env) (w : World)
    (stored : string) (e : JsError) :
  client_tracker_flag w = false →
  hasAny (readParams (query env)) = false →
  getItem_truthy (sessionStorage w) "tracking_params" = Some stored →
  JSON.parse stored = Throw e →
  (script v env w).2 = Throw e.
Proof.
  intros Hflag Hany Hstored Hparse. unfold script. rewrite Hflag.
  destruct (getGAClientId _ _ _ _) as [cid ls].
  cbn [sessionStorage set_localStorage set_flag].
  unfold resolveTracking. rewrite Hany, Hstored, Hparse. reflexivity.
Qed.

(** C9 — the script throws out of its top level when the snapshot under
    [tracking_params] is not JSON ([JSON.parse] raises a SyntaxError) or
    is the JSON text [null] (reading [fbclid] of [null] raises a
    TypeError); the page then has no tracker. *)
Theorem script_throws_on_foreign_snapshot (v : Variant) :
  (script v (example_page []) (world_with_snapshot "[object Object]")).2 = Throw SyntaxError
  ∧ (script v (example_page []) (world_with_snapshot "null")).2 = Throw TypeError
  ∧ page (step {| world := world_with_snapshot "[object Object]"; page := None; archive := [] |}
               (PageLoad v (example_page []) [])) = None.
Proof. by destruct v. Qed.

(* ===================================================================== *)
(** * Further properties of the listeners *)
(* ===================================================================== *)

(** ** Form start *)

Lemma focus_steps_started (events : list (Env * option (option Form))) :
  ∀ (t : Tracker) (w : World),
    formStarted t = true → foldl focus_step (t, w) events = (t, w).
Proof.
  induction events as [|[env [[form|]|]] events IH]; intros t w Ht; cbn [foldl]; [done|..];
    unfold focus_step, on_focusin; cbn [fst snd]; rewrite ?Ht; by apply IH.
Qed.

(** X1 — over any run of focus events on a page whose form-start flag
    is not yet set, the log receives one form_start, built from the
    first focus that lands in a field of a form and from that form, and
    nothing for any later focus, in whatever form; it receives nothing
    when no focus lands in a form. *)
Theorem form_start_once (t : Tracker) (w : World)
    (events : list (Env * option (option Form))) :
  formStarted t = false →
  dataLayer (foldl focus_step (t, w) events).2
  = dataLayer w
    ++ match first_form events with
       | Some (env, form) => [form_start_envelope t env form]
       | None => []
       end.
Proof.
  revert t w. induction events as [|[env [[form|]|]] events IH]; intros t w Ht; cbn [foldl first_form].
  - by rewrite app_nil_r.
  - unfold focus_step at 2, on_focusin. cbn [fst snd]. rewrite Ht.
    by rewrite focus_steps_started.
  - unfold focus_step at 2, on_focusin. cbn [fst snd]. by apply IH.
  - unfold focus_step at 2, on_focusin. cbn [fst snd]. by apply IH.
Qed.

Lemma form_start_once_witness :
  dataLayer
    (foldl focus_step (example_tracker KeyTracker, empty_world)
       [ (example_env, None);
         (example_env, Some (Some {| form_tagName := "FORM";
                                     form_attributes := {["name" := "signup"]};
                                     form_action := "/signup"; form_entries := [] |}));
         (example_env, Some (Some {| form_tagName := "FORM";
                                     form_attributes := {["id" := "contact"]};
                                     form_action := "/contact"; form_entries := [] |})) ]).2
  = [ form_start_envelope (example_tracker KeyTracker) example_env
        {| form_tagName := "FORM"; form_attributes := {["name" := "signup"]};
           form_action := "/signup"; form_entries := [] |} ].
Proof.
  apply (form_start_once (example_tracker KeyTracker) empty_world). reflexivity.
Defined.

(** ** Exit intent *)

Lemma leave_steps_tracked (events : list (Env * Z)) :
  ∀ (t : Tracker) (w : World),
    exitTracked t = true → foldl leave_step (t, w) events = (t, w).
Proof.
  induction events as [|[env y] events IH]; intros t w Ht; cbn [foldl]; [done|].
  unfold leave_step at 2, on_mouseleave. cbn [fst snd]. rewrite Ht, andb_false_r. by apply IH.
Qed.

(** X2 — over any run of mouseleave events on a page whose exit flag is
    not yet set, the log receives one exit_intent, for the first leave
    with [clientY <= 0], and nothing for the others; its time_on_page is
    the time since navigation start rounded to the nearest second. *)
Theorem exit_intent_once (t : Tracker) (w : World) (events : list (Env * Z)) :
  exitTracked t = false →
  dataLayer (foldl leave_step (t, w) events).2
  = dataLayer w
    ++ match first_exit events with
       | Some env => [exit_intent_envelope t env]
       | None => []
       end
  ∧ ∀ env : Env,
      (navigation_start env ≤ now_ms env)%N →
      let elapsed := (Z.of_N (now_ms env) - Z.of_N (navigation_start env))%Z in
      (0 ≤ time_on_page env)%Z
      ∧ (-500 < 1000 * time_on_page env - elapsed)%Z
      ∧ (1000 * time_on_page env - elapsed ≤ 500)%Z.
Proof.
  intros Ht. split.
  - revert t w Ht. induction events as [|[env y] events IH]; intros t w Ht; cbn [foldl first_exit].
    + by rewrite app_nil_r.
    + unfold leave_step at 2, on_mouseleave. cbn [fst snd]. rewrite Ht. cbn [negb].
      rewrite andb_true_r. destruct (y <=? 0)%Z.
      * by rewrite leave_steps_tracked.
      * by apply IH.
  - intros env Hle. cbn zeta. unfold time_on_page.
    pose proof (Z.div_mod (Z.of_N (now_ms env) - Z.of_N (navigation_start env) + 500) 1000
                  ltac:(lia)) as Hdm.
    pose proof (Z.mod_pos_bound (Z.of_N (now_ms env) - Z.of_N (navigation_start env) + 500) 1000
                  ltac:(lia)) as Hmod.
    split; [apply Z.div_pos; lia | lia].
Qed.

Lemma exit_intent_once_witness :
  dataLayer
    (foldl leave_step (example_tracker OrgTracker, empty_world)
       [(example_env, 12%Z); (example_env, 0%Z); (example_env, (-3)%Z)]).2
  = [exit_intent_envelope (example_tracker OrgTracker) example_env]
  ∧ (0 ≤ time_on_page example_env)%Z.
Proof.
  destruct (exit_intent_once (example_tracker OrgTracker) empty_world
              [(example_env, 12%Z); (example_env, 0%Z); (example_env, (-3)%Z)] eq_refl)
    as [Hlog Htime].
  split; [exact Hlog|]. apply (Htime example_env). vm_compute. discriminate.
Defined.


(** ** Clicks *)

Lemma length_take (n : nat) (s : string) : (String.length (Str.take n s) ≤ n)%nat.
Proof.
  revert s; induction n as [|n IH]; intros [|c s]; cbn; try lia.
  specialize (IH s). lia.
Qed.

Lemma trimStart_head (s : string) :
  match Str.trimStart s with
  | EmptyString => True
  | String c _ => Str.is_space c = false
  end.
Proof.
  induction s as [|c s IH]; cbn [Str.trimStart]; [done|].
  destruct (Str.is_space c) eqn:Hc; [done|]. exact Hc.
Qed.

Lemma trimEnd_head (c : ascii) (s : string) :
  Str.is_space c = false → ∃ r, Str.trimEnd (String c s) = String c r.
Proof.
  intros Hc. cbn [Str.trimEnd]. destruct (Str.trimEnd s); rewrite ?Hc; eauto.
Qed.

Lemma trim_take_head (n : nat) (s : string) :
  match Str.take n (Str.trim s) with
  | EmptyString => True
  | String c _ => Str.is_space c = false
  end.
Proof.
  unfold Str.trim. pose proof (trimStart_head s) as Hhead.
  destruct (Str.trimStart s) as [|c r]; [by destruct n|].
  destruct (trimEnd_head c r Hhead) as [r' ->]. by destruct n.
Qed.

Lemma bounded_text_insert (k : string) (x : JsValue) (data : gmap string JsValue) :
  k ≠ "element_text" → bounded_text data → bounded_text (<[k := x]> data).
Proof.
  intros Hk (txt & Hdata & Hbound). exists txt. by rewrite lookup_insert_ne.
Qed.

(** X3 — a click outside every tracked element emits nothing; a click
    on a tracked element emits one event, named after the first of the
    categories nav item, CTA, footer link, tab whose attribute the
    element has, and [click] when it has none; the event carries the
    value of that attribute, and a text of at most 100 characters that
    does not start with white space. *)
Theorem click_classification (t : Tracker) (env : Env) (w : World) :
  on_click env None t w = w
  ∧ ∀ el : Element,
      match click_category el with
      | Some (attribute, eventName, property) =>
          ∃ data value,
            attributes el !! attribute = Some value
            ∧ on_click env (Some el) t w
              = pushToDataLayer t env (VStr eventName) (VObj data) w
            ∧ data !! property = Some (VStr value)
            ∧ bounded_text data
      | None =>
          ∃ data,
            on_click env (Some el) t w = pushToDataLayer t env (VStr "click") (VObj data) w
            ∧ bounded_text data
      end.
Proof.
  split; [done|]. intros el. unfold click_category, click_categories, on_click.
  cbn [List.find fst snd].
  unfold hasAttribute, attribute_value, getAttribute.
  set (base := obj _).
  assert (Hbase : base !! "element_text"
                  = Some (VStr (Str.take 100 (Str.trim (innerText el))))) by reflexivity.
  assert (Htext : bounded_text base).
  { eexists. split; [exact Hbase|]. split; [apply length_take | apply trim_take_head]. }
  clearbody base.
  destruct (attributes el !! "data-nav-item") as [nav|] eqn:Hnav;
    [| destruct (attributes el !! "data-cta-name") as [cta|] eqn:Hcta;
       [| destruct (attributes el !! "data-footer-link") as [foot|] eqn:Hfoot;
          [| destruct (attributes el !! "data-tab") as [tab|] eqn:Htab ] ] ];
    cbn;
    try (eexists _, _; split; [eassumption|]; split; [reflexivity|];
         split; [ rewrite ?lookup_insert_ne by done; apply lookup_insert_eq
                | repeat (apply bounded_text_insert; [done|]); done ]).
  eauto.
Qed.

(** ** What the listeners leave alone *)

Lemma grows_by_refl (n : nat) (w : World) : grows_by n w w.
Proof.
  repeat split. exists []. rewrite app_nil_r. split; [done | cbn; lia].
Qed.

Lemma grows_by_push (n : nat) (t : Tracker) (env : Env) (eventName eventData : JsValue)
    (w : World) :
  grows_by (S n) w (pushToDataLayer t env eventName eventData w).
Proof.
  repeat split. eexists [_]. split; [reflexivity | cbn; lia].
Qed.

(** X4 — no listener, nor the public [push], touches session storage,
    local storage or the inclusion flag, and none removes or rewrites an
    entry of the log: each appends at most one entry, the scroll timer
    at most four. *)
Theorem listeners_only_append (env : Env) (t : Tracker) (w : World) :
  (∀ closest, grows_by 1 w (on_click env closest t w))
  ∧ (∀ field_form, grows_by 1 w (on_focusin env field_form t w).2)
  ∧ (∀ target, grows_by 1 w (on_submit env target t w))
  ∧ (∀ e_data, grows_by 1 w (on_message env e_data t w))
  ∧ (∀ clientY, grows_by 1 w (on_mouseleave env clientY t w).2)
  ∧ (∀ hidden, grows_by 1 w (on_visibilitychange env hidden t w))
  ∧ (∀ percent, grows_by 4 w (on_scroll_timer env percent t w).2)
  ∧ (∀ eventName eventData, grows_by 1 w (ClientTracker_push t env eventName eventData w)).
Proof.
  repeat apply conj.
  - intros [el|]; [|apply grows_by_refl]. unfold on_click.
    repeat match goal with |- context [if ?c then _ else _] => destruct c end;
      apply grows_by_push.
  - intros [[form|]|]; unfold on_focusin; try apply grows_by_refl.
    destruct (formStarted t); [apply grows_by_refl | apply grows_by_push].
  - intros target. unfold on_submit.
    destruct (submit_data _ _); [apply grows_by_push | apply grows_by_refl].
  - intros e_data. unfold on_message.
    destruct (message_data _ _); [apply grows_by_push | apply grows_by_refl].
  - intros clientY. unfold on_mouseleave.
    destruct (_ && _); [apply grows_by_push | apply grows_by_refl].
  - intros hidden. apply grows_by_push.
  - intros percent. unfold on_scroll_timer.
    destruct (scrollTimeout t); [|apply grows_by_refl].
    rewrite (scroll_marks_fold env percent scrollMarks)
      by (apply (bool_decide_unpack _); vm_compute; reflexivity).
    cbn [snd]. repeat split. eexists. split; [reflexivity|].
    rewrite length_fmap. etransitivity; [apply length_filter|]. reflexivity.
  - intros eventName eventData. apply grows_by_push.
Qed.

(** ** Scroll depth over a run *)

Lemma reaches_mono (p : Percent) (m m' : Z) :
  reaches p m = true → (m' < m)%Z → reaches p m' = true.
Proof. destruct p; cbn; try done. intros H%Z.leb_le Hlt. apply Z.leb_le. lia. Qed.

Lemma filter_none {A} (P : A → Prop) `{!∀ x, Decision (P x)} (l : list A) :
  (∀ x, x ∈ l → ¬ P x) → filter P l = [].
Proof.
  induction l as [|a l IH]; intros Hl; [done|].
  rewrite filter_cons_False by (apply Hl; left).
  apply IH. intros x Hx. apply Hl. by right.
Qed.

Lemma StronglySorted_filter {A} (R : A → A → Prop) (P : A → Prop)
    `{!∀ x, Decision (P x)} (l : list A) :
  StronglySorted R l → StronglySorted R (filter P l).
Proof.
  induction 1 as [|a l Hsorted IH Hall]; [constructor|].
  destruct (decide (P a)); [|by rewrite filter_cons_False].
  rewrite filter_cons_True by done. constructor; [done|].
  apply Forall_forall. intros x [_ Hx]%list_elem_of_filter.
  rewrite Forall_forall in Hall. by apply Hall.
Qed.

Lemma fired_split (seen : gset Z) (p : Percent) (Q : Z → Prop) `{!∀ m, Decision (Q m)}
    (marks : list Z) :
  StronglySorted Z.lt marks →
  filter (λ m, reaches p m = true ∧ m ∉ seen) marks
    ++ filter (λ m, reaches p m = false ∧ ((m ∉ seen) ∧ Q m)) marks
  = filter (λ m, (m ∉ seen) ∧ (reaches p m = true ∨ Q m)) marks.
Proof.
  induction 1 as [|a marks Hsorted IH Hall]; [done|].
  destruct (decide (a ∈ seen)) as [Hseen|Hseen].
  { rewrite !filter_cons_False by tauto. exact IH. }
  destruct (reaches p a) eqn:Ha.
  { rewrite (filter_cons_True (λ m, reaches p m = true ∧ m ∉ seen)) by done.
    rewrite (filter_cons_False (λ m, reaches p m = false ∧ _)) by (rewrite Ha; intros [? _]; done).
    rewrite (filter_cons_True (λ m, (m ∉ seen) ∧ _)) by auto.
    cbn [app]. by rewrite IH. }
  assert (Hrest : ∀ m, m ∈ marks → reaches p m = false).
  { intros m Hm. destruct (reaches p m) eqn:Hpm; [|done].
    rewrite Forall_forall in Hall. rewrite (reaches_mono p m a Hpm (Hall m Hm)) in Ha. done. }
  rewrite (filter_cons_False (λ m, reaches p m = true ∧ m ∉ seen)) by (rewrite Ha; intros [? _]; done).
  assert (Hnil : filter (λ m, reaches p m = true ∧ m ∉ seen) marks = []).
  { apply filter_none. intros m Hm [Hpm _]. rewrite Hrest in Hpm; done. }
  rewrite Hnil. cbn [app].
  apply filter_ext_elem_of. intros m Hm.
  assert (Hpm : reaches p m = false).
  { apply elem_of_cons in Hm as [->|Hm]; [done | by apply Hrest]. }
  rewrite Hpm. split; [intros (_ & ? & ?); auto | intros (? & [?|?]); done].
Qed.

Lemma scrollMarks_sorted : StronglySorted Z.lt scrollMarks.
Proof. repeat constructor. Qed.

Lemma fired_reached (percents : list Percent) :
  ∀ seen : gset Z, fired seen percents = reached_marks seen percents.
Proof.
  induction percents as [|p ps IH]; intros seen; cbn [fired].
  - unfold reached_marks. symmetry. apply filter_none.
    intros m _ [_ H]. by apply Exists_nil in H.
  - cbn zeta. rewrite IH. unfold reached_marks.
    rewrite <- (filter_ext_elem_of
                  (λ m, (m ∉ seen) ∧ (reaches p m = true ∨ Exists (λ p, reaches p m = true) ps))
                  (λ m, (m ∉ seen) ∧ Exists (λ p, reaches p m = true) (p :: ps)))
      by (intros m _; by rewrite Exists_cons).
    rewrite <- (fired_split seen p _ scrollMarks scrollMarks_sorted). f_equal.
    apply filter_ext_elem_of. intros m Hm.
    split.
    + intros [Hnew Hex].
      assert (Hseen : m ∉ seen) by (intros ?; apply Hnew, elem_of_union; by right).
      destruct (reaches p m) eqn:Hpm; [|done].
      exfalso. apply Hnew, elem_of_union. left.
      by apply elem_of_list_to_set, list_elem_of_filter.
    + intros (Hpm & Hseen & Hex). split; [|done].
      intros [Hnew|?]%elem_of_union; [|done].
      apply elem_of_list_to_set, list_elem_of_filter in Hnew as [[Hpm' _] _]. congruence.
Qed.

(** X5 — over any run of scroll positions on a page, in whatever order
    they come (scrolling back included), the scroll_depth events emitted
    are those of the thresholds not fired before that some position of
    the run reaches, each once and in ascending order of threshold. *)
Theorem scroll_depth_run (env : Env) (t : Tracker) (w : World) (percents : list Percent) :
  dataLayer (foldl (scroll_to env) (t, w) percents).2
  = dataLayer w ++ (scroll_depth_envelope t env <$> reached_marks (seenScroll t) percents)
  ∧ StronglySorted Z.lt (reached_marks (seenScroll t) percents).
Proof.
  split.
  - by rewrite scroll_to_fired, fired_reached.
  - unfold reached_marks. apply StronglySorted_filter, scrollMarks_sorted.
Qed.

(** ** Native form submission *)

Lemma envelope_names_complete (t : Tracker) (env : Env) (eventName eventData : JsValue)
    (r : Tracking) (k : string) :
  tracking t = tracking_object r →
  is_Some (envelope t env eventName eventData !! k) →
  is_Some (own_props eventData !! k) ∨ k ∈ envelope_names (variant t).
Proof.
  intros Hr. rewrite envelope_unfold, Hr.
  intros [H|H]%lookup_union_is_Some; [by left|]. right.
  unfold envelope_names.
  apply lookup_union_is_Some in H as [H|H].
  { unfold adInfo_object, own_props in H.
    repeat (apply set_is_Some in H as [->|H];
            [apply (bool_decide_unpack _); by destruct (variant t)|]).
    by rewrite lookup_empty in H; destruct H. }
  apply lookup_union_is_Some in H as [H|H].
  { unfold tracking_object, own_props, obj, tracking_entries in H.
    cbn [fmap list_fmap foldl prod_map fst snd id] in H.
    repeat (apply set_is_Some in H as [->|H];
            [apply (bool_decide_unpack _); by destruct (variant t)|]).
    by rewrite lookup_empty in H; destruct H. }
  unfold metadata, obj in H. cbn [foldl fst snd] in H.
  repeat (apply set_is_Some in H as [->|H];
          [destruct (variant t); apply (bool_decide_unpack _); vm_compute; reflexivity|]).
  by rewrite lookup_empty in H; destruct H.
Qed.

Lemma envelope_names_not_sensitive (v : Variant) (k : string) :
  k ∈ envelope_names v → is_sensitive v k = false.
Proof. destruct v; unfold envelope_names; intros H; elem_of_cases H; reflexivity. Qed.

(** X6 — the whole form_submit entry that a native form submission
    appends to the log, not only its form data, has no property whose
    name is sensitive under the version's own list, whatever the form
    holds, for a tracker whose attribution is a record of the tracker's
    own making. *)
Theorem submit_envelope_not_sensitive (env : Env) (t : Tracker) (r : Tracking) (w : World)
    (form : Form) :
  tracking t = tracking_object r →
  form_tagName form = "FORM" →
  ∃ e, dataLayer (on_submit env (Some form) t w) = dataLayer w ++ [e]
       ∧ ∀ k, is_Some (e !! k) → is_sensitive (variant t) k = false.
Proof.
  intros Hr Htag. unfold on_submit.
  destruct (submit_data (variant t) (Some form)) as [data|] eqn:Hdata.
  - eexists. split; [reflexivity|]. intros k Hk.
    apply (envelope_names_complete _ _ _ _ r) in Hk as [Hk|Hk]; [| |done].
    + by apply (submit_data_not_sensitive _ _ _ _ Hdata).
    + by apply envelope_names_not_sensitive.
  - unfold submit_data in Hdata. by rewrite Htag in Hdata.
Qed.

Lemma submit_envelope_not_sensitive_witness :
  ∃ e, dataLayer
         (on_submit example_env
            (Some {| form_tagName := "FORM"; form_attributes := {["id" := "pay"]};
                     form_action := "/pay";
                     form_entries := [("email", VStr "a@example.test");
                                      ("Card-Number", VStr "4111")] |})
            (example_tracker KeyTracker) empty_world)
       = dataLayer empty_world ++ [e]
       ∧ ∀ k, is_Some (e !! k) → is_sensitive KeyTracker k = false.
Proof.
  apply (submit_envelope_not_sensitive example_env (example_tracker KeyTracker)
           (readParams (query example_env))); reflexivity.
Defined.

Lemma collect_fields_absent (v : Variant) (k : string) (entries : list (string * JsValue)) :
  ∀ data : gmap string JsValue,
    k ∉ entries.*1 → foldl (collect_field v) data entries !! k = data !! k.
Proof.
  induction entries as [|[k' x] entries IH]; intros data Hk; [done|].
  cbn [foldl]. rewrite fmap_cons, not_elem_of_cons in Hk. destruct Hk as [Hne Hk].
  rewrite IH by done. unfold collect_field, assign. cbn [fst snd].
  destruct (is_sensitive v k'); [done|]. destruct (decide _); [done|].
  by rewrite lookup_insert_ne.
Qed.

(** X7 — a native form submission forwards the value of every field
    whose name is not sensitive: of several fields of one name the last
    one, under the name as the form has it; in the version that
    normalises, for the names the normaliser does not assign.  This
    holds of a field named like a built-in property of the form data
    too, which it replaces. *)
Theorem submit_forwards_last (v : Variant) (form : Form) (before after : list (string * JsValue))
    (k : string) (x : JsValue) :
  form_tagName form = "FORM" →
  form_entries form = before ++ (k, x) :: after →
  k ∉ after.*1 →
  is_sensitive v k = false →
  k ≠ "__proto__" →
  (v = KeyTracker → k ∉ canonical_names) →
  ∃ data, submit_data v (Some form) = Some data ∧ data !! k = Some x.
Proof.
  intros Htag Hentries Hafter Hk Hproto Hcanon. unfold submit_data.
  rewrite Htag. cbn [String.eqb Ascii.eqb Bool.eqb negb]. eexists. split; [reflexivity|].
  assert (Hdata : ∀ base, foldl (collect_field v) base (form_entries form) !! k = Some x).
  { intros base. rewrite Hentries, foldl_app. cbn [foldl].
    rewrite collect_fields_absent by done.
    unfold collect_field, assign. cbn [fst snd]. rewrite Hk.
    rewrite decide_False by done. apply lookup_insert_eq. }
  destruct v; [apply Hdata|].
  rewrite normalizeFieldNames_other by auto. apply Hdata.
Qed.

Lemma submit_forwards_last_witness :
  ∃ data,
    submit_data KeyTracker
      (Some {| form_tagName := "FORM"; form_attributes := ∅; form_action := "";
               form_entries := [("topic", VStr "a"); ("topic", VStr "b")] |})
    = Some data
    ∧ data !! "topic" = Some (VStr "b").
Proof.
  apply (submit_forwards_last KeyTracker _ [("topic", VStr "a")] []); try reflexivity.
  - apply not_elem_of_nil.
  - discriminate.
  - intros _. apply (bool_decide_unpack _). vm_compute. reflexivity.
Defined.

(** ** Cross-frame messages *)

Lemma own_props_falsy (d : JsValue) : truthy d = false → own_props d = ∅.
Proof. destruct d as [| | | |[|]| | |]; done. Qed.

(** X8 — the message listener handles a message exactly when the
    payload's [event] property is the string form_submit (so never a
    payload that is null, a number, a string or an array of strings),
    whichever version runs.  In the data of a handled message the
    properties of the payload win over the listener's defaults:
    form_name, form_type and source are the payload's when it has them,
    even empty, and frappe_form, iframe and frappe_webform only when it
    has not. *)
Theorem message_handled (v : Variant) (e_data : JsValue) :
  (is_Some (message_data v e_data) ↔ get (own_props e_data) "event" = VStr "form_submit")
  ∧ ∀ m : gmap string JsValue,
      m !! "event" = Some (VStr "form_submit") →
      ∃ data,
        message_data v (VObj m) = Some data
        ∧ data !! "form_name" = Some (default (VStr "frappe_form") (m !! "form_name"))
        ∧ data !! "form_type" = Some (default (VStr "iframe") (m !! "form_type"))
        ∧ data !! "source" = Some (default (VStr "frappe_webform") (m !! "source")).
Proof.
  split.
  - unfold message_data. destruct (truthy e_data) eqn:Htruthy; cbn [negb];
      [|rewrite (own_props_falsy _ Htruthy); split; [by intros [? [=]] | done]].
    destruct (get (own_props e_data) "event") as [| |b|n|s|elems|props|class];
      cbn [truthy negb];
      try (split; [by intros [? [=]] | done]);
      try (split; [intros [? H]; by destruct (negb _) | done]).
    destruct (String.eqb s "form_submit") eqn:Hs.
    + apply String.eqb_eq in Hs as ->. cbn [Str.nonempty negb]. split; [done | eauto].
    + apply String.eqb_neq in Hs. split; [|intros [= ?]; done].
      destruct (Str.nonempty s); cbn [negb]; [|by intros [? [=]]].
      intros [data Hdata]. exfalso. apply Hs.
      repeat (destruct s as [|[[|][|][|][|][|][|][|][|]] s]; try discriminate Hdata).
      reflexivity.
  - intros m Hev. unfold message_data. cbn [truthy negb own_props].
    unfold get at 1 2. rewrite Hev. cbn [default truthy Str.nonempty negb].
    eexists. split; [reflexivity|].
    assert (Hother : ∀ (k : string) (base : gmap string JsValue),
              k ∉ canonical_names →
              match v with
              | OrgTracker => base
              | KeyTracker => normalizeFieldNames base
              end !! k = base !! k).
    { intros k base Hk. destruct v; [done | by apply normalizeFieldNames_other]. }
    rewrite !Hother by (apply (bool_decide_unpack _); vm_compute; reflexivity).
    unfold spread, own_props, get. rewrite !lookup_union.
    repeat split;
      match goal with |- context [m !! ?k] => destruct (m !! k) end; reflexivity.
Qed.

Lemma message_handled_witness :
  ∃ data,
    message_data KeyTracker (VObj {["event" := VStr "form_submit"; "form_name" := VStr ""]})
    = Some data
    ∧ data !! "form_name" = Some (VStr "")
    ∧ data !! "form_type" = Some (VStr "iframe")
    ∧ data !! "source" = Some (VStr "frappe_webform").
Proof.
  destruct (message_handled KeyTracker VNull) as [_ H].
  exact (H {["event" := VStr "form_submit"; "form_name" := VStr ""]} eq_refl).
Defined.

(** ** What the normaliser keeps *)

Ltac assignment_of c :=
  let r := eval vm_compute in (assignment c) in
  change (assignment c) with r.

Ltac assignments_of_goal :=
  repeat match goal with
         | |- context [assignment ?c] => assignment_of c
         end.

Lemma assignment_canonical (k : string) :
  k ∉ canonical_names → assignment k = None.
Proof.
  intros Hk. unfold assignment.
  destruct (List.find _ assignments) as [row|] eqn:Hfind; [|done].
  apply find_some in Hfind as [Hrow Heq]. apply String.eqb_eq in Heq as ->.
  exfalso. apply Hk. apply list_elem_of_In in Hrow.
  unfold assignments in Hrow. cbn [fmap list_fmap app] in Hrow.
  elem_of_cases Hrow; apply (bool_decide_unpack _); vm_compute; reflexivity.
Qed.

(** Each name of the normalised object is settled by the row of its own
    name: the blocks do not interfere. *)
Lemma normalizeFieldNames_assigned (data : gmap string JsValue) (k : string) :
  normalizeFieldNames data !! k = assigned data k.
Proof.
  unfold assigned.
  destruct (decide (k ∈ canonical_names)) as [Hc|Hc];
    [|by rewrite assignment_canonical, normalizeFieldNames_other].
  unfold canonical_names in Hc.
  elem_of_cases Hc; assignments_of_goal; cbn [chain foldl fmap list_fmap];
    normalized_lookup; reflexivity.
Qed.

Lemma get_normalized (data : gmap string JsValue) (k : string) :
  get (normalizeFieldNames data) k
  = match assignment k with
    | Some (guard, value) =>
        if truthy (chain data guard) then chain data value else get data k
    | None => get data k
    end.
Proof.
  unfold get at 1. rewrite normalizeFieldNames_assigned. unfold assigned, get.
  destruct (assignment k) as [[guard value]|]; [|done]. by destruct (truthy _).
Qed.

(** X9 — the normaliser deletes no field and blanks none: every name of
    the input is a name of the output, a name that holds a non-empty
    value still holds one, the only names it adds are the canonical
    ones, and every other name keeps its value. *)
Theorem normalizeFieldNames_keeps (data : gmap string JsValue) :
  dom data ⊆ dom (normalizeFieldNames data)
  ∧ dom (normalizeFieldNames data) ⊆ dom data ∪ list_to_set canonical_names
  ∧ (∀ k, truthy (get data k) = true → truthy (get (normalizeFieldNames data) k) = true)
  ∧ (∀ k, k ∉ canonical_names → normalizeFieldNames data !! k = data !! k).
Proof.
  split; [|split; [|split]].
  - intros k [x Hx]%elem_of_dom. apply elem_of_dom.
    rewrite normalizeFieldNames_assigned. unfold assigned.
    destruct (assignment k) as [[guard value]|]; [|eauto]. destruct (truthy _); eauto.
  - intros k [Hk|Hk]%elem_of_dom%normalizeFieldNames_keys.
    + apply elem_of_union. right. by apply elem_of_list_to_set.
    + apply elem_of_union. left. by apply elem_of_dom.
  - intros k Hk. rewrite get_normalized.
    destruct (decide (k ∈ canonical_names)) as [Hc|Hc];
      [|by rewrite assignment_canonical].
    unfold canonical_names in Hc.
    elem_of_cases Hc; assignments_of_goal; cbn [chain foldl fmap list_fmap];
      match goal with
      | |- context [if truthy ?c then _ else _] =>
          destruct (truthy c) eqn:Hguard; [|exact Hk]
      end;
      first [ exact Hguard | exact Hk | rewrite !truthy_js_or; by rewrite Hk ].
  - apply normalizeFieldNames_other.
Qed.

Lemma normalizeFieldNames_keeps_witness :
  truthy (get (normalizeFieldNames {["dob" := VStr "1990-05-17"; "town" := VStr "Leeds"]}) "dob")
  = true.
Proof.
  destruct (normalizeFieldNames_keeps {["dob" := VStr "1990-05-17"; "town" := VStr "Leeds"]})
    as (_ & _ & H & _).
  apply H. reflexivity.
Defined.

Ltac settle_chains data :=
  unfold js_or;
  repeat (cbv beta iota;
          match goal with
          | H : truthy ?x = _ |- context [truthy ?x] => rewrite H
          | |- context [truthy (get data ?a)] => destruct (truthy (get data a)) eqn:?
          end);
  cbv beta iota.

(** X10 — normalising twice gives what normalising once gives. *)
Theorem normalizeFieldNames_idempotent (data : gmap string JsValue) :
  normalizeFieldNames (normalizeFieldNames data) = normalizeFieldNames data.
Proof.
  apply map_eq. intros k.
  rewrite (normalizeFieldNames_assigned (normalizeFieldNames data) k). unfold assigned.
  destruct (decide (k ∈ canonical_names)) as [Hc|Hc];
    [|by rewrite assignment_canonical].
  unfold canonical_names in Hc.
  elem_of_cases Hc; assignments_of_goal; cbn [chain foldl fmap list_fmap];
    rewrite !get_normalized, normalizeFieldNames_assigned; unfold assigned;
    assignments_of_goal; cbn [chain foldl fmap list_fmap];
    settle_chains data; reflexivity.
Qed.

(* ===================================================================== *)
(** * Further properties of page loads and sessions *)
(* ===================================================================== *)

Lemma script_resolved (v : Variant) (env : Env) (w : World) (r : Tracking)
    (ss' : gmap string string) :
  client_tracker_flag w = false →
  resolveTracking (query env) (sessionStorage w) = (ss', Normal (tracking_object r)) →
  let t := page_tracker v env (localStorage w) r in
  ∃ w',
    script v env w = (w', Normal (Some t))
    ∧ localStorage w'
      = (getGAClientId (cookie env) (random_token env) (now_ms env) (localStorage w)).2
    ∧ sessionStorage w'
      = match getItem_truthy ss' "session_started" with
        | Some _ => ss'
        | None => <["session_started" := "1"]> ss'
        end
    ∧ client_tracker_flag w' = true
    ∧ dataLayer w'
      = dataLayer w
        ++ match getItem_truthy ss' "session_started" with
           | Some _ => []
           | None => [envelope t env (VStr "session_start") VUndefined]
           end
        ++ [envelope t env (VStr "page_view") VUndefined].
Proof.
  intros Hflag Hresolve. cbn zeta. unfold script, page_tracker. rewrite Hflag.
  cbn [sessionStorage localStorage set_flag].
  destruct (getGAClientId (cookie env) (random_token env) (now_ms env) (localStorage w))
    as [cid ls].
  cbn [sessionStorage localStorage set_localStorage set_flag]. rewrite Hresolve.
  cbn [mbind Completion_bind sessionStorage set_sessionStorage].
  change (detectAds (tracking_object r))
    with (detectAds (VObj (own_props (tracking_object r)))).
  rewrite detectAds_object.
  cbn [mbind Completion_bind mret Completion_ret sessionStorage set_sessionStorage fst snd].
  destruct (getItem_truthy ss' "session_started") as [m|] eqn:Hm.
  - eexists. split; [reflexivity|]. cbn. done.
  - eexists. split; [reflexivity|]. cbn. repeat split. by rewrite <- app_assoc.
Qed.

(** X11 — a page whose URL has a recognised parameter with a value
    always initialises, whatever session storage held before (a snapshot
    that is not JSON included): the tracker works on the parameters of
    the URL, and the snapshot is replaced by them. *)
Theorem parameters_override_storage (v : Variant) (env : Env) (w : World) :
  client_tracker_flag w = false →
  hasAny (readParams (query env)) = true →
  ∃ w',
    script v env w
    = (w', Normal (Some (page_tracker v env (localStorage w) (readParams (query env)))))
    ∧ sessionStorage w' !! "tracking_params"
      = Some (JSON.stringify (tracking_entries (readParams (query env)))).
Proof.
  intros Hflag Hany.
  destruct (script_resolved v env w _ _ Hflag (resolveTracking_fresh _ _ Hany))
    as (w' & Hscript & _ & Hss & _).
  exists w'. split; [exact Hscript|]. rewrite Hss.
  destruct (getItem_truthy _ _); rewrite ?lookup_insert_ne by done; apply lookup_insert_eq.
Qed.

Lemma parameters_override_storage_witness :
  ∃ w',
    script KeyTracker example_env (world_with_snapshot "[object Object]")
    = (w', Normal (Some (page_tracker KeyTracker example_env ∅ (readParams (query example_env)))))
    ∧ sessionStorage w' !! "tracking_params"
      = Some (JSON.stringify (tracking_entries (readParams (query example_env)))).
Proof.
  apply (parameters_override_storage KeyTracker example_env
           (world_with_snapshot "[object Object]")); reflexivity.
Defined.

(** ** Sessions the tracker alone writes to *)

Lemma new_session_tracker_only (ls : gmap string string) : tracker_only (new_session ls).
Proof. split; [by left | done]. Qed.

Lemma step_load_tracker_only (s : Session) (v : Variant) (env : Env)
    (existing : list (gmap string JsValue)) :
  stored_ok (sessionStorage (world s)) →
  ∃ t r w',
    step s (PageLoad v env existing)
    = {| world := w'; page := Some t; archive := archive s ++ dataLayer (world s) |}
    ∧ tracking t = tracking_object r
    ∧ stored_ok (sessionStorage w')
    ∧ dataLayer w'
      = existing
        ++ match getItem_truthy (sessionStorage (world s)) "session_started" with
           | Some _ => []
           | None => [envelope t env (VStr "session_start") VUndefined]
           end
        ++ [envelope t env (VStr "page_view") VUndefined].
Proof.
  intros Hok. cbn [step].
  edestruct (script_new_window v env) as (t & r & w' & -> & Ht & Hok' & _ & Hlog);
    [| exact Hok |]; [done|].
  by exists t, r, w'.
Qed.

Lemma step_tracker_only (s : Session) (a : Action) :
  tracker_only s → tracker_only (step s a).
Proof.
  intros [Hok Hpage]. destruct a as [v env existing|env eventName eventData].
  - destruct (step_load_tracker_only s v env existing Hok) as (t & r & w' & -> & Ht & Hok' & _).
    split; [done|]. intros ? [= <-]. eauto.
  - cbn [step]. destruct (page s) as [t|] eqn:Hp.
    + split; [exact Hok | exact Hpage].
    + split; [exact Hok|]. intros t. by rewrite Hp.
Qed.

Lemma run_tracker_only (actions : list Action) :
  ∀ s, tracker_only s → tracker_only (run s actions).
Proof.
  induction actions as [|a actions IH]; intros s Hs; [done|].
  apply IH, step_tracker_only, Hs.
Qed.

(** X12 — in a session from empty session storage, whatever local
    storage holds and whatever pages were loaded and events emitted
    before, every page load completes and leaves a tracker on the page,
    whose attribution is a record of the recognised parameters. *)
Theorem page_load_initialises (ls : gmap string string) (actions : list Action)
    (v : Variant) (env : Env) (existing : list (gmap string JsValue)) :
  ∃ t r,
    page (run (new_session ls) (actions ++ [PageLoad v env existing])) = Some t
    ∧ tracking t = tracking_object r
    ∧ variant t = v.
Proof.
  unfold run. rewrite foldl_app. cbn [foldl].
  destruct (run_tracker_only actions _ (new_session_tracker_only ls)) as [Hok _].
  fold (run (new_session ls) actions).
  set (s := run (new_session ls) actions) in *. cbn [step].
  destruct (stored_ok_resolve (query env) (sessionStorage (world s)) Hok)
    as (r & ss' & Hresolve & _).
  edestruct (script_resolved v env) as (w' & -> & _); [| exact Hresolve |]; [done|].
  cbn [page]. eauto.
Qed.

(** ** Attribution across the pages of a session *)

Lemma step_keeps_attribution (s : Session) (a : Action) (r : Tracking) :
  without_parameters a = true →
  sessionStorage (world s) !! "tracking_params" = Some (JSON.stringify (tracking_entries r)) →
  (∃ t, page s = Some t ∧ tracking t = tracking_object r
        ∧ adInfo t = classifyAdPlatform (own_props (tracking_object r))) →
  sessionStorage (world (step s a)) !! "tracking_params"
  = Some (JSON.stringify (tracking_entries r))
  ∧ ∃ t, page (step s a) = Some t ∧ tracking t = tracking_object r
         ∧ adInfo t = classifyAdPlatform (own_props (tracking_object r)).
Proof.
  intros Ha Hss (t & Hp & Ht). destruct a as [v env existing|env eventName eventData].
  - cbn [without_parameters] in Ha. apply negb_true_iff in Ha. cbn [step].
    edestruct (script_resolved v env) as (w' & -> & _ & Hss' & _);
      [| apply (resolveTracking_stored _ _ r Ha); exact Hss |]; [done|].
    cbn [world page]. split; [|eauto]. rewrite Hss'.
    destruct (getItem_truthy _ _); rewrite ?lookup_insert_ne by done; exact Hss.
  - cbn [step]. rewrite Hp. cbn [world page]. split; [exact Hss | eauto].
Qed.

(** X13 — the attribution of a page whose URL has a recognised parameter
    with a value stays with the session: after any number of further
    page loads without such parameters and of emit calls, the tracker of
    the page then current works on the record of those parameters and on
    the ad classification of that record, whatever the session was
    before and whichever version each page runs. *)
Theorem attribution_follows_session (s : Session) (v : Variant) (env : Env)
    (existing : list (gmap string JsValue)) (rest : list Action) :
  hasAny (readParams (query env)) = true →
  forallb without_parameters rest = true →
  ∃ t,
    page (run s (PageLoad v env existing :: rest)) = Some t
    ∧ tracking t = tracking_object (readParams (query env))
    ∧ adInfo t = classifyAdPlatform (own_props (tracking_object (readParams (query env)))).
Proof.
  intros Hany Hrest. cbn [run foldl].
  set (r := readParams (query env)) in *.
  assert (Hfirst :
    sessionStorage (world (step s (PageLoad v env existing))) !! "tracking_params"
    = Some (JSON.stringify (tracking_entries r))
    ∧ ∃ t, page (step s (PageLoad v env existing)) = Some t
           ∧ tracking t = tracking_object r
           ∧ adInfo t = classifyAdPlatform (own_props (tracking_object r))).
  { cbn [step].
    edestruct (script_resolved v env) as (w' & -> & _ & Hss' & _);
      [| apply (resolveTracking_fresh _ _ Hany) |]; [done|].
    cbn [world page]. split; [|eauto]. rewrite Hss'. fold r.
    destruct (getItem_truthy _ _); rewrite ?lookup_insert_ne by done; apply lookup_insert_eq. }
  revert Hfirst. generalize (step s (PageLoad v env existing)). clear s.
  induction rest as [|a rest IH]; intros s [Hss Hpage]; [exact Hpage|].
  cbn [forallb] in Hrest. apply andb_true_iff in Hrest as [Ha Hrest].
  cbn [foldl]. apply IH; [exact Hrest|]. by apply step_keeps_attribution.
Qed.

Lemma attribution_follows_session_witness :
  ∃ t,
    page (run (new_session ∅)
            [ PageLoad KeyTracker example_env [];
              Emit example_env (VStr "cta_click") VUndefined;
              PageLoad OrgTracker (example_page [("page", "2")]) [] ]) = Some t
    ∧ tracking t = tracking_object (readParams (query example_env))
    ∧ adInfo t = classifyAdPlatform (own_props (tracking_object (readParams (query example_env)))).
Proof.
  apply (attribution_follows_session (new_session ∅) KeyTracker example_env []
           [ Emit example_env (VStr "cta_click") VUndefined;
             PageLoad OrgTracker (example_page [("page", "2")]) [] ]); reflexivity.
Defined.

(** ** The client identifier across the pages of a session *)

Lemma getGAClientId_stored (cookie random : string) (now : N) (ls : gmap string string)
    (cid : string) :
  ga_cookie_id cookie = None →
  getItem_truthy ls "ga_client_id" = Some cid →
  getGAClientId cookie random now ls = (cid, ls).
Proof. intros Hcookie Hls. unfold getGAClientId. by rewrite Hcookie, Hls. Qed.

Lemma getGAClientId_persisted (cookie random : string) (now : N) (ls : gmap string string) :
  ga_cookie_id cookie = None →
  getItem_truthy (getGAClientId cookie random now ls).2 "ga_client_id"
  = Some (getGAClientId cookie random now ls).1.
Proof.
  intros Hcookie. unfold getGAClientId. rewrite Hcookie.
  destruct (getItem_truthy ls "ga_client_id") as [cid|] eqn:Hls; cbn [fst snd]; [done|].
  by apply getItem_truthy_insert.
Qed.

Lemma getGAClientId_keeps (cookie random : string) (now : N) (ls : gmap string string)
    (cid : string) :
  getItem_truthy ls "ga_client_id" = Some cid →
  (getGAClientId cookie random now ls).2 = ls.
Proof.
  intros Hls. unfold getGAClientId. destruct (ga_cookie_id cookie); [done|]. by rewrite Hls.
Qed.

Lemma getItem_truthy_Some (st : gmap string string) (k v : string) :
  getItem_truthy st k = Some v → st !! k = Some v ∧ v ≠ "".
Proof.
  unfold getItem_truthy. destruct (st !! k) as [x|]; [|done].
  destruct x; [done|]. by intros [= <-].
Qed.

Lemma step_load_identity (s : Session) (v : Variant) (env : Env)
    (existing : list (gmap string JsValue)) :
  stored_ok (sessionStorage (world s)) →
  let id := getGAClientId (cookie env) (random_token env) (now_ms env)
              (localStorage (world s)) in
  stored_ok (sessionStorage (world (step s (PageLoad v env existing))))
  ∧ localStorage (world (step s (PageLoad v env existing))) = id.2
  ∧ ∃ t, page (step s (PageLoad v env existing)) = Some t ∧ GA_CLIENT_ID t = id.1.
Proof.
  intros Hok. cbn zeta. cbn [step].
  destruct (stored_ok_resolve (query env) (sessionStorage (world s)) Hok)
    as (r & ss' & Hresolve & Hok' & _).
  edestruct (script_resolved v env) as (w' & -> & Hls & Hss & _); [| exact Hresolve |]; [done|].
  cbn [world page]. split; [|split; [exact Hls | eauto]].
  rewrite Hss. destruct (getItem_truthy _ _); [done|].
  destruct Hok' as [Hnone|[r' Hr']]; [left | right; exists r']; by rewrite lookup_insert_ne.
Qed.

Lemma step_keeps_identity (s : Session) (a : Action) (cid : string) :
  stored_ok (sessionStorage (world s)) →
  getItem_truthy (localStorage (world s)) "ga_client_id" = Some cid →
  stored_ok (sessionStorage (world (step s a)))
  ∧ getItem_truthy (localStorage (world (step s a))) "ga_client_id" = Some cid.
Proof.
  intros Hok Hls. destruct a as [v env existing|env eventName eventData].
  - destruct (step_load_identity s v env existing Hok) as (Hok' & -> & _).
    split; [exact Hok'|]. by rewrite (getGAClientId_keeps _ _ _ _ cid).
  - cbn [step]. by destruct (page s).
Qed.

Lemma run_keeps_identity (actions : list Action) (cid : string) :
  ∀ s,
    stored_ok (sessionStorage (world s)) →
    getItem_truthy (localStorage (world s)) "ga_client_id" = Some cid →
    stored_ok (sessionStorage (world (run s actions)))
    ∧ getItem_truthy (localStorage (world (run s actions))) "ga_client_id" = Some cid.
Proof.
  induction actions as [|a actions IH]; intros s Hok Hls; [done|].
  destruct (step_keeps_identity s a cid Hok Hls) as [Hok' Hls']. by apply IH.
Qed.

(** X14 — two pages of a session whose cookie strings give no client
    identifier share one: the tracker of the later page has the
    identifier of the earlier one, whatever pages, with or without a GA
    cookie, were loaded and whatever was emitted in between; the
    identifier is not empty and is the one local storage holds under
    ga_client_id. *)
Theorem client_id_follows_session (s : Session) (v v' : Variant) (env env' : Env)
    (existing existing' : list (gmap string JsValue)) (between : list Action) :
  stored_ok (sessionStorage (world s)) →
  ga_cookie_id (cookie env) = None →
  ga_cookie_id (cookie env') = None →
  ∃ t t',
    page (step s (PageLoad v env existing)) = Some t
    ∧ page (run s (PageLoad v env existing :: between ++ [PageLoad v' env' existing'])) = Some t'
    ∧ GA_CLIENT_ID t' = GA_CLIENT_ID t
    ∧ GA_CLIENT_ID t ≠ ""
    ∧ localStorage
        (world (run s (PageLoad v env existing :: between ++ [PageLoad v' env' existing'])))
      !! "ga_client_id" = Some (GA_CLIENT_ID t).
Proof.
  intros Hok Hcookie Hcookie'.
  destruct (step_load_identity s v env existing Hok) as (Hok1 & Hls1 & t & Ht & Hid).
  pose proof (getGAClientId_persisted (cookie env) (random_token env) (now_ms env)
                (localStorage (world s)) Hcookie) as Hstored.
  rewrite <- Hls1, <- Hid in Hstored.
  unfold run. cbn [foldl]. rewrite foldl_app. cbn [foldl].
  destruct (run_keeps_identity between _ _ Hok1 Hstored) as [Hok2 Hls2].
  unfold run in Hok2, Hls2.
  set (s2 := foldl step (step s (PageLoad v env existing)) between) in *.
  destruct (step_load_identity s2 v' env' existing' Hok2) as (_ & Hls3 & t' & Ht' & Hid').
  rewrite (getGAClientId_stored _ _ _ _ _ Hcookie' Hls2) in Hls3, Hid'. cbn [fst snd] in *.
  exists t, t'. apply getItem_truthy_Some in Hls2 as [Hlookup Hne].
  repeat split; try done. by rewrite Hls3.
Qed.

Lemma client_id_follows_session_witness :
  ∃ t t',
    page (step (new_session ∅) (PageLoad KeyTracker (example_page_no_ga []) [])) = Some t
    ∧ page (run (new_session ∅)
              (PageLoad KeyTracker (example_page_no_ga []) []
               :: [Emit example_env (VStr "cta_click") VUndefined]
               ++ [PageLoad OrgTracker (example_page_no_ga []) []])) = Some t'
    ∧ GA_CLIENT_ID t' = GA_CLIENT_ID t
    ∧ GA_CLIENT_ID t ≠ ""
    ∧ localStorage
        (world (run (new_session ∅)
                  (PageLoad KeyTracker (example_page_no_ga []) []
                   :: [Emit example_env (VStr "cta_click") VUndefined]
                   ++ [PageLoad OrgTracker (example_page_no_ga []) []])))
      !! "ga_client_id" = Some (GA_CLIENT_ID t).
Proof.
  apply (client_id_follows_session (new_session ∅) KeyTracker OrgTracker
           (example_page_no_ga []) (example_page_no_ga []) [] []
           [Emit example_env (VStr "cta_click") VUndefined]).
  - by left.
  - reflexivity.
  - reflexivity.
Defined.

(** ** Page views *)

Lemma step_page_views (s : Session) (a : Action) :
  tracker_only s →
  brings_no "page_view" a = true →
  count_events "page_view" (session_log (step s a))
  = (count_events "page_view" (session_log s) + if is_page_load a then 1 else 0)%nat.
Proof.
  intros [Hok Hpage] Ha. destruct a as [v env existing|env eventName eventData];
    cbn [brings_no is_page_load] in *.
  - destruct (step_load_tracker_only s v env existing Hok)
      as (t & r & w' & -> & Ht & _ & Hlog).
    unfold session_log. cbn [world archive]. rewrite Hlog, !count_events_app.
    rewrite (count_events_none _ _ Ha).
    destruct (getItem_truthy _ _);
      rewrite !count_events_one, ?(is_event_envelope _ _ _ r) by done; cbn; lia.
  - cbn [step]. destruct (page s) as [t|] eqn:Hp; [|lia].
    destruct (Hpage t eq_refl) as [r Hr].
    unfold session_log, ClientTracker_push, pushToDataLayer. cbn [world archive].
    destruct (world s) as [ss ls fl log]. cbn [dataLayer set_dataLayer].
    rewrite !count_events_app, count_events_one.
    unfold is_event in *. rewrite (envelope_event _ _ _ _ r Hr).
    apply negb_true_iff in Ha. rewrite Ha. lia.
Qed.

(** X15 — in a session from empty session storage, the log holds one
    page_view for each page load, whatever the pages and the events
    emitted on them, provided no emit call itself produces an event
    named page_view and no other script puts one in the log. *)
Theorem page_view_per_load (ls : gmap string string) (actions : list Action) :
  forallb (brings_no "page_view") actions = true →
  count_events "page_view" (session_log (run (new_session ls) actions))
  = length (filter (λ a, is_page_load a = true) actions).
Proof.
  intros Hactions.
  assert (Hrun : ∀ s, tracker_only s →
            count_events "page_view" (session_log (run s actions))
            = (count_events "page_view" (session_log s)
               + length (filter (λ a, is_page_load a = true) actions))%nat).
  { induction actions as [|a actions IH]; intros s Hs; [cbn; lia|].
    cbn [forallb] in Hactions. apply andb_true_iff in Hactions as [Ha Hactions].
    cbn [run foldl]. fold (run (step s a) actions).
    rewrite (IH Hactions) by (by apply step_tracker_only).
    rewrite (step_page_views s a Hs Ha).
    destruct (is_page_load a) eqn:Hload.
    - rewrite filter_cons_True by done. cbn [length]. lia.
    - rewrite filter_cons_False by (by rewrite Hload). lia. }
  by rewrite (Hrun _ (new_session_tracker_only ls)).
Qed.

Lemma page_view_per_load_witness :
  count_events "page_view"
    (session_log
       (run (new_session ∅)
          [ PageLoad KeyTracker example_env [];
            Emit example_env (VStr "cta_click") (VObj {["cta_name" := VStr "signup"]});
            PageLoad OrgTracker (example_page []) [] ])) = 2%nat.
Proof.
  apply (page_view_per_load ∅
           [ PageLoad KeyTracker example_env [];
             Emit example_env (VStr "cta_click") (VObj {["cta_name" := VStr "signup"]});
             PageLoad OrgTracker (example_page []) [] ]).
  reflexivity.
Defined.

(** ** The script as a whole *)

Lemma script_sets_flag (v : Variant) (env : Env) (w : World) :
  client_tracker_flag (script v env w).1 = true.
Proof.
  unfold script. destruct (client_tracker_flag w) eqn:Hflag; [exact Hflag|].
  destruct (getGAClientId _ _ _ _) as [cid ls].
  destruct (resolveTracking _ _) as [ss parsed].
  destruct (parsed ≫= _) as [[tr ad]| |]; [|done..].
  cbn [fst]. by destruct (getItem_truthy _ _).
Qed.

(** X16 — a second inclusion of the script in a window, of either
    version and with whatever page data, does nothing: it returns at
    once and leaves storage and the log as the first run left them, also
    when the first run ended in an error. *)
Theorem script_second_inclusion (v v' : Variant) (env env' : Env) (w : World) :
  script v' env' (script v env w).1 = ((script v env w).1, Normal None).
Proof.
  pose proof (script_sets_flag v env w) as Hflag.
  unfold script at 1. by rewrite Hflag.
Qed.

(** X17 — whenever the script completes on a page, from whatever
    storage: the ad classification of the tracker is the one of the
    attribution it works on; the scroll, form-start and exit state of
    the page start empty, so form_start and exit_intent are per page,
    not per session; the session marker is set; and the last entry of
    the log is the page_view of the page. *)
Theorem script_postcondition (v : Variant) (env : Env) (w w' : World) (t : Tracker) :
  script v env w = (w', Normal (Some t)) →
  variant t = v
  ∧ CONFIG t = read_config v env
  ∧ detectAds (tracking t) = Normal (adInfo t)
  ∧ seenScroll t = ∅ ∧ scrollTimeout t = false
  ∧ formStarted t = false ∧ exitTracked t = false
  ∧ is_Some (getItem_truthy (sessionStorage w') "session_started")
  ∧ last (dataLayer w') = Some (envelope t env (VStr "page_view") VUndefined).
Proof.
  unfold script. destruct (client_tracker_flag w); [done|].
  destruct (getGAClientId _ _ _ _) as [cid ls].
  destruct (resolveTracking _ _) as [ss [tr| |]]; cbn [mbind Completion_bind]; [|done..].
  destruct (detectAds tr) as [ad| |] eqn:Hads;
    cbn [mbind Completion_bind mret Completion_ret]; [|done..].
  intros [= <- <-]. cbn [variant CONFIG tracking adInfo seenScroll scrollTimeout formStarted
                          exitTracked].
  repeat (split; [done|]).
  cbn [sessionStorage set_sessionStorage].
  destruct (getItem_truthy ss "session_started") as [m|] eqn:Hm.
  - split; [cbn; rewrite Hm; eauto|]. cbn. by rewrite last_snoc.
  - split; [cbn; rewrite getItem_truthy_insert by done; eauto|]. cbn. by rewrite last_snoc.
Qed.

Lemma script_postcondition_witness :
  variant (example_tracker OrgTracker) = OrgTracker
  ∧ CONFIG (example_tracker OrgTracker) = read_config OrgTracker example_env
  ∧ detectAds (tracking (example_tracker OrgTracker)) = Normal (adInfo (example_tracker OrgTracker))
  ∧ seenScroll (example_tracker OrgTracker) = ∅
  ∧ scrollTimeout (example_tracker OrgTracker) = false
  ∧ formStarted (example_tracker OrgTracker) = false
  ∧ exitTracked (example_tracker OrgTracker) = false
  ∧ is_Some (getItem_truthy (sessionStorage (script OrgTracker example_env empty_world).1)
               "session_started")
  ∧ last (dataLayer (script OrgTracker example_env empty_world).1)
    = Some (envelope (example_tracker OrgTracker) example_env (VStr "page_view") VUndefined).
Proof.
  apply (script_postcondition OrgTracker example_env empty_world
           (script OrgTracker example_env empty_world).1 (example_tracker OrgTracker)).
  vm_compute. reflexivity.
Defined.

(** ** The GA cookie in its standard format *)

Lemma all_chars_app (P : ascii → bool) (a b : string) :
  all_chars P (a +:+ b) = all_chars P a && all_chars P b.
Proof. induction a as [|c a IH]; cbn; [done|]. by rewrite IH, andb_assoc. Qed.

Lemma all_chars_impl (P Q : ascii → bool) (s : string) :
  (∀ c, P c = true → Q c = true) → all_chars P s = true → all_chars Q s = true.
Proof.
  intros HPQ. induction s as [|c s IH]; cbn; [done|].
  intros [Hc Hs]%andb_true_iff. by rewrite (HPQ c Hc), IH.
Qed.

Lemma lazy_to_semicolon_value (v post : string) :
  all_chars value_char v = true →
  Cookie.lazy_to_semicolon (v +:+ String ";" post) = Some v.
Proof.
  induction v as [|c v IH]; cbn [all_chars String.append Cookie.lazy_to_semicolon] in *; [done|].
  unfold value_char at 1. intros [[Hsemi Hdot]%andb_true_iff Hv]%andb_true_iff.
  apply negb_true_iff in Hsemi. by rewrite Hsemi, Hdot, IH.
Qed.

Lemma ga_match_first (pre v post : string) :
  Str.includes pre "_ga=" = false →
  v ≠ "" →
  all_chars value_char v = true →
  Cookie.ga_match (pre +:+ "_ga=" +:+ v +:+ ";" +:+ post) = Some v.
Proof.
  intros Hpre Hne Hv. induction pre as [|c pre IH].
  - destruct v as [|c v]; [done|]. cbn [all_chars] in Hv.
    apply andb_true_iff in Hv as [Hc Hv]. unfold value_char in Hc.
    apply andb_true_iff in Hc as [_ Hdot].
    cbn [String.append Cookie.ga_match]. unfold Cookie.match_here.
    cbn [Str.strip_prefix Ascii.eqb Bool.eqb Cookie.group_then_semicolon].
    by rewrite Hdot, lazy_to_semicolon_value.
  - cbn in Hpre. apply orb_false_elim in Hpre as [Hhead Hpre].
    change (Cookie.ga_match (String c pre +:+ "_ga=" +:+ v +:+ ";" +:+ post))
      with (match Cookie.match_here (String c pre +:+ "_ga=" +:+ v +:+ ";" +:+ post) with
            | Some m => Some m
            | None => Cookie.ga_match (pre +:+ "_ga=" +:+ v +:+ ";" +:+ post)
            end).
    unfold Cookie.match_here. rewrite strip_prefix_no_straddle by done. auto.
Qed.

Lemma split_field (a rest : string) :
  all_chars field_char a = true →
  Str.split "." (a +:+ String "." rest) = a :: Str.split "." rest.
Proof.
  induction a as [|c a IH]; cbn [all_chars String.append Str.split] in *; [done|].
  unfold field_char at 1. intros [[Hstop _]%andb_true_iff Ha]%andb_true_iff.
  apply negb_true_iff in Hstop. by rewrite Hstop, IH.
Qed.

Lemma split_last_field (a : string) :
  all_chars field_char a = true → Str.split "." a = [a].
Proof.
  induction a as [|c a IH]; cbn [all_chars Str.split]; [done|].
  unfold field_char at 1. intros [[Hstop _]%andb_true_iff Ha]%andb_true_iff.
  apply negb_true_iff in Hstop. by rewrite Hstop, IH.
Qed.

(** X18 — a cookie string in which the first [_ga=] is followed by a
    value of four fields [a.b.x.y] and a semicolon gives the identifier
    [x.y], whatever precedes that [_ga=] (the end of another cookie's
    name included) and whatever follows the semicolon; the tracker then
    uses it and leaves local storage alone. *)
Theorem ga_cookie_standard (pre a b x y post random : string) (now : N)
    (ls : gmap string string) :
  Str.includes pre "_ga=" = false →
  all_chars field_char a = true →
  all_chars field_char b = true →
  all_chars field_char x = true →
  all_chars field_char y = true →
  let cookie := pre +:+ "_ga=" +:+ a +:+ "." +:+ b +:+ "." +:+ x +:+ "." +:+ y +:+ ";" +:+ post in
  ga_cookie_id cookie = Some (x +:+ "." +:+ y)
  ∧ getGAClientId cookie random now ls = (x +:+ "." +:+ y, ls).
Proof.
  intros Hpre Ha Hb Hx Hy. cbn zeta.
  assert (Hid : ga_cookie_id
                  (pre +:+ "_ga=" +:+ a +:+ "." +:+ b +:+ "." +:+ x +:+ "." +:+ y +:+ ";" +:+ post)
                = Some (x +:+ "." +:+ y)).
  { unfold ga_cookie_id.
    replace (pre +:+ "_ga=" +:+ a +:+ "." +:+ b +:+ "." +:+ x +:+ "." +:+ y +:+ ";" +:+ post)
      with (pre +:+ "_ga=" +:+ (a +:+ "." +:+ b +:+ "." +:+ x +:+ "." +:+ y) +:+ ";" +:+ post)
      by (by rewrite !append_assoc).
    assert (Hfield : ∀ s, all_chars field_char s = true → all_chars value_char s = true).
    { intros s. apply all_chars_impl. unfold field_char. by intros c [_ ?]%andb_true_iff. }
    rewrite ga_match_first.
    - cbn [String.append]. by rewrite !split_field, split_last_field.
    - exact Hpre.
    - destruct a; discriminate.
    - rewrite !all_chars_app, (Hfield a), (Hfield b), (Hfield x), (Hfield y) by done.
      reflexivity. }
  split; [exact Hid|]. unfold getGAClientId. by rewrite Hid.
Qed.

Lemma ga_cookie_standard_witness :
  ga_cookie_id "theme=dark; my_ga=GA1.2.123456789.987654321; _ga=GA1.1.5.6;"
  = Some "123456789.987654321"
  ∧ getGAClientId "theme=dark; my_ga=GA1.2.123456789.987654321; _ga=GA1.1.5.6;" "k3j9x" 17 ∅
    = ("123456789.987654321", ∅).
Proof.
  apply (ga_cookie_standard "theme=dark; my" "GA1" "2" "123456789" "987654321"
           " _ga=GA1.1.5.6;" "k3j9x" 17 ∅); reflexivity.
Defined.

(** ** The test for sensitive names *)

Lemma strip_prefix_append (p r : string) : Str.strip_prefix p (p +:+ r) = Some r.
Proof.
  induction p as [|c p IH]; cbn [String.append Str.strip_prefix]; [by destruct r|].
  by rewrite Ascii.eqb_refl.
Qed.

Lemma startsWith_iff (s p : string) :
  Str.startsWith s p = true ↔ ∃ post, s = p +:+ post.
Proof.
  unfold Str.startsWith. split.
  - destruct (Str.strip_prefix p s) as [r|] eqn:Hr; [|done].
    intros _. exists r. by apply strip_prefix_Some.
  - intros [post ->]. by rewrite strip_prefix_append.
Qed.

Lemma includes_iff (s p : string) :
  Str.includes s p = true ↔ ∃ pre post, s = pre +:+ p +:+ post.
Proof.
  induction s as [|c s IH]; cbn [Str.includes].
  - rewrite startsWith_iff. split.
    + intros [post Hpost]. by exists "", post.
    + intros (pre & post & Hs). destruct pre; [by exists post | done].
  - rewrite orb_true_iff, startsWith_iff, IH. split.
    + intros [[post Hpost]|(pre & post & ->)]; [by exists "", post|].
      by exists (String c pre), post.
    + intros ([|c' pre] & post & Hs); [left; by exists post|].
      right. injection Hs as -> ->. by exists pre, post.
Qed.

(** X19 — a field name is sensitive exactly when its lower-cased form
    contains one of the words of the version's list, anywhere and in any
    mix of cases in the name; so a name that merely contains such a word
    (passport_number contains pass) is dropped as well, and every name
    the data-org version drops the tracking-key version drops too. *)
Theorem is_sensitive_substring (v : Variant) (key : string) :
  (is_sensitive v key = true
   ↔ ∃ word pre post,
       word ∈ denylist v ∧ Str.toLowerCase key = pre +:+ word +:+ post)
  ∧ (is_sensitive OrgTracker key = true → is_sensitive KeyTracker key = true)
  ∧ is_sensitive v "Passport_Number" = true.
Proof.
  split; [|split].
  - unfold is_sensitive. cbn zeta. rewrite existsb_exists. split.
    + intros (word & Hword%list_elem_of_In & (pre & post & Hkey)%includes_iff). eauto 6.
    + intros (word & pre & post & Hword & Hkey). exists word. split.
      * by apply list_elem_of_In.
      * apply includes_iff. eauto.
  - unfold is_sensitive. cbn zeta. rewrite !existsb_exists.
    intros (word & Hword & Hkey). exists word. split; [|done].
    revert Hword. rewrite <- !list_elem_of_In. unfold denylist. intros Hword.
    elem_of_cases Hword; apply (bool_decide_unpack _); vm_compute; reflexivity.
  - by destruct v.
Qed.

Lemma is_sensitive_substring_witness : is_sensitive KeyTracker "cardNo" = true.
Proof.
  destruct (is_sensitive_substring OrgTracker "cardNo") as (_ & H & _).
  apply H. reflexivity.
Defined.

(** ** The query parameters the tracker reads *)

Lemma param_filter (P : string * string → Prop) `{!∀ kv, Decision (P kv)}
    (q : list (string * string)) (k : string) :
  (∀ x, P (k, x)) → param (filter P q) k = param q k.
Proof.
  intros Hk. unfold param. induction q as [|[k' x] q IH]; [done|].
  destruct (decide (k' = k)) as [->|Hne].
  - rewrite filter_cons_True by done. cbn [list_find fst]. by rewrite !decide_True.
  - destruct (decide (P (k', x))).
    + rewrite filter_cons_True by done. cbn [list_find fst]. rewrite !decide_False by done.
      destruct (list_find _ (filter _ q)) as [[i [k1 x1]]|],
               (list_find _ q) as [[j [k2 x2]]|]; cbn in *; congruence.
    + rewrite filter_cons_False by done. cbn [list_find fst]. rewrite decide_False by done.
      rewrite IH. by destruct (list_find _ q) as [[j [k2 x2]]|].
Qed.

(** X20 — the attribution depends on the recognised parameters of the
    URL only: removing every other parameter from the query changes
    neither the record read nor what is stored and used. *)
Theorem readParams_recognised (q : list (string * string)) (ss : gmap string string) :
  let q' := filter (λ kv, kv.1 ∈ recognised_parameters) q in
  readParams q' = readParams q ∧ resolveTracking q' ss = resolveTracking q ss.
Proof.
  cbn zeta.
  assert (Hread : readParams (filter (λ kv, kv.1 ∈ recognised_parameters) q) = readParams q).
  { assert (Hparam : ∀ k, k ∈ recognised_parameters →
              param (filter (λ kv, kv.1 ∈ recognised_parameters) q) k = param q k)
      by (intros k Hk; by apply param_filter).
    unfold readParams.
    rewrite !Hparam by (apply (bool_decide_unpack _); vm_compute; reflexivity).
    reflexivity. }
  split; [exact Hread|]. unfold resolveTracking. by rewrite Hread.
Qed.

(** ** The names of an envelope *)

(** X21 — every entry the tracker appends has the same names: those of
    the metadata, of the attribution record and of the ad
    classification, and beside them the names of the event data and no
    other; so an emit call without data, or with null or a number for
    data, gives exactly the fixed names. *)
Theorem envelope_schema (t : Tracker) (env : Env) (r : Tracking)
    (eventName eventData : JsValue) :
  tracking t = tracking_object r →
  dom (envelope t env eventName eventData)
  = list_to_set (envelope_names (variant t)) ∪ dom (own_props eventData).
Proof.
  intros Hr. apply set_eq. intros k.
  rewrite elem_of_union, elem_of_list_to_set, !elem_of_dom. split.
  - intros [H|H]%(envelope_names_complete _ _ _ _ r); auto.
  - rewrite envelope_unfold, Hr, !lookup_union_is_Some.
    intros [Hk|Hk]; [|by left]. right.
    destruct t as [[] cfg cid tr ad seen timeout started tracked];
      unfold envelope_names in Hk; cbn [variant id_property] in Hk;
      elem_of_cases Hk;
      first [ left; eexists; reflexivity
            | right; left; eexists; reflexivity
            | right; right; eexists; reflexivity ].
Qed.

Lemma envelope_schema_witness :
  dom (envelope (example_tracker KeyTracker) example_env (VStr "signup") VNull)
  = list_to_set (envelope_names KeyTracker) ∪ dom (own_props VNull).
Proof.
  apply (envelope_schema (example_tracker KeyTracker) example_env
           (readParams (query example_env))). reflexivity.
Defined.

(** ** The stored snapshot *)

Lemma detectAds_value (tr : JsValue) :
  tr ≠ VNull → tr ≠ VUndefined →
  detectAds tr = Normal (classifyAdPlatform (own_props tr)).
Proof.
  intros Hnull Hundef. rewrite <- detectAds_object. by destruct tr.
Qed.

(** X22 — what a page without recognised parameters makes of the
    snapshot in session storage: the script throws when the snapshot is
    not JSON (the error of [JSON.parse]) and when it is the JSON text
    null (a TypeError); any other JSON value, be it a number, a string
    or an array, is taken as the attribution as it is, and the script
    completes. *)
Theorem script_snapshot_outcome (v : Variant) (env : Env) (w : World) (stored : string) :
  client_tracker_flag w = false →
  hasAny (readParams (query env)) = false →
  getItem_truthy (sessionStorage w) "tracking_params" = Some stored →
  match JSON.parse stored with
  | Throw e => (script v env w).2 = Throw e
  | Unmodelled => (script v env w).2 = Unmodelled
  | Normal VNull | Normal VUndefined => (script v env w).2 = Throw TypeError
  | Normal tr =>
      ∃ t, (script v env w).2 = Normal (Some t)
           ∧ tracking t = tr
           ∧ adInfo t = classifyAdPlatform (own_props tr)
  end.
Proof.
  intros Hflag Hany Hstored. unfold script. rewrite Hflag.
  destruct (getGAClientId _ _ _ _) as [cid ls].
  cbn [sessionStorage set_localStorage set_flag].
  unfold resolveTracking. rewrite Hany, Hstored.
  destruct (JSON.parse stored) as [tr| |]; [|done..].
  cbn [mbind Completion_bind].
  destruct tr; try done;
    (rewrite detectAds_value by done;
     cbn [mbind Completion_bind mret Completion_ret snd]; eauto).
Qed.

Lemma script_snapshot_outcome_witness :
  ∃ t, (script OrgTracker (example_page []) (world_with_snapshot "[1,2]")).2 = Normal (Some t)
       ∧ tracking t = VArr [VNum 1; VNum 2]
       ∧ adInfo t = classifyAdPlatform (own_props (VArr [VNum 1; VNum 2])).
Proof.
  apply (script_snapshot_outcome OrgTracker (example_page []) (world_with_snapshot "[1,2]")
           "[1,2]"); reflexivity.
Defined.

(* ===================================================================== *)
(** * Properties of the CRM menu item *)
(* ===================================================================== *)

Lemma menu_steps_idle (events : list MenuEvent) :
  ∀ w, checkSidebar w = false → appended (foldl menu_step w events) = appended w.
Proof.
  induction events as [|[| |buttons] events IH]; intros w Hw; cbn [foldl]; [done|..].
  - unfold menu_step, checkSidebar_tick. rewrite Hw. cbn [negb]. by apply IH.
  - by rewrite IH.
  - by rewrite IH.
Qed.

Lemma menu_steps_polling (events : list MenuEvent) :
  ∀ w,
    checkSidebar w = true →
    truthy (customCRMMenuInjected w) = false →
    appended (foldl menu_step w events)
    = appended w
      ++ match first_sidebar (sidebar w) events with
         | Some lastMenuItem => [customReportsBtn lastMenuItem]
         | None => []
         end.
Proof.
  induction events as [|[| |buttons] events IH]; intros w Hpoll Hflag;
    cbn [foldl first_sidebar].
  - by rewrite app_nil_r.
  - unfold menu_step at 2, checkSidebar_tick. rewrite Hpoll, Hflag. cbn [negb].
    destruct (sidebar w) as [menuItems|] eqn:Hsidebar; cbn [mbind option_bind].
    + destruct (last menuItems) as [lastMenuItem|] eqn:Hlast.
      * by rewrite menu_steps_idle.
      * rewrite IH by done. by rewrite Hsidebar.
    + rewrite IH by done. by rewrite Hsidebar.
  - rewrite menu_steps_idle by done. by rewrite app_nil_r.
  - by rewrite IH.
Qed.

Lemma menu_steps_injected (events : list MenuEvent) :
  ∀ w, truthy (customCRMMenuInjected w) = true →
       appended (foldl menu_step w events) = appended w.
Proof.
  induction events as [|[| |buttons] events IH]; intros w Hw; cbn [foldl]; [done|..].
  - unfold menu_step, checkSidebar_tick.
    destruct (checkSidebar w); cbn [negb]; [|by apply IH].
    destruct (sidebar w); [|by apply IH]. rewrite Hw. cbn [negb]. by apply IH.
  - by rewrite IH.
  - by rewrite IH.
Qed.

Lemma menu_script_state (w : CrmWindow) :
  appended (menu_script w) = appended w
  ∧ sidebar (menu_script w) = sidebar w
  ∧ checkSidebar (menu_script w) = Str.startsWith (pathname w) "/crm" || checkSidebar w
  ∧ truthy (customCRMMenuInjected (menu_script w)) = truthy (customCRMMenuInjected w).
Proof.
  unfold menu_script, addCustomMenuItems, define_flag. cbn [pathname].
  destruct (Str.startsWith (pathname w) "/crm"); cbn [negb orb];
    repeat split; by destruct (customCRMMenuInjected w).
Qed.

(** X23 — the CRM menu script appends its button at most once: on a
    path under /crm, in a window in which the flag is not yet set and no
    interval of an earlier run is pending, the button is appended at the
    first firing of the interval that finds a sidebar with a button in
    it, with the class of the last button found, and never again, also
    when the sidebar is later rendered anew without it; nothing is
    appended once the timeout has cleared the interval, on a path
    outside /crm, or when the flag was set before. *)
Theorem crm_menu_once (w : CrmWindow) (events : list MenuEvent) :
  checkSidebar w = false →
  appended (foldl menu_step (menu_script w) events)
  = appended w
    ++ if Str.startsWith (pathname w) "/crm" && negb (truthy (customCRMMenuInjected w))
       then match first_sidebar (sidebar w) events with
            | Some lastMenuItem => [customReportsBtn lastMenuItem]
            | None => []
            end
       else [].
Proof.
  intros Hidle.
  destruct (menu_script_state w) as (Happended & Hsidebar & Hpoll & Hflag).
  rewrite Hidle, orb_false_r in Hpoll.
  destruct (Str.startsWith (pathname w) "/crm"); cbn [andb].
  - destruct (truthy (customCRMMenuInjected w)); cbn [negb].
    + by rewrite app_nil_r, menu_steps_injected.
    + by rewrite menu_steps_polling, Happended, Hsidebar.
  - by rewrite app_nil_r, menu_steps_idle.
Qed.

Lemma crm_menu_once_witness :
  appended
    (foldl menu_step
       (menu_script
          {| customCRMMenuInjected := VUndefined; pathname := "/crm/leads";
             sidebar := None; checkSidebar := false; appended := [] |})
       [ Tick;
         Render (Some [{| menu_className := "item"; menu_label := "Leads"; menu_href := None |}]);
         Tick;
         Render (Some [{| menu_className := "item"; menu_label := "Leads"; menu_href := None |}]);
         Tick ])
  = [customReportsBtn {| menu_className := "item"; menu_label := "Leads"; menu_href := None |}].
Proof.
  apply (crm_menu_once
           {| customCRMMenuInjected := VUndefined; pathname := "/crm/leads";
              sidebar := None; checkSidebar := false; appended := [] |}).
  reflexivity.
Defined.

